(** * The flash session store of [src/utils/flash.ts]

    A shallow embedding of the QDL flash-session store: the device
    recognition predicate, the published store fields, the four phases
    (download, unpack, flash, erase), [startFlashing], [initialize] and
    [handleError].

    The store is a record of the eight writables and the two closure
    variables.  A computation takes the system state and yields how it
    settled (returned or threw a JavaScript value), the state it left and
    the events it caused in order: every [set] on a writable and every
    call on a collaborator.  The device driver ([qdlDevice]), the image
    worker and the manifest loader live outside this module; they are an
    environment that answers every call from a state of its own.

    The module exists in a typed and an untyped variant with the same
    control flow and two different [Error] tables; the table is a
    parameter of the session, the rest follows the typed variant. *)

From Stdlib Require Import ZArith QArith List String Ascii Strings.Byte Bool Lia.
Import ListNotations.
Local Open Scope string_scope.
Local Open Scope list_scope.
Local Open Scope Z_scope.

(** ** JavaScript values that travel through [throw] and the error store *)

(** Only the shapes the store can tell apart: [err.code], [a || b],
    [startsWith] and [includes] look at nothing else.  An object carries a
    label (its message) and the value of its [code] property, [JUndefined]
    when it has none. *)
Inductive JsVal : Type :=
| JUndefined
| JNull
| JNum (z : Z)
| JStr (s : string)
| JObj (label : string) (code : JsVal).

Fixpoint JsVal_eqb (a b : JsVal) : bool :=
  match a, b with
  | JUndefined, JUndefined => true
  | JNull, JNull => true
  | JNum x, JNum y => Z.eqb x y
  | JStr x, JStr y => String.eqb x y
  | JObj l c, JObj l' c' => String.eqb l l' && JsVal_eqb c c'
  | _, _ => false
  end.

(** ToBoolean. *)
Definition truthy (v : JsVal) : bool :=
  match v with
  | JUndefined | JNull => false
  | JNum z => negb (Z.eqb z 0)
  | JStr s => negb (String.eqb s "")
  | JObj _ _ => true
  end.

(** [a || b]. *)
Definition or_else (a b : JsVal) : JsVal := if truthy a then a else b.

(** [err.code] on a value that is neither [undefined] nor [null];
    primitives have no [code]. *)
Definition get_code (err : JsVal) : JsVal :=
  match err with
  | JObj _ c => c
  | _ => JUndefined
  end.

(** [new Error(msg)] and the engine's [TypeError]: objects without [code]. *)
Definition new_Error (msg : string) : JsVal := JObj msg JUndefined.
Definition TypeError (msg : string) : JsVal := JObj ("TypeError: " ++ msg)%string JUndefined.

(** The value thrown by the guard at the head of three of the phases,
    [throw new Error('ImageWorker not initialized')].  Inside the module
    [Error] is the module's own constant, the table of error codes, which
    hides the global constructor: [new Error(...)] is a [new] on a plain
    object and throws the engine's [TypeError] before any error object
    exists. *)
Definition not_initialized : JsVal := TypeError "Error is not a constructor".

(** ** The [Step] and [Error] enumerations *)

Module Step.
Definition INITIALIZING : Z := 0.
Definition READY : Z := 1.
Definition CONNECTING : Z := 2.
Definition DOWNLOADING : Z := 3.
Definition UNPACKING : Z := 4.
Definition FLASHING : Z := 6.
Definition ERASING : Z := 7.
Definition DONE : Z := 8.
End Step.

(** [Error] is a plain object used as a table; reading a key it does not
    have yields [undefined]. *)
Definition ErrorTable : Type := list (string * Z).

Fixpoint member (t : ErrorTable) (k : string) : JsVal :=
  match t with
  | [] => JUndefined
  | (k', z) :: t' => if String.eqb k k' then JNum z else member t' k
  end.

(** The table of [src/utils/flash.ts]. *)
Definition Error : ErrorTable :=
  [ ("UNKNOWN", -1); ("NONE", 0); ("UNRECOGNIZED_DEVICE", 1);
    ("LOST_CONNECTION", 2); ("DOWNLOAD_FAILED", 3); ("CHECKSUM_MISMATCH", 4);
    ("FLASH_FAILED", 5); ("ERASE_FAILED", 6); ("REQUIREMENTS_NOT_MET", 7) ].

(** The table of the untyped variant of the same module. *)
Definition Error_untyped : ErrorTable :=
  [ ("UNKNOWN", -1); ("NONE", 0); ("UNRECOGNIZED_DEVICE", 1);
    ("LOST_CONNECTION", 2); ("DOWNLOAD_FAILED", 3); ("UNPACK_FAILED", 4);
    ("CHECKSUM_MISMATCH", 5); ("FLASH_FAILED", 6); ("ERASE_FAILED", 7);
    ("REQUIREMENTS_NOT_MET", 8) ].

(** The coarse taxonomy of the specification, against a table. *)
Definition taxonomy : list string :=
  [ "UNKNOWN"; "UNRECOGNIZED_DEVICE"; "LOST_CONNECTION"; "DOWNLOAD_FAILED";
    "CHECKSUM_MISMATCH"; "UNPACK_FAILED"; "FLASH_FAILED"; "ERASE_FAILED";
    "REQUIREMENTS_NOT_MET"; "NONE" ].

Definition in_taxonomy (t : ErrorTable) (v : JsVal) : bool :=
  match v with
  | JNum _ => existsb (fun k => JsVal_eqb (member t k) v) taxonomy
  | _ => false
  end.

(** ** Device recognition *)

Definition expectedPartitions : list string :=
  [ "ALIGN_TO_128K_1"; "ALIGN_TO_128K_2"; "ImageFv"; "abl"; "aop"; "apdp";
    "bluetooth"; "boot"; "cache"; "cdt"; "cmnlib"; "cmnlib64"; "ddr";
    "devcfg"; "devinfo"; "dip"; "dsp"; "fdemeta"; "frp"; "fsc"; "fsg";
    "hyp"; "keymaster"; "keystore"; "limits"; "logdump"; "logfs"; "mdtp";
    "mdtpsecapp"; "misc"; "modem"; "modemst1"; "modemst2"; "msadp";
    "persist"; "qupfw"; "rawdump"; "sec"; "splash"; "spunvm"; "ssd"; "sti";
    "storsec"; "system"; "systemrw"; "toolsfv"; "tz"; "userdata";
    "vm-linux"; "vm-system"; "xbl"; "xbl_config" ].

(** [Array.prototype.includes] on an array of strings. *)
Definition includes (l : list string) (s : string) : bool :=
  existsb (String.eqb s) l.

(** [Array.prototype.every]. *)
Definition every {A : Type} (f : A -> bool) (l : list A) : bool := forallb f l.

Definition isRecognizedDevice (slotCount : Z) (partitions : list string) : bool :=
  if negb (Z.eqb slotCount 2) then false
  else if negb (every (fun partition => includes expectedPartitions partition) partitions)
       then false
       else true.

(** ** The store: published fields and closure variables *)

(** The two shapes of zero-argument function the store ever publishes:
    [() => window.location.reload()] and [() => f] for such an [f]. *)
Inductive Callback : Type :=
| reload
| returning (f : Callback).

(** What one invocation [f()] does to the page. *)
Inductive PageEffect : Type := PageReloaded | PageUntouched.

Definition invoke (f : Callback) : PageEffect :=
  match f with
  | reload => PageReloaded
  | returning _ => PageUntouched
  end.

Record ManifestImage : Type := { name : string }.

Definition Blob : Type := list byte.

(** The eight writables of [createQdlStore] followed by its two [let]
    variables; [imageWorker] records whether the variable is non-null. *)
Record Store : Type := mkStore {
  step : Z;
  message : string;
  progress : Q;
  error : JsVal;
  connected : bool;
  serial : option string;
  onContinue : option Callback;
  onRetry : option Callback;
  manifest : list ManifestImage;
  imageWorker : bool
}.

Definition createQdlStore (E : ErrorTable) : Store :=
  {| step := Step.INITIALIZING; message := ""; progress := 0 # 1;
     error := member E "NONE"; connected := false; serial := None;
     onContinue := None; onRetry := None; manifest := []; imageWorker := false |}.

(** Everything observable, in the order it happens: a [set] on a writable,
    or a call on a collaborator. *)
Inductive Event : Type :=
| Set_step (v : Z)
| Set_message (s : string)
| Set_progress (q : Q)
| Set_error (v : JsVal)
| Set_connected (b : bool)
| Set_serial (s : string)
| Set_onContinue (f : option Callback)
| Set_onRetry (f : option Callback)
| Call_waitForConnect
| Call_getDevicePartitionsInfo
| Call_getActiveSlot
| Call_erase (partition : string)
| Call_flashBlob (partition : string) (payload : Blob)
| Call_setActiveSlot (slot : string)
| Call_reset
| Call_init
| Call_loadManifest
| Call_downloadImage (image : ManifestImage)
| Call_unpackImage (image : ManifestImage)
| Call_getImage (image : ManifestImage)
| Call_getFile.

(** ** Erase payload *)

(** [new TextEncoder().encode(s)]: UTF-8, one byte per ASCII character. *)
Definition TextEncoder_encode (s : string) : list byte := list_byte_of_string s.

(** [new Uint8Array(n).fill(0)]. *)
Definition Uint8Array_zeros (n : Z) : list byte := repeat x00 (Z.to_nat n).

(** Modelled from the spec: [concatUint8Array] of [@/QDL/utils] is not among
    the sources; the marker is "zero-padded to exactly 28 bytes", so the
    arrays are laid end to end. *)
Definition concatUint8Array (arrays : list (list byte)) : list byte := List.concat arrays.

(** [new Blob(parts)]: the bytes of the parts in order. *)
Definition new_Blob (parts : list (list byte)) : Blob := List.concat parts.

Definition erase_payload : Blob :=
  let wData := TextEncoder_encode "COMMA_RESET" in
  new_Blob [concatUint8Array [wData; Uint8Array_zeros (28 - Z.of_nat (List.length wData))]].

(** ** Collaborators and the effect monad *)

Section Session.

(** The state of everything outside the store (device, worker, network,
    browser), and the file handles the worker hands out. *)
Variables World FileHandle : Type.

(** A settled promise: fulfilled with a value or rejected with whatever
    was thrown, and the world after the call. *)
Definition Answer (A : Type) : Type := ((A + JsVal) * World)%type.

(** A call that was handed a progress callback also yields the values
    that reached [progress.set] while it ran. *)
Definition Reporting (A : Type) : Type := (list Q * Answer A)%type.

Record Env : Type := {
  usb_defined : World -> bool;
  Worker_defined : World -> bool;
  Storage_defined : World -> bool;
  (* download(config.manifests['release']), blob.text(), createManifest(text) *)
  loadManifest : World -> Answer (list ManifestImage);
  (* ImageWorker *)
  init : World -> Answer unit;
  downloadImage : ManifestImage -> World -> Reporting unit;
  unpackImage : ManifestImage -> World -> Reporting unit;
  getImage : ManifestImage -> World -> Answer FileHandle;
  getFile : FileHandle -> World -> Answer Blob;
  (* qdlDevice *)
  waitForConnect : World -> Answer unit;
  getDevicePartitionsInfo : World -> Answer (Z * list string);
  sahara_serial : World -> option string;
  getActiveSlot : World -> Answer string;
  erase : string -> World -> Answer unit;
  flashBlob : string -> Blob -> World -> Reporting unit;
  setActiveSlot : string -> World -> Answer unit;
  reset : World -> Answer unit
}.

Record Sys : Type := { store : Store; world : World }.

(** A computation settles (returns or throws), leaves a system state and
    the events it caused, oldest first.  State changes made before a
    throw persist. *)
Definition M (A : Type) : Type := Sys -> (A + JsVal) * Sys * list Event.

Definition ret {A} (a : A) : M A := fun s => (inl a, s, []).
Definition throw {A} (v : JsVal) : M A := fun s => (inr v, s, []).

Definition bind {A B} (m : M A) (k : A -> M B) : M B :=
  fun s =>
    match m s with
    | (inl a, s1, l1) =>
        match k a s1 with (r, s2, l2) => (r, s2, l1 ++ l2) end
    | (inr v, s1, l1) => (inr v, s1, l1)
    end.

(** [try { m } catch (err) { h err }]. *)
Definition try_catch {A} (m : M A) (h : JsVal -> M A) : M A :=
  fun s =>
    match m s with
    | (inl a, s1, l1) => (inl a, s1, l1)
    | (inr v, s1, l1) =>
        match h v s1 with (r, s2, l2) => (r, s2, l1 ++ l2) end
    end.

Definition result {A} (x : (A + JsVal) * Sys * list Event) : A + JsVal := fst (fst x).
Definition final {A} (x : (A + JsVal) * Sys * list Event) : Sys := snd (fst x).
Definition events {A} (x : (A + JsVal) * Sys * list Event) : list Event := snd x.

End Session.

Arguments ret {World A} a.
Arguments throw {World A} v.
Arguments bind {World A B} m k.
Arguments try_catch {World A} m h.
Arguments result {World A} x.
Arguments final {World A} x.
Arguments events {World A} x.
Arguments store {World} s.
Arguments world {World} s.
Arguments Build_Sys {World} store world.
Arguments usb_defined {World FileHandle} e.
Arguments Worker_defined {World FileHandle} e.
Arguments Storage_defined {World FileHandle} e.
Arguments loadManifest {World FileHandle} e.
Arguments init {World FileHandle} e.
Arguments downloadImage {World FileHandle} e.
Arguments unpackImage {World FileHandle} e.
Arguments getImage {World FileHandle} e.
Arguments getFile {World FileHandle} e.
Arguments waitForConnect {World FileHandle} e.
Arguments getDevicePartitionsInfo {World FileHandle} e.
Arguments sahara_serial {World FileHandle} e.
Arguments getActiveSlot {World FileHandle} e.
Arguments erase {World FileHandle} e.
Arguments flashBlob {World FileHandle} e.
Arguments setActiveSlot {World FileHandle} e.
Arguments reset {World FileHandle} e.

Declare Scope session_scope.
Delimit Scope session_scope with session.
Notation "x <- m ;; k" := (bind m (fun x => k))
  (at level 61, m at next level, right associativity) : session_scope.
Notation "m ;; k" := (bind m (fun _ => k))
  (at level 61, right associativity) : session_scope.

Local Open Scope session_scope.

(** ** The session *)

Section Program.

Context {World FileHandle : Type}.

(** The [Error] table in force and the collaborators. *)
Variable E : ErrorTable.
Variable env : Env World FileHandle.

Definition with_step (v : Z) (s : Store) : Store :=
  mkStore v (message s) (progress s) (error s) (connected s) (serial s)
          (onContinue s) (onRetry s) (manifest s) (imageWorker s).
Definition with_message (v : string) (s : Store) : Store :=
  mkStore (step s) v (progress s) (error s) (connected s) (serial s)
          (onContinue s) (onRetry s) (manifest s) (imageWorker s).
Definition with_progress (v : Q) (s : Store) : Store :=
  mkStore (step s) (message s) v (error s) (connected s) (serial s)
          (onContinue s) (onRetry s) (manifest s) (imageWorker s).
Definition with_error (v : JsVal) (s : Store) : Store :=
  mkStore (step s) (message s) (progress s) v (connected s) (serial s)
          (onContinue s) (onRetry s) (manifest s) (imageWorker s).
Definition with_connected (v : bool) (s : Store) : Store :=
  mkStore (step s) (message s) (progress s) (error s) v (serial s)
          (onContinue s) (onRetry s) (manifest s) (imageWorker s).
Definition with_serial (v : option string) (s : Store) : Store :=
  mkStore (step s) (message s) (progress s) (error s) (connected s) v
          (onContinue s) (onRetry s) (manifest s) (imageWorker s).
Definition with_onContinue (v : option Callback) (s : Store) : Store :=
  mkStore (step s) (message s) (progress s) (error s) (connected s) (serial s)
          v (onRetry s) (manifest s) (imageWorker s).
Definition with_onRetry (v : option Callback) (s : Store) : Store :=
  mkStore (step s) (message s) (progress s) (error s) (connected s) (serial s)
          (onContinue s) v (manifest s) (imageWorker s).
Definition with_manifest (v : list ManifestImage) (s : Store) : Store :=
  mkStore (step s) (message s) (progress s) (error s) (connected s) (serial s)
          (onContinue s) (onRetry s) v (imageWorker s).
Definition with_imageWorker (v : bool) (s : Store) : Store :=
  mkStore (step s) (message s) (progress s) (error s) (connected s) (serial s)
          (onContinue s) (onRetry s) (manifest s) v.

(** [w.set(v)] on a writable: the field changes and the set is observed. *)
Definition update (e : Event) (f : Store -> Store) : M World unit :=
  fun s => (inl tt, Build_Sys (f (store s)) (world s), [e]).

(** Assignment to a closure variable: nothing is published. *)
Definition assign (f : Store -> Store) : M World unit :=
  fun s => (inl tt, Build_Sys (f (store s)) (world s), []).

Definition read {A} (f : Store -> A) : M World A :=
  fun s => (inl (f (store s)), s, []).

Definition peek {A} (f : World -> A) : M World A :=
  fun s => (inl (f (world s)), s, []).

(** [await call(...)]. *)
Definition await {A} (e : Event) (call : World -> Answer World A) : M World A :=
  fun s =>
    match call (world s) with
    | (r, w) => (r, Build_Sys (store s) w, [e])
    end.

(** [await call(..., onProgress)]: the reported values reach
    [progress.set] while the call runs. *)
Definition await_reporting (e : Event) (call : World -> Reporting World unit)
  : M World unit :=
  fun s =>
    match call (world s) with
    | (reports, (r, w)) =>
        (r,
         Build_Sys (fold_left (fun st q => with_progress q st) reports (store s)) w,
         e :: map Set_progress reports)
    end.

Definition step_set (v : Z) : M World unit := update (Set_step v) (with_step v).
Definition message_set (v : string) : M World unit := update (Set_message v) (with_message v).
Definition progress_set (v : Q) : M World unit := update (Set_progress v) (with_progress v).
Definition error_set (v : JsVal) : M World unit := update (Set_error v) (with_error v).
Definition connected_set (v : bool) : M World unit := update (Set_connected v) (with_connected v).
Definition serial_set (v : string) : M World unit := update (Set_serial v) (with_serial (Some v)).
Definition onContinue_set (v : option Callback) : M World unit :=
  update (Set_onContinue v) (with_onContinue v).
Definition onRetry_set (v : option Callback) : M World unit :=
  update (Set_onRetry v) (with_onRetry v).

(** Modelled from the spec: [withProgress] of [@/utils/progress] is not
    among the sources.  "Iterate the manifest in order; for each image ...
    invoke the corresponding operation with a per-item progress callback":
    the loop visits the items in order and stops at the first throw; what
    the callback makes of the reports is part of the collaborator's
    answer (see [await_reporting]). *)
Fixpoint for_await_of {A} (items : list A) (body : A -> M World unit) : M World unit :=
  match items with
  | [] => ret tt
  | x :: rest => body x ;; for_await_of rest body
  end.

Definition setMessage (msg : string) : M World unit := message_set msg.

(** [if (!imageWorker) throw new Error('ImageWorker not initialized')]:
    with no image worker the guard throws, and what it throws is
    [not_initialized]. *)
Definition require_imageWorker : M World unit :=
  w <- read imageWorker ;;
  if negb w then throw not_initialized else ret tt.

Definition initialize : M World unit :=
  assign (with_imageWorker true) ;;
  usb <- peek (usb_defined env) ;;
  wrk <- peek (Worker_defined env) ;;
  sto <- peek (Storage_defined env) ;;
  if negb usb || negb wrk || negb sto then
    error_set (member E "REQUIREMENTS_NOT_MET")
  else
    try_catch
      (await Call_init (init env) ;;
       m <- await Call_loadManifest (loadManifest env) ;;
       assign (with_manifest m) ;;
       (if Nat.eqb (List.length m) 0 then throw (JStr "Manifest is empty") else ret tt) ;;
       step_set Step.READY)
      (fun err => error_set (member E "UNKNOWN")).

Definition downloadImages : M World unit :=
  require_imageWorker ;;
  progress_set (0 # 1) ;;
  try_catch
    (m <- read manifest ;;
     for_await_of m (fun image =>
       setMessage ("Downloading " ++ name image)%string ;;
       await_reporting (Call_downloadImage image) (downloadImage env image)) ;;
     step_set Step.UNPACKING)
    (fun err => throw (member E "DOWNLOAD_FAILED")).

(** The handler of [unpackImages]: [err.startsWith(...)] exists on strings
    only; on anything else the call itself throws a [TypeError]. *)
Definition unpack_rethrow (err : JsVal) : M World unit :=
  match err with
  | JStr s =>
      throw (if String.prefix "Checksum mismatch" s
             then member E "CHECKSUM_MISMATCH"
             else member E "UNPACK_FAILED")
  | JUndefined | JNull =>
      throw (TypeError "Cannot read properties of undefined (reading 'startsWith')")
  | _ => throw (TypeError "err.startsWith is not a function")
  end.

Definition unpackImages : M World unit :=
  require_imageWorker ;;
  progress_set (0 # 1) ;;
  try_catch
    (m <- read manifest ;;
     for_await_of m (fun image =>
       setMessage ("Unpacking " ++ name image)%string ;;
       await_reporting (Call_unpackImage image) (unpackImage env image)) ;;
     step_set Step.FLASHING)
    unpack_rethrow.

Definition flashDevice : M World unit :=
  require_imageWorker ;;
  progress_set (0 # 1) ;;
  try_catch
    (currentSlot <- await Call_getActiveSlot (getActiveSlot env) ;;
     (if negb (includes ["a"; "b"] currentSlot)
      then throw (JStr ("Unknown current slot " ++ currentSlot)%string)
      else ret tt) ;;
     let otherSlot := if String.eqb currentSlot "a" then "b" else "a" in
     await (Call_erase ("xbl_" ++ currentSlot)%string)
           (erase env ("xbl_" ++ currentSlot)%string) ;;
     m <- read manifest ;;
     for_await_of m (fun image =>
       fileHandle <- await (Call_getImage image) (getImage env image) ;;
       blob <- await Call_getFile (getFile env fileHandle) ;;
       setMessage ("Flashing " ++ name image)%string ;;
       let partitionName := (name image ++ "_" ++ otherSlot)%string in
       await_reporting (Call_flashBlob partitionName blob)
                       (flashBlob env partitionName blob)) ;;
     setMessage ("Changing slot to " ++ otherSlot)%string ;;
     await (Call_setActiveSlot otherSlot) (setActiveSlot env otherSlot))
    (fun err => throw (member E "FLASH_FAILED")).

Definition eraseDevice : M World unit :=
  progress_set (0 # 1) ;;
  try_catch
    (setMessage "Erasing userdata" ;;
     (* no progress callback is passed here *)
     await (Call_flashBlob "userdata" erase_payload)
           (fun w => snd (flashBlob env "userdata" erase_payload w)) ;;
     progress_set (9 # 10) ;;
     setMessage "Rebooting" ;;
     await Call_reset (reset env) ;;
     progress_set (1 # 1) ;;
     connected_set false)
    (fun err => throw (member E "ERASE_FAILED")).

(** Reading [err.code] of [undefined] or [null] throws. *)
Definition handleError (err : JsVal) : M World unit :=
  match err with
  | JUndefined | JNull =>
      throw (TypeError "Cannot read properties of undefined (reading 'code')")
  | _ =>
      let errorCode := or_else (get_code err) err in
      error_set errorCode ;;
      progress_set (-1 # 1) ;;
      onContinue_set None ;;
      onRetry_set (Some (returning reload))
  end.

Definition startFlashing : M World unit :=
  step_set Step.CONNECTING ;;
  try_catch
    (await Call_waitForConnect (waitForConnect env) ;;
     info <- await Call_getDevicePartitionsInfo (getDevicePartitionsInfo env) ;;
     let slotCount := fst info in
     let partitions := snd info in
     let recognized := isRecognizedDevice slotCount partitions in
     if negb recognized then
       error_set (member E "UNRECOGNIZED_DEVICE")
     else
       s <- peek (sahara_serial env) ;;
       serial_set (match s with
                   | Some x => if String.eqb x "" then "unknown" else x
                   | None => "unknown"
                   end) ;;
       connected_set true ;;
       step_set Step.DOWNLOADING ;;
       downloadImages ;;
       unpackImages ;;
       flashDevice ;;
       eraseDevice ;;
       step_set Step.DONE)
    handleError.

End Program.


(** ** Vocabulary of the statements *)

(** [obeys I R Ev m]: from a store satisfying [I], [m] ends in a store
    satisfying [I] whether it returns or throws, throws only values in
    [R], and causes only events in [Ev]. *)
Definition obeys {World A} (I : Store -> Prop) (R : JsVal -> Prop) (Ev : Event -> Prop)
           (m : M World A) : Prop :=
  forall s, I (store s) ->
    I (store (final (m s))) /\
    (forall v, result (m s) = inr v -> R v) /\
    Forall Ev (events (m s)).

(** The events a phase can cause: progress, message, connected, the two
    step changes [UNPACKING] and [FLASHING], and collaborator calls other
    than connecting. *)
Definition phase_event (e : Event) : bool :=
  match e with
  | Set_step v => Z.eqb v Step.UNPACKING || Z.eqb v Step.FLASHING
  | Set_message _ | Set_progress _ | Set_connected _ => true
  | Call_getActiveSlot | Call_erase _ | Call_flashBlob _ _
  | Call_setActiveSlot _ | Call_reset
  | Call_downloadImage _ | Call_unpackImage _ | Call_getImage _ | Call_getFile => true
  | _ => false
  end.

(** Store predicates no phase can break. *)
Definition phase_safe (I : Store -> Prop) : Prop :=
  (forall q st, I st -> I (with_progress q st)) /\
  (forall m st, I st -> I (with_message m st)) /\
  (forall b st, I st -> I (with_connected b st)) /\
  (forall st, I st -> I (with_step Step.UNPACKING st)) /\
  (forall st, I st -> I (with_step Step.FLASHING st)).

(** Everything [unpackImages] can throw. *)
Definition unpack_raises (E : ErrorTable) (v : JsVal) : Prop :=
  v = member E "CHECKSUM_MISMATCH" \/ v = member E "UNPACK_FAILED" \/
  v = not_initialized \/ (exists msg, v = TypeError msg).

(** Everything the [try] block of [startFlashing] can throw: what the
    phases throw, and whatever the two driver calls made outside the
    phases reject with. *)
Definition session_raises {World FileHandle} (E : ErrorTable) (env : Env World FileHandle)
           (v : JsVal) : Prop :=
  v = member E "DOWNLOAD_FAILED" \/ unpack_raises E v \/
  v = member E "FLASH_FAILED" \/ v = member E "ERASE_FAILED" \/
  v = not_initialized \/
  (exists w, fst (waitForConnect env w) = inr v) \/
  (exists w, fst (getDevicePartitionsInfo env w) = inr v).

(** The error values the session can publish: the code of an
    unrecognised device, or [err.code || err] for a thrown [err]. *)
Definition publishable {World FileHandle} (E : ErrorTable) (env : Env World FileHandle)
           (v : JsVal) : Prop :=
  v = member E "UNRECOGNIZED_DEVICE" \/
  exists err, session_raises E env err /\ v = or_else (get_code err) err.

(** The events [startFlashing] can cause besides publishing an error. *)
Definition session_event (e : Event) : bool :=
  phase_event e ||
  match e with
  | Set_step v =>
      Z.eqb v Step.CONNECTING || Z.eqb v Step.DOWNLOADING || Z.eqb v Step.DONE
  | Set_serial _ | Set_onContinue _ | Set_onRetry _
  | Call_waitForConnect | Call_getDevicePartitionsInfo => true
  | _ => false
  end.

(** Store predicates that only a write to the error field can break. *)
Definition session_safe (I : Store -> Prop) : Prop :=
  phase_safe I /\
  (forall v st, I st -> I (with_step v st)) /\
  (forall v st, I st -> I (with_serial v st)) /\
  (forall v st, I st -> I (with_onContinue v st)) /\
  (forall v st, I st -> I (with_onRetry v st)).

(** While the step is not [DONE] and the error field holds [e0]. *)
Definition pending (e0 : JsVal) (st : Store) : Prop :=
  error st = e0 /\ step st <> Step.DONE.

(** The keys of the error table that the store reads, [NONE] apart. *)
Definition codes_read : list string :=
  [ "REQUIREMENTS_NOT_MET"; "UNKNOWN"; "UNRECOGNIZED_DEVICE"; "DOWNLOAD_FAILED";
    "CHECKSUM_MISMATCH"; "UNPACK_FAILED"; "FLASH_FAILED"; "ERASE_FAILED" ].

(** The error field holds something other than the number 0. *)
Definition error_is_set (st : Store) : Prop := error st <> JNum 0.

(** Any event but the writing of the number 0 to the error field. *)
Definition no_reset (e : Event) : Prop := e <> Set_error (JNum 0).

(** The device operations among the events, payloads dropped. *)
Inductive DeviceOp : Type :=
| Erased (partition : string)
| Written (partition : string)
| Switched (slot : string).

Fixpoint device_ops (l : list Event) : list DeviceOp :=
  match l with
  | [] => []
  | Call_erase p :: l' => Erased p :: device_ops l'
  | Call_flashBlob p _ :: l' => Written p :: device_ops l'
  | Call_setActiveSlot x :: l' => Switched x :: device_ops l'
  | _ :: l' => device_ops l'
  end.

(** The device operations of a complete flash phase from slot [current]
    to slot [other]. *)
Definition flash_plan (current other : string) (m : list ManifestImage) : list DeviceOp :=
  Erased ("xbl_" ++ current)%string
  :: map (fun image => Written (name image ++ "_" ++ other)%string) m
  ++ [Switched other].

(** The values of the [set] calls on the step and error writables. *)
Fixpoint steps_published (l : list Event) : list Z :=
  match l with
  | [] => []
  | Set_step v :: l' => v :: steps_published l'
  | _ :: l' => steps_published l'
  end.

Fixpoint errors_published (l : list Event) : list JsVal :=
  match l with
  | [] => []
  | Set_error v :: l' => v :: errors_published l'
  | _ :: l' => errors_published l'
  end.

(** The step in force at each watched event, given the step in force
    before the first event. *)
Fixpoint steps_during (watch : Event -> bool) (current : Z) (l : list Event) : list Z :=
  match l with
  | [] => []
  | Set_step v :: l' => steps_during watch v l'
  | e :: l' =>
      if watch e then current :: steps_during watch current l'
      else steps_during watch current l'
  end.

(** The user-data wipe and the device reset. *)
Definition wipe_or_reset (e : Event) : bool :=
  match e with
  | Call_flashBlob p _ => String.eqb p "userdata"
  | Call_reset => true
  | _ => false
  end.

Definition never_erasing (e : Event) : Prop := e <> Set_step Step.ERASING.

(** The images handed to the worker for download or for unpacking. *)
Fixpoint downloads_requested (l : list Event) : list string :=
  match l with
  | [] => []
  | Call_downloadImage i :: l' => name i :: downloads_requested l'
  | _ :: l' => downloads_requested l'
  end.

Fixpoint unpacks_requested (l : list Event) : list string :=
  match l with
  | [] => []
  | Call_unpackImage i :: l' => name i :: unpacks_requested l'
  | _ :: l' => unpacks_requested l'
  end.

(** The two operations the store exports.  A rejected promise leaves the
    store as it is; the process goes on. *)
Inductive Op : Type := op_initialize | op_startFlashing.

Definition run_op {World FileHandle} (E : ErrorTable) (env : Env World FileHandle)
           (o : Op) (s : Sys World) : Sys World :=
  match o with
  | op_initialize => final (initialize E env s)
  | op_startFlashing => final (startFlashing E env s)
  end.

Definition run_ops {World FileHandle} (E : ErrorTable) (env : Env World FileHandle)
           (ops : list Op) (s : Sys World) : Sys World :=
  fold_left (fun s o => run_op E env o s) ops s.

(** ** Scripted collaborators for concrete runs *)

Module Scenario.

(** The world counts the connection attempts made so far. *)
Record Script : Type := {
  storage : bool;
  images : list ManifestImage;
  connect : nat -> unit + JsVal;
  device : nat -> Z * list string;
  slot : string;
  download : ManifestImage -> unit + JsVal;
  unpack : ManifestImage -> unit + JsVal
}.

Definition scripted (sc : Script) : Env nat unit :=
  {| usb_defined := fun _ => true;
     Worker_defined := fun _ => true;
     Storage_defined := fun _ => storage sc;
     loadManifest := fun w => (inl (images sc), w);
     init := fun w => (inl tt, w);
     downloadImage := fun i w => ([1 # 2; 1 # 1]%Q, (download sc i, w));
     unpackImage := fun i w => ([], (unpack sc i, w));
     getImage := fun _ w => (inl tt, w);
     getFile := fun _ w => (inl [x01; x02], w);
     waitForConnect := fun w => (connect sc w, S w);
     getDevicePartitionsInfo := fun w => (inl (device sc w), w);
     sahara_serial := fun _ => Some "1a2b3c4d";
     getActiveSlot := fun w => (inl (slot sc), w);
     erase := fun _ w => (inl tt, w);
     flashBlob := fun _ _ w => ([], (inl tt, w));
     setActiveSlot := fun _ w => (inl tt, w);
     reset := fun w => (inl tt, w) |}.

Definition image (n : string) : ManifestImage := {| name := n |}.

Definition two_slots : Z * list string := (2, ["boot"; "system"; "userdata"; "xbl"]).

(** Everything works: one image, slot [a] active. *)
Definition happy : Script :=
  {| storage := true; images := [image "boot"];
     connect := fun _ => inl tt; device := fun _ => two_slots; slot := "a";
     download := fun _ => inl tt; unpack := fun _ => inl tt |}.

(** As [happy], slot [b] active. *)
Definition happy_b : Script :=
  {| storage := true; images := [image "boot"; image "system"];
     connect := fun _ => inl tt; device := fun _ => two_slots; slot := "b";
     download := fun _ => inl tt; unpack := fun _ => inl tt |}.

(** Unpacking the first image fails with a message that is not a
    checksum failure. *)
Definition unpack_fails : Script :=
  {| storage := true; images := [image "boot"; image "system"];
     connect := fun _ => inl tt; device := fun _ => two_slots; slot := "a";
     download := fun _ => inl tt;
     unpack := fun _ => inr (JStr "Decompression failed") |}.

(** Download of image 2 of 5 fails. *)
Definition download_fails : Script :=
  {| storage := true;
     images := [image "xbl"; image "abl"; image "boot"; image "system"; image "aop"];
     connect := fun _ => inl tt; device := fun _ => two_slots; slot := "a";
     download := fun i => if String.eqb (name i) "abl"
                          then inr (JStr "Failed to fetch") else inl tt;
     unpack := fun _ => inl tt |}.

(** Waiting for the connection rejects with [raw]. *)
Definition connect_rejects (raw : JsVal) : Script :=
  {| storage := true; images := [image "boot"];
     connect := fun _ => inr raw; device := fun _ => two_slots; slot := "a";
     download := fun _ => inl tt; unpack := fun _ => inl tt |}.

(** The first device attached has one slot, the next one two. *)
Definition second_device_fits : Script :=
  {| storage := true; images := [image "boot"];
     connect := fun _ => inl tt;
     device := fun attempts => match attempts with
                               | 1%nat => (1, ["boot"])
                               | _ => two_slots
                               end;
     slot := "a";
     download := fun _ => inl tt; unpack := fun _ => inl tt |}.

(** The browser has no [Storage]. *)
Definition no_storage : Script :=
  {| storage := false; images := [image "boot"];
     connect := fun _ => inl tt; device := fun _ => two_slots; slot := "a";
     download := fun _ => inl tt; unpack := fun _ => inl tt |}.

(** The browser has no [Storage], and waiting for the connection
    rejects with the number 0. *)
Definition zero_rejection : Script :=
  {| storage := false; images := [image "boot"];
     connect := fun _ => inr (JNum 0); device := fun _ => two_slots; slot := "a";
     download := fun _ => inl tt; unpack := fun _ => inl tt |}.

(** The reported slot is neither [a] nor [b]. *)
Definition odd_slot : Script :=
  {| storage := true; images := [image "boot"];
     connect := fun _ => inl tt; device := fun _ => two_slots; slot := "c";
     download := fun _ => inl tt; unpack := fun _ => inl tt |}.

(** A fresh process. *)
Definition fresh (E : ErrorTable) : Sys nat := Build_Sys (createQdlStore E) 0%nat.

(** The process after [initialize] has settled. *)
Definition initialized (E : ErrorTable) (sc : Script) : Sys nat :=
  final (initialize E (scripted sc) (fresh E)).

End Scenario.

(** ** Vocabulary of the further properties *)

(** What each phase may cause, event by event. *)
Definition download_event (e : Event) : bool :=
  match e with
  | Set_progress _ | Set_message _ | Call_downloadImage _ => true
  | Set_step v => Z.eqb v Step.UNPACKING
  | _ => false
  end.

Definition unpack_event (e : Event) : bool :=
  match e with
  | Set_progress _ | Set_message _ | Call_unpackImage _ => true
  | Set_step v => Z.eqb v Step.FLASHING
  | _ => false
  end.

Definition flash_event (e : Event) : bool :=
  match e with
  | Set_progress _ | Set_message _ | Call_getActiveSlot
  | Call_getImage _ | Call_getFile | Call_flashBlob _ _ | Call_setActiveSlot _ => true
  | Call_erase p => String.prefix "xbl_" p
  | _ => false
  end.

Definition erase_event (e : Event) : bool :=
  match e with
  | Set_progress _ | Set_message _ | Call_reset => true
  | Call_flashBlob p _ => String.eqb p "userdata"
  | Set_connected b => negb b
  | _ => false
  end.

(** The statements of [startFlashing] that follow [step.set(Step.DOWNLOADING)]. *)
Definition session_phases {World FileHandle} (E : ErrorTable) (env : Env World FileHandle)
  : M World unit :=
  downloadImages E env ;;
  unpackImages E env ;;
  flashDevice E env ;;
  eraseDevice E env ;;
  step_set Step.DONE.

(** [qdl.sahara.serial || 'unknown']. *)
Definition serial_or_unknown (reported : option string) : string :=
  match reported with
  | Some x => if String.eqb x "" then "unknown" else x
  | None => "unknown"
  end.

(** The state in which the phases start, and the events up to there. *)
Definition recognised_state {World} (s : Sys World) (reported : option string) (w : World)
  : Sys World :=
  Build_Sys
    (with_step Step.DOWNLOADING
       (with_connected true
          (with_serial (Some (serial_or_unknown reported))
             (with_step Step.CONNECTING (store s))))) w.

Definition recognised_events (reported : option string) : list Event :=
  [ Set_step Step.CONNECTING; Call_waitForConnect; Call_getDevicePartitionsInfo;
    Set_serial (serial_or_unknown reported); Set_connected true;
    Set_step Step.DOWNLOADING ].

(** The values of the [set] calls on the connected writable. *)
Fixpoint connected_published (l : list Event) : list bool :=
  match l with
  | [] => []
  | Set_connected b :: l' => b :: connected_published l'
  | _ :: l' => connected_published l'
  end.

(** Three fields that progress, message and step updates leave alone. *)
Definition kept (c : bool) (m : list ManifestImage) (b : bool) (st : Store) : Prop :=
  connected st = c /\ manifest st = m /\ imageWorker st = b.

(** [l1] is an initial segment of [l2]. *)
Definition initial_segment {A} (l1 l2 : list A) : Prop := exists rest, l2 = l1 ++ rest.

(** The run returned having published [v], and nothing else, to the error
    field, which holds [v] at the end. *)
Definition published_as {World} (v : JsVal)
           (run : (unit + JsVal) * Sys World * list Event) : Prop :=
  result run = inl tt /\
  errors_published (events run) = [v] /\
  error (store (final run)) = v.

(** What a run makes of the failure [err] raised inside it: unless [err]
    is [undefined] or [null], [err.code || err] is published; for a number,
    that is the number itself. *)
Definition surfaces {World} (err : JsVal)
           (run : (unit + JsVal) * Sys World * list Event) : Prop :=
  (err <> JUndefined -> err <> JNull ->
   published_as (or_else (get_code err) err) run) /\
  (forall c, err = JNum c -> published_as (JNum c) run).

(** The collaborator calls among the events, arguments and payloads
    kept: everything that is not a [set] on a writable. *)
Definition is_call (e : Event) : bool :=
  match e with
  | Set_step _ | Set_message _ | Set_progress _ | Set_error _ | Set_connected _
  | Set_serial _ | Set_onContinue _ | Set_onRetry _ => false
  | _ => true
  end.

Definition calls (l : list Event) : list Event := filter is_call l.

(** One pass of the loop of [flashDevice] towards slot [other]: the body
    of its [for await]. *)
Definition flash_image {World FileHandle} (env : Env World FileHandle) (other : string)
           (image : ManifestImage) : M World unit :=
  fileHandle <- await (Call_getImage image) (getImage env image) ;;
  blob <- await Call_getFile (getFile env fileHandle) ;;
  setMessage ("Flashing " ++ name image)%string ;;
  await_reporting (Call_flashBlob (name image ++ "_" ++ other)%string blob)
                  (flashBlob env (name image ++ "_" ++ other)%string blob).

(** The calls of a complete flash phase from slot [current] to slot
    [other] when the file of [image] holds [content image]: the slot
    query, the bootloader erase, then for every image its handle, its file
    and the write of that file to [<name>_<other>], then the switch. *)
Definition flash_image_calls (other : string) (content : ManifestImage -> Blob)
           (image : ManifestImage) : list Event :=
  [ Call_getImage image; Call_getFile;
    Call_flashBlob (name image ++ "_" ++ other)%string (content image) ].

Definition flash_calls (current other : string) (content : ManifestImage -> Blob)
           (m : list ManifestImage) : list Event :=
  Call_getActiveSlot :: Call_erase ("xbl_" ++ current)%string
  :: flat_map (flash_image_calls other content) m ++ [Call_setActiveSlot other].

(** Every write among the events carries the file of a manifest image to
    the partition of that image in slot [other]: the payload is what
    [getFile] answered for the handle that [getImage] answered for the
    image. *)
Definition writes_image_files {World FileHandle} (env : Env World FileHandle)
           (other : string) (m : list ManifestImage) (l : list Event) : Prop :=
  forall partition payload,
    In (Call_flashBlob partition payload) l ->
    exists image handle w1 w2 w3,
      In image m /\
      partition = (name image ++ "_" ++ other)%string /\
      getImage env image w1 = (inl handle, w2) /\
      getFile env handle w2 = (inl payload, w3).

(** Collaborators that refuse nothing the flash phase asks after the slot
    query: the worker hands out [handle image] for an image and
    [file h] for a handle, the driver accepts every erase, write and
    switch. *)
Definition flash_collaborators_succeed {World FileHandle} (env : Env World FileHandle)
           (handle : ManifestImage -> FileHandle) (file : FileHandle -> Blob) : Prop :=
  (forall image w, exists w', getImage env image w = (inl (handle image), w')) /\
  (forall h w, exists w', getFile env h w = (inl (file h), w')) /\
  (forall p w, exists w', erase env p w = (inl tt, w')) /\
  (forall p b w, exists reports w', flashBlob env p b w = (reports, (inl tt, w'))) /\
  (forall x w, exists w', setActiveSlot env x w = (inl tt, w')).

(** More scripted collaborators: the device can be made to fail. *)
Module Faulty.

(** Which device calls reject (with the string "USB transfer error"). *)
Record Faults : Type := {
  erase_fails : bool;
  write_fails : string -> bool;
  switch_fails : bool;
  reset_fails : bool
}.

Definition usb_error : JsVal := JStr "USB transfer error".

Definition outcome (fails : bool) : unit + JsVal :=
  if fails then inr usb_error else inl tt.

Definition scripted (f : Faults) (sc : Scenario.Script) : Env nat unit :=
  {| usb_defined := fun _ => true;
     Worker_defined := fun _ => true;
     Storage_defined := fun _ => Scenario.storage sc;
     loadManifest := fun w => (inl (Scenario.images sc), w);
     init := fun w => (inl tt, w);
     downloadImage := fun i w => ([1 # 2; 1 # 1]%Q, (Scenario.download sc i, w));
     unpackImage := fun i w => ([], (Scenario.unpack sc i, w));
     getImage := fun _ w => (inl tt, w);
     getFile := fun _ w => (inl [x01; x02], w);
     waitForConnect := fun w => (Scenario.connect sc w, S w);
     getDevicePartitionsInfo := fun w => (inl (Scenario.device sc w), w);
     sahara_serial := fun _ => None;
     getActiveSlot := fun w => (inl (Scenario.slot sc), w);
     erase := fun _ w => (outcome (erase_fails f), w);
     flashBlob := fun p _ w => ([], (outcome (write_fails f p), w));
     setActiveSlot := fun _ w => (outcome (switch_fails f), w);
     reset := fun w => (outcome (reset_fails f), w) |}.

Definition wipe_fails : Faults :=
  {| erase_fails := false; write_fails := fun p => String.eqb p "userdata";
     switch_fails := false; reset_fails := false |}.

Definition reboot_fails : Faults :=
  {| erase_fails := false; write_fails := fun _ => false;
     switch_fails := false; reset_fails := true |}.

Definition system_write_fails : Faults :=
  {| erase_fails := false; write_fails := fun p => String.eqb p "system_a";
     switch_fails := false; reset_fails := false |}.

(** The manifest loads as the empty list. *)
Definition no_images : Scenario.Script :=
  {| Scenario.storage := true; Scenario.images := [];
     Scenario.connect := fun _ => inl tt;
     Scenario.device := fun _ => Scenario.two_slots; Scenario.slot := "a";
     Scenario.download := fun _ => inl tt; Scenario.unpack := fun _ => inl tt |}.

(** The manifest loads as the empty list while slot [b] is active. *)
Definition no_images_b : Scenario.Script :=
  {| Scenario.storage := true; Scenario.images := [];
     Scenario.connect := fun _ => inl tt;
     Scenario.device := fun _ => Scenario.two_slots; Scenario.slot := "b";
     Scenario.download := fun _ => inl tt; Scenario.unpack := fun _ => inl tt |}.

(** Unpacking [system] fails its checksum. *)
Definition checksum_fails : Scenario.Script :=
  {| Scenario.storage := true;
     Scenario.images := [Scenario.image "boot"; Scenario.image "system";
                         Scenario.image "aop"];
     Scenario.connect := fun _ => inl tt;
     Scenario.device := fun _ => Scenario.two_slots; Scenario.slot := "a";
     Scenario.download := fun _ => inl tt;
     Scenario.unpack := fun i =>
       if String.eqb (name i) "system"
       then inr (JStr "Checksum mismatch: got 12ab, expected 34cd") else inl tt |}.

(** A device with three slots. *)
Definition three_slots : Scenario.Script :=
  {| Scenario.storage := true; Scenario.images := [Scenario.image "boot"];
     Scenario.connect := fun _ => inl tt;
     Scenario.device := fun _ => (3, ["boot"; "system"]); Scenario.slot := "a";
     Scenario.download := fun _ => inl tt; Scenario.unpack := fun _ => inl tt |}.

End Faulty.

(** A worker that keeps every image in a file of its own: the handle of an
    image is its name, and the file holds the bytes of that name.  The
    rest is as in [Scenario.scripted]. *)
Module Filing.

Definition scripted (sc : Scenario.Script) : Env nat string :=
  {| usb_defined := fun _ => true;
     Worker_defined := fun _ => true;
     Storage_defined := fun _ => Scenario.storage sc;
     loadManifest := fun w => (inl (Scenario.images sc), w);
     init := fun w => (inl tt, w);
     downloadImage := fun i w => ([1 # 2; 1 # 1]%Q, (Scenario.download sc i, w));
     unpackImage := fun i w => ([], (Scenario.unpack sc i, w));
     getImage := fun i w => (inl (name i), w);
     getFile := fun h w => (inl (list_byte_of_string h), w);
     waitForConnect := fun w => (Scenario.connect sc w, S w);
     getDevicePartitionsInfo := fun w => (inl (Scenario.device sc w), w);
     sahara_serial := fun _ => Some "1a2b3c4d";
     getActiveSlot := fun w => (inl (Scenario.slot sc), w);
     erase := fun _ w => (inl tt, w);
     flashBlob := fun _ _ w => ([1 # 1]%Q, (inl tt, w));
     setActiveSlot := fun _ w => (inl tt, w);
     reset := fun w => (inl tt, w) |}.

Definition initialized (E : ErrorTable) (sc : Scenario.Script) : Sys nat :=
  final (initialize E (scripted sc) (Scenario.fresh E)).

End Filing.

(** * Proofs *)

(** ** Rules of the program logic *)

Section Logic.

Context {World : Type}.

Local Abbreviation obeys := (@obeys World _).

Variables (I : Store -> Prop) (R : JsVal -> Prop) (Ev : Event -> Prop).

Lemma obeys_ret {A} (a : A) : obeys I R Ev (ret a).
Proof. intros s Hs. cbn. repeat split; [assumption | discriminate | constructor]. Qed.

Lemma obeys_throw {A} (v : JsVal) : R v -> obeys I R Ev (@throw World A v).
Proof.
  intros Hv s Hs. cbn. repeat split; [assumption | | constructor].
  intros v' [= <-]. assumption.
Qed.

Lemma obeys_bind {A B} (m : M World A) (k : A -> M World B) :
  obeys I R Ev m -> (forall a, obeys I R Ev (k a)) -> obeys I R Ev (bind m k).
Proof.
  intros Hm Hk s Hs. destruct (Hm s Hs) as (Hi & Hr & He).
  unfold bind, result, final, events in *.
  destruct (m s) as [[[a | v] s1] l1]; cbn in *.
  - destruct (Hk a s1 Hi) as (Hi2 & Hr2 & He2).
    unfold result, final, events in *.
    destruct (k a s1) as [[r s2] l2]; cbn in *.
    repeat split; [assumption | assumption | apply Forall_app; now split].
  - repeat split; [assumption | | assumption].
    intros v' [= <-]. now apply Hr.
Qed.

Lemma obeys_try_catch {A} (R' : JsVal -> Prop) (m : M World A) (h : JsVal -> M World A) :
  obeys I R' Ev m -> (forall v, R' v -> obeys I R Ev (h v)) ->
  obeys I R Ev (try_catch m h).
Proof.
  intros Hm Hh s Hs. destruct (Hm s Hs) as (Hi & Hr & He).
  unfold try_catch, result, final, events in *.
  destruct (m s) as [[[a | v] s1] l1]; cbn in *.
  - repeat split; [assumption | discriminate | assumption].
  - destruct (Hh v (Hr v eq_refl) s1 Hi) as (Hi2 & Hr2 & He2).
    unfold result, final, events in *.
    destruct (h v s1) as [[r s2] l2]; cbn in *.
    repeat split; [assumption | assumption | apply Forall_app; now split].
Qed.

Lemma obeys_update (e : Event) (f : Store -> Store) :
  Ev e -> (forall st, I st -> I (f st)) -> obeys I R Ev (update e f).
Proof.
  intros He Hf s Hs. cbn. repeat split; [now apply Hf | discriminate | now constructor].
Qed.

Lemma obeys_assign (f : Store -> Store) :
  (forall st, I st -> I (f st)) -> obeys I R Ev (assign f).
Proof.
  intros Hf s Hs. cbn. repeat split; [now apply Hf | discriminate | constructor].
Qed.

Lemma obeys_read {A} (f : Store -> A) : obeys I R Ev (read f).
Proof. intros s Hs. cbn. repeat split; [assumption | discriminate | constructor]. Qed.

Lemma obeys_peek {A} (f : World -> A) : obeys I R Ev (peek f).
Proof. intros s Hs. cbn. repeat split; [assumption | discriminate | constructor]. Qed.

Lemma obeys_await {A} (e : Event) (call : World -> Answer World A) :
  Ev e -> (forall w v, fst (call w) = inr v -> R v) -> obeys I R Ev (await e call).
Proof.
  intros He Hc s Hs. unfold await, result, final, events.
  specialize (Hc (world s)). destruct (call (world s)) as [r w]; cbn in *.
  repeat split; [assumption | assumption | now constructor].
Qed.

Lemma fold_progress_inv (reports : list Q) :
  (forall q st, I st -> I (with_progress q st)) ->
  forall st, I st -> I (fold_left (fun st q => with_progress q st) reports st).
Proof.
  intros Hp. induction reports as [| q reports IH]; intros st Hst; cbn.
  - assumption.
  - apply IH. now apply Hp.
Qed.

Lemma obeys_await_reporting (e : Event) (call : World -> Reporting World unit) :
  Ev e -> (forall q, Ev (Set_progress q)) ->
  (forall q st, I st -> I (with_progress q st)) ->
  (forall w v, fst (snd (call w)) = inr v -> R v) ->
  obeys I R Ev (await_reporting e call).
Proof.
  intros He Hq Hp Hc s Hs. unfold await_reporting, result, final, events.
  specialize (Hc (world s)). destruct (call (world s)) as [reports [r w]]; cbn in *.
  repeat split.
  - now apply fold_progress_inv.
  - assumption.
  - constructor; [assumption |]. apply Forall_forall. intros x Hx.
    apply in_map_iff in Hx. destruct Hx as [q [<- _]]. apply Hq.
Qed.

Lemma obeys_for_await_of {A} (items : list A) (body : A -> M World unit) :
  (forall x, obeys I R Ev (body x)) -> obeys I R Ev (for_await_of items body).
Proof.
  intros Hb. induction items as [| x rest IH]; cbn [for_await_of].
  - apply obeys_ret.
  - apply obeys_bind; [apply Hb | intros _; exact IH].
Qed.

End Logic.

Lemma obeys_weaken {World A} (I : Store -> Prop) (R R' : JsVal -> Prop)
      (Ev Ev' : Event -> Prop) (m : M World A) :
  obeys I R Ev m -> (forall v, R v -> R' v) -> (forall e, Ev e -> Ev' e) ->
  obeys I R' Ev' m.
Proof.
  intros Hm HR HE s Hs. destruct (Hm s Hs) as (Hi & Hr & He).
  repeat split; [assumption | intros v Hv; apply HR; now apply Hr |].
  eapply Forall_impl; [exact HE | exact He].
Qed.

(** Structural steps of a proof in the logic; side conditions on the
    invariant and on the events are left to the caller. *)
Ltac obeys_step :=
  first
    [ apply obeys_ret
    | apply obeys_read
    | apply obeys_peek
    | apply obeys_bind; [| intro]
    | apply obeys_for_await_of; intro
    | apply obeys_update
    | apply obeys_assign
    | apply obeys_await
    | apply obeys_await_reporting
    | apply obeys_throw ].

(** ** What the four phases can do *)

Section Phases.

Context {World FileHandle : Type}.
Variable E : ErrorTable.
Variable env : Env World FileHandle.

Variables (I : Store -> Prop) (Ev : Event -> Prop).
Hypothesis I_safe : phase_safe I.
Hypothesis Ev_phase : forall e, phase_event e = true -> Ev e.

Ltac phase_side :=
  match goal with
  | |- Ev _ => apply Ev_phase; reflexivity
  | |- forall q, Ev _ => intro; apply Ev_phase; reflexivity
  | |- forall _ st, I st -> I (with_progress _ st) => apply I_safe
  | |- forall st, I st -> I _ => intros ? ?; now apply I_safe
  end.

Lemma require_imageWorker_obeys :
  obeys I (fun v => v = not_initialized) Ev (@require_imageWorker World).
Proof.
  unfold require_imageWorker. apply obeys_bind; [apply obeys_read | intros w].
  destruct w; cbn [negb]; [apply obeys_ret | now apply obeys_throw].
Qed.

Lemma downloadImages_obeys :
  obeys I (fun v => v = member E "DOWNLOAD_FAILED" \/ v = not_initialized) Ev
        (downloadImages E env).
Proof.
  unfold downloadImages, setMessage, message_set, progress_set, step_set.
  apply obeys_bind; [| intros _; apply obeys_bind; [| intros _]].
  - eapply obeys_weaken; [apply require_imageWorker_obeys | | ]; auto.
  - obeys_step; phase_side.
  - apply obeys_try_catch with (R' := fun _ => True).
    + repeat (obeys_step; try phase_side); auto.
    + intros v _. apply obeys_throw. now left.
Qed.

Lemma unpackImages_obeys : obeys I (unpack_raises E) Ev (unpackImages E env).
Proof.
  unfold unpackImages, setMessage, message_set, progress_set, step_set.
  apply obeys_bind; [| intros _; apply obeys_bind; [| intros _]].
  - eapply obeys_weaken; [apply require_imageWorker_obeys | | ]; auto.
    intros v ->. unfold unpack_raises. tauto.
  - obeys_step; phase_side.
  - apply obeys_try_catch with (R' := fun _ => True).
    + repeat (obeys_step; try phase_side); auto.
    + intros v _. unfold unpack_rethrow, unpack_raises.
      destruct v as [| | z | s | l c];
        try solve [apply obeys_throw; do 3 right; eexists; reflexivity].
      destruct (String.prefix _ s); apply obeys_throw; tauto.
Qed.

Lemma flashDevice_obeys :
  obeys I (fun v => v = member E "FLASH_FAILED" \/ v = not_initialized) Ev
        (flashDevice E env).
Proof.
  unfold flashDevice, setMessage, message_set, progress_set, step_set.
  apply obeys_bind; [| intros _; apply obeys_bind; [| intros _]].
  - eapply obeys_weaken; [apply require_imageWorker_obeys | | ]; auto.
  - obeys_step; phase_side.
  - apply obeys_try_catch with (R' := fun _ => True).
    + apply obeys_bind; [obeys_step; [phase_side | auto] | intros currentSlot].
      apply obeys_bind.
      { destruct (negb _); [now apply obeys_throw | apply obeys_ret]. }
      intros _. repeat (obeys_step; try phase_side); auto.
    + intros v _. apply obeys_throw. now left.
Qed.

Lemma eraseDevice_obeys :
  obeys I (fun v => v = member E "ERASE_FAILED") Ev (eraseDevice E env).
Proof.
  unfold eraseDevice, setMessage, message_set, progress_set, connected_set.
  apply obeys_bind; [obeys_step; phase_side | intros _].
  apply obeys_try_catch with (R' := fun _ => True).
  - repeat (obeys_step; try phase_side); auto.
  - intros v _. now apply obeys_throw.
Qed.

End Phases.

(** ** Device recognition *)

Lemma includes_In (l : list string) (s : string) : includes l s = true <-> In s l.
Proof.
  unfold includes. rewrite existsb_exists. split.
  - intros [x [Hin Heq]]. apply String.eqb_eq in Heq. now subst.
  - intros Hin. exists s. split; [assumption | apply String.eqb_refl].
Qed.

(** C3. The validator rejects every slot count other than two, and for a
    slot count of two it accepts exactly the partition lists all of whose
    entries are on the allow-list; the empty list is accepted. *)
Theorem isRecognizedDevice_spec :
  (forall slotCount partitions,
      slotCount <> 2 -> isRecognizedDevice slotCount partitions = false) /\
  (forall partitions,
      isRecognizedDevice 2 partitions = true <->
      Forall (fun p => In p expectedPartitions) partitions) /\
  (forall partitions p,
      In p partitions -> ~ In p expectedPartitions ->
      isRecognizedDevice 2 partitions = false) /\
  isRecognizedDevice 2 [] = true.
Proof.
  assert (Hiff : forall partitions,
             isRecognizedDevice 2 partitions = true <->
             Forall (fun p => In p expectedPartitions) partitions).
  { intros partitions. unfold isRecognizedDevice, every.
    change (negb (2 =? 2)) with false. cbv iota.
    destruct (forallb _ partitions) eqn:Hall; cbn [negb].
    - split; [intros _ | reflexivity].
      rewrite forallb_forall in Hall. apply Forall_forall.
      intros p Hp. apply (proj1 (includes_In _ _)). now apply Hall.
    - split; [discriminate | intros HF].
      rewrite Forall_forall in HF.
      assert (forallb (fun partition => includes expectedPartitions partition) partitions = true) as Habs.
      { apply forallb_forall. intros p Hp. apply (proj2 (includes_In _ _)). now apply HF. }
      congruence. }
  split; [| split; [exact Hiff | split]].
  - intros slotCount partitions Hne. unfold isRecognizedDevice.
    destruct (Z.eqb_spec slotCount 2) as [->|_]; [contradiction | reflexivity].
  - intros partitions p Hin Hout.
    destruct (isRecognizedDevice 2 partitions) eqn:E; [| reflexivity].
    apply Hiff in E. rewrite Forall_forall in E. elim Hout. now apply E.
  - reflexivity.
Qed.

Lemma isRecognizedDevice_spec_witness :
  3 <> 2 /\ isRecognizedDevice 3 ["boot"] = false /\
  In "bootloader" ["boot"; "bootloader"] /\
  isRecognizedDevice 2 ["boot"; "bootloader"] = false.
Proof.
  split; [discriminate |].
  split; [apply (proj1 isRecognizedDevice_spec 3 ["boot"]); discriminate |].
  split; [cbn; tauto |].
  apply (proj1 (proj2 (proj2 isRecognizedDevice_spec)) ["boot"; "bootloader"] "bootloader").
  - cbn. tauto.
  - cbn. intuition discriminate.
Defined.



(** ** What a whole session can do *)

Lemma phase_safe_True : phase_safe (fun _ => True).
Proof. repeat split. Qed.

Section SessionLogic.

Context {World FileHandle : Type}.
Variable E : ErrorTable.
Variable env : Env World FileHandle.

Variables (I : Store -> Prop) (Ev : Event -> Prop).
Hypothesis I_safe : session_safe I.
Hypothesis Ev_session : forall e, session_event e = true -> Ev e.
Hypothesis Ev_error : forall v, publishable E env v -> Ev (Set_error v).
Hypothesis I_error : forall v st, publishable E env v -> I st -> I (with_error v st).

Lemma Ev_phase_of_session : forall e, phase_event e = true -> Ev e.
Proof.
  intros e He. apply Ev_session. unfold session_event. now rewrite He.
Qed.

Ltac session_side :=
  match goal with
  | |- Ev _ => apply Ev_session; reflexivity
  | |- forall st, I st -> I _ => intros ? ?; now apply I_safe
  end.

Lemma handleError_obeys (err : JsVal) :
  session_raises E env err ->
  obeys I (fun _ => True) Ev (@handleError World err).
Proof.
  intros Herr.
  assert (Hpub : publishable E env (or_else (get_code err) err)).
  { right. now exists err. }
  unfold handleError, error_set, progress_set, onContinue_set, onRetry_set.
  destruct err; try (now apply obeys_throw);
    (apply obeys_bind;
     [apply obeys_update; [now apply Ev_error | intros ? ?; now apply I_error]
     | intros _]);
    repeat (obeys_step; try session_side).
Qed.

Lemma startFlashing_obeys : obeys I (fun _ => True) Ev (startFlashing E env).
Proof.
  pose proof Ev_phase_of_session as Hphase.
  destruct I_safe as (Hps & _).
  unfold startFlashing, step_set, error_set, serial_set, connected_set.
  apply obeys_bind; [obeys_step; session_side | intros _].
  apply obeys_try_catch with (R' := session_raises E env);
    [| intros v Hv; now apply handleError_obeys].
  apply obeys_bind; [| intros _].
  { obeys_step; [session_side |]. intros w v Hv.
    unfold session_raises. do 5 right. left. now exists w. }
  apply obeys_bind; [| intros info].
  { obeys_step; [session_side |]. intros w v Hv.
    unfold session_raises. do 6 right. now exists w. }
  cbv zeta. destruct (negb _).
  { obeys_step; [apply Ev_error; now left | intros ? ?; apply I_error; [now left | assumption]]. }
  apply obeys_bind; [apply obeys_peek | intros sr].
  do 3 (apply obeys_bind; [obeys_step; session_side | intros _]).
  apply obeys_bind; [| intros _].
  { eapply obeys_weaken; [apply downloadImages_obeys; [exact Hps | exact Hphase] | | auto].
    unfold session_raises. intros v [-> | ->]; tauto. }
  apply obeys_bind; [| intros _].
  { eapply obeys_weaken; [apply unpackImages_obeys; [exact Hps | exact Hphase] | | auto].
    unfold session_raises. tauto. }
  apply obeys_bind; [| intros _].
  { eapply obeys_weaken; [apply flashDevice_obeys; [exact Hps | exact Hphase] | | auto].
    unfold session_raises. intros v [-> | ->]; tauto. }
  apply obeys_bind; [| intros _].
  { eapply obeys_weaken; [apply eraseDevice_obeys; [exact Hps | exact Hphase] | | auto].
    unfold session_raises. intros v ->; tauto. }
  obeys_step; session_side.
Qed.

End SessionLogic.

Lemma session_safe_True : session_safe (fun _ => True).
Proof. repeat split. Qed.

Lemma startFlashing_never_erasing {World FileHandle} (E : ErrorTable)
      (env : Env World FileHandle) :
  obeys (fun _ => True) (fun _ => True) never_erasing (startFlashing E env).
Proof.
  apply startFlashing_obeys; try exact session_safe_True; try (intros; exact I).
  - intros e He ->. discriminate He.
  - intros v _. discriminate.
Qed.

Lemma startFlashing_published {World FileHandle} (E : ErrorTable)
      (env : Env World FileHandle) :
  obeys (fun _ => True) (fun _ => True)
        (fun e => forall v, e = Set_error v -> publishable E env v)
        (startFlashing E env).
Proof.
  apply startFlashing_obeys; try exact session_safe_True; try (intros; exact I).
  - intros e He v ->. discriminate He.
  - intros v Hv v' [= <-]. exact Hv.
Qed.

(** ** Shape of a run *)

Section Runs.

Context {World : Type}.

Lemma events_bind {A B} (m : M World A) (k : A -> M World B) (s : Sys World) :
  events (bind m k s) =
  events (m s) ++ match result (m s) with
                  | inl a => events (k a (final (m s)))
                  | inr _ => []
                  end.
Proof.
  unfold bind, events, result, final.
  destruct (m s) as [[[a | v] s1] l1]; cbn.
  - destruct (k a s1) as [[r s2] l2]. reflexivity.
  - now rewrite app_nil_r.
Qed.

Lemma events_try_catch {A} (m : M World A) (h : JsVal -> M World A) (s : Sys World) :
  events (try_catch m h s) =
  events (m s) ++ match result (m s) with
                  | inl _ => []
                  | inr v => events (h v (final (m s)))
                  end.
Proof.
  unfold try_catch, events, result, final.
  destruct (m s) as [[[a | v] s1] l1]; cbn.
  - now rewrite app_nil_r.
  - destruct (h v s1) as [[r s2] l2]. reflexivity.
Qed.

Lemma events_await {A} (e : Event) (call : World -> Answer World A) (s : Sys World) :
  events (await e call s) = [e].
Proof. unfold await, events. now destruct (call (world s)). Qed.

(** Inversion of a run, combinator by combinator. *)

Lemma bind_inv {A B} (m : M World A) (k : A -> M World B) (s s' : Sys World)
      (r : B + JsVal) (l : list Event) :
  bind m k s = (r, s', l) ->
  (exists a s1 l1 l2,
      m s = (inl a, s1, l1) /\ k a s1 = (r, s', l2) /\ l = l1 ++ l2) \/
  (exists v, m s = (inr v, s', l) /\ r = inr v).
Proof.
  unfold bind. destruct (m s) as [[[a | v] s1] l1].
  - destruct (k a s1) as [[r2 s2] l2] eqn:Hk. intros [= <- <- <-].
    left. now exists a, s1, l1, l2.
  - intros [= <- <- <-]. right. now exists v.
Qed.

Lemma try_catch_inv {A} (m : M World A) (h : JsVal -> M World A) (s s' : Sys World)
      (r : A + JsVal) (l : list Event) :
  try_catch m h s = (r, s', l) ->
  (exists a, m s = (inl a, s', l) /\ r = inl a) \/
  (exists v s1 l1 l2,
      m s = (inr v, s1, l1) /\ h v s1 = (r, s', l2) /\ l = l1 ++ l2).
Proof.
  unfold try_catch. destruct (m s) as [[[a | v] s1] l1].
  - intros [= <- <- <-]. left. now exists a.
  - destruct (h v s1) as [[r2 s2] l2] eqn:Hh. intros [= <- <- <-].
    right. now exists v, s1, l1, l2.
Qed.

Lemma await_inv {A} (e : Event) (call : World -> Answer World A) (s s' : Sys World)
      (r : A + JsVal) (l : list Event) :
  await e call s = (r, s', l) ->
  call (world s) = (r, world s') /\ store s' = store s /\ l = [e].
Proof.
  unfold await. destruct (call (world s)) as [r0 w0]. now intros [= <- <- <-].
Qed.

Lemma await_reporting_inv (e : Event) (call : World -> Reporting World unit)
      (s s' : Sys World) (r : unit + JsVal) (l : list Event) :
  await_reporting e call s = (r, s', l) ->
  exists reports,
    call (world s) = (reports, (r, world s')) /\
    store s' = fold_left (fun st q => with_progress q st) reports (store s) /\
    l = e :: map Set_progress reports.
Proof.
  unfold await_reporting. destruct (call (world s)) as [reports [r0 w0]].
  intros [= <- <- <-]. now exists reports.
Qed.

Lemma device_ops_app (l1 l2 : list Event) :
  device_ops (l1 ++ l2) = device_ops l1 ++ device_ops l2.
Proof.
  induction l1 as [| e l1 IH]; [reflexivity |].
  destruct e; cbn; now rewrite ?IH.
Qed.

Lemma device_ops_progress (reports : list Q) :
  device_ops (map Set_progress reports) = [].
Proof. induction reports; [reflexivity | assumption]. Qed.

End Runs.

(** ** Starting a session *)

(** C10. From any system state, with any collaborators and either error
    table, the first thing [startFlashing] does is publish step
    [CONNECTING], and the next is to wait for the device connection; no
    field of the store is consulted before. *)
Theorem startFlashing_first_effect :
  forall (World FileHandle : Type) (E : ErrorTable) (env : Env World FileHandle)
         (s : Sys World),
  exists rest,
    events (startFlashing E env s) =
    Set_step Step.CONNECTING :: Call_waitForConnect :: rest.
Proof.
  intros World FileHandle E env s. unfold startFlashing.
  rewrite events_bind. cbn [step_set update events result final fst snd].
  rewrite events_try_catch, events_bind, events_await.
  eexists. cbn [app]. reflexivity.
Qed.

(** ** The erase phase *)

Lemma erase_payload_bytes :
  erase_payload = list_byte_of_string "COMMA_RESET" ++ repeat x00 17 /\
  List.length (list_byte_of_string "COMMA_RESET") = 11%nat /\
  List.length erase_payload = 28%nat.
Proof. repeat split; reflexivity. Qed.

(** C2. The erase phase writes to the partition [userdata] (no slot
    suffix) the 28-byte payload made of the 11 ASCII bytes of
    [COMMA_RESET] and 17 zero bytes; when that write and the reset that
    follows succeed, the phase then publishes progress 0.9, resets the
    device, and publishes progress 1 and connected false, in that order. *)
Theorem eraseDevice_sequence :
  forall (World FileHandle : Type) (E : ErrorTable) (env : Env World FileHandle)
         (s : Sys World) (reports : list Q) (w1 w2 : World),
    flashBlob env "userdata" erase_payload (world s) = (reports, (inl tt, w1)) ->
    reset env w1 = (inl tt, w2) ->
    erase_payload = list_byte_of_string "COMMA_RESET" ++ repeat x00 17 /\
    List.length (list_byte_of_string "COMMA_RESET") = 11%nat /\
    List.length erase_payload = 28%nat /\
    result (eraseDevice E env s) = inl tt /\
    events (eraseDevice E env s) =
      [ Set_progress (0 # 1); Set_message "Erasing userdata";
        Call_flashBlob "userdata" erase_payload;
        Set_progress (9 # 10); Set_message "Rebooting"; Call_reset;
        Set_progress (1 # 1); Set_connected false ] /\
    progress (store (final (eraseDevice E env s))) = 1 # 1 /\
    connected (store (final (eraseDevice E env s))) = false.
Proof.
  intros World FileHandle E env s reports w1 w2 Hwrite Hreset.
  destruct erase_payload_bytes as (Hp & Hm & Hl).
  split; [exact Hp | split; [exact Hm | split; [exact Hl |]]].
  unfold eraseDevice, try_catch, bind, setMessage, message_set, progress_set,
    connected_set, update, await, result, final, events.
  cbn [store world fst snd]. rewrite Hwrite. cbn [store world fst snd].
  rewrite Hreset. cbn. repeat split; reflexivity.
Qed.

Lemma eraseDevice_sequence_witness :
  flashBlob (Scenario.scripted Scenario.happy) "userdata" erase_payload
            (world (Scenario.initialized Error Scenario.happy))
  = ([], (inl tt, 0%nat)) /\
  reset (Scenario.scripted Scenario.happy) 0%nat = (inl tt, 0%nat) /\
  result (eraseDevice Error (Scenario.scripted Scenario.happy)
                      (Scenario.initialized Error Scenario.happy)) = inl tt /\
  progress (store (final (eraseDevice Error (Scenario.scripted Scenario.happy)
                                      (Scenario.initialized Error Scenario.happy))))
  = 1 # 1.
Proof.
  split; [reflexivity | split; [reflexivity |]].
  pose proof (eraseDevice_sequence nat unit Error
                (Scenario.scripted Scenario.happy)
                (Scenario.initialized Error Scenario.happy)
                [] 0%nat 0%nat eq_refl eq_refl) as H.
  split; [exact (proj1 (proj2 (proj2 (proj2 H)))) |].
  exact (proj1 (proj2 (proj2 (proj2 (proj2 (proj2 H)))))).
Defined.

(** ** The flash phase *)

Section FlashPhase.

Context {World FileHandle : Type}.
Variable E : ErrorTable.
Variable env : Env World FileHandle.

(** A loop whose body performs at most the one device operation [W x],
    and exactly that one when it returns, performs the operations of a
    prefix of the items, and of all of them when it returns. *)
Lemma for_await_of_device_ops {A} (W : A -> DeviceOp) (body : A -> M World unit) :
  (forall x s r s' l,
      body x s = (r, s', l) ->
      (r = inl tt -> device_ops l = [W x]) /\
      (device_ops l = [] \/ device_ops l = [W x])) ->
  forall items s r s' l,
    for_await_of items body s = (r, s', l) ->
    (r = inl tt -> device_ops l = map W items) /\
    (exists rest, map W items = device_ops l ++ rest).
Proof.
  intros Hbody. induction items as [| x items IH]; intros s r s' l Hrun.
  - cbn in Hrun. injection Hrun as <- <- <-. cbn.
    split; [reflexivity | now exists []].
  - cbn [for_await_of] in Hrun. cbn [map].
    apply bind_inv in Hrun
      as [(a & s1 & l1 & l2 & Hx & Hrest & ->) | (v & Hx & ->)].
    + destruct (Hbody _ _ _ _ _ Hx) as [Hok _]. destruct a.
      destruct (IH _ _ _ _ Hrest) as [IHok [rest IHany]].
      rewrite device_ops_app, (Hok eq_refl). cbn [app]. split.
      * intros Hr. now rewrite (IHok Hr).
      * exists rest. now rewrite IHany.
    + destruct (Hbody _ _ _ _ _ Hx) as [_ Hany]. split; [discriminate |].
      destruct Hany as [-> | ->]; [now exists (W x :: map W items) |].
      now exists (map W items).
Qed.

Lemma includes_a_b (slot : string) :
  includes ["a"; "b"] slot = true <-> slot = "a" \/ slot = "b".
Proof.
  rewrite includes_In. cbn. intuition congruence.
Qed.

Lemma require_imageWorker_run (s : Sys World) :
  imageWorker (store s) = true -> @require_imageWorker World s = (inl tt, s, []).
Proof.
  intros Hw. unfold require_imageWorker, bind, read. rewrite Hw. cbn. now destruct s.
Qed.

Lemma flashDevice_plan (s s' : Sys World) (slot : string) (w : World)
      (r : unit + JsVal) (l : list Event) :
  imageWorker (store s) = true ->
  getActiveSlot env (world s) = (inl slot, w) ->
  includes ["a"; "b"] slot = true ->
  flashDevice E env s = (r, s', l) ->
  let other := if String.eqb slot "a" then "b" else "a" in
  (exists rest, flash_plan slot other (manifest (store s)) = device_ops l ++ rest) /\
  (r = inl tt -> device_ops l = flash_plan slot other (manifest (store s))).
Proof.
  intros Hw Hslot Hin Hrun other.
  unfold flashDevice in Hrun. fold other in Hrun.
  apply bind_inv in Hrun as [(a & s1 & l1 & l2 & Hreq & Hrun & ->) | (v & Hreq & ->)];
    rewrite (require_imageWorker_run s Hw) in Hreq; [| discriminate].
  injection Hreq as <- <- <-. cbn [app].
  apply bind_inv in Hrun as [(a' & s1 & l1 & l2' & Hp & Hrun & ->) | (v & Hp & ->)];
    [| discriminate].
  cbn in Hp. injection Hp as <- <- <-.
  cbn [app device_ops].
  assert (Hbody : forall x s0 r0 s0' l0,
             (fun image : ManifestImage =>
                fileHandle <- await (Call_getImage image) (getImage env image);;
                blob <- await Call_getFile (getFile env fileHandle);;
                setMessage ("Flashing " ++ name image)%string;;
                await_reporting
                  (Call_flashBlob (name image ++ "_" ++ other)%string blob)
                  (flashBlob env (name image ++ "_" ++ other)%string blob))
               x s0 = (r0, s0', l0) ->
             (r0 = inl tt -> device_ops l0 = [Written (name x ++ "_" ++ other)%string]) /\
             (device_ops l0 = [] \/
              device_ops l0 = [Written (name x ++ "_" ++ other)%string])).
  { intros x s0 r0 s0' l0 Hx. cbv beta in Hx.
    apply bind_inv in Hx as [(fh & t1 & k1 & k2 & Hg & Hx & ->) | (v & Hg & ->)].
    2:{ apply await_inv in Hg as (_ & _ & ->). split; [discriminate | now left]. }
    apply await_inv in Hg as (_ & _ & ->).
    apply bind_inv in Hx as [(blob & t2 & k3 & k4 & Hf & Hx & ->) | (v & Hf & ->)].
    2:{ apply await_inv in Hf as (_ & _ & ->). split; [discriminate | now left]. }
    apply await_inv in Hf as (_ & _ & ->).
    apply bind_inv in Hx as [(u & t3 & k5 & k6 & Hm & Hx & ->) | (v & Hm & ->)];
      [| discriminate].
    cbn in Hm. injection Hm as _ <- <-.
    apply await_reporting_inv in Hx as (reports & _ & _ & ->).
    cbn [app device_ops]. rewrite device_ops_progress.
    split; [reflexivity | now right]. }
  pose proof (for_await_of_device_ops
                (fun image => Written (name image ++ "_" ++ other)%string) _ Hbody)
    as Hloop.
  clear Hbody.
  match type of Hrun with
  | try_catch ?b _ ?s1 = _ =>
      assert (Hb : forall rb sb lb,
                 b s1 = (rb, sb, lb) ->
                 (exists rest,
                     flash_plan slot other (manifest (store s)) = device_ops lb ++ rest) /\
                 (rb = inl tt ->
                  device_ops lb = flash_plan slot other (manifest (store s))))
  end.
  { intros rb sb lb Hb. unfold flash_plan.
    apply bind_inv in Hb as [(cur & t1 & k1 & k2 & Hg & Hb & ->) | (v & Hg & ->)];
      apply await_inv in Hg as (Hg & Hst1 & ->); cbn [world] in Hg;
      rewrite Hslot in Hg; [| discriminate].
    injection Hg as <- Hw1.
    apply bind_inv in Hb as [(u & t2 & k3 & k4 & Hc & Hb & ->) | (v & Hc & ->)];
      rewrite Hin in Hc; cbn in Hc; [| discriminate].
    injection Hc as _ <- <-.
    apply bind_inv in Hb as [(u' & t3 & k5 & k6 & He & Hb & ->) | (v & He & ->)];
      apply await_inv in He as (_ & Hst3 & ->).
    2:{ cbn. split; [eexists; reflexivity | discriminate]. }
    apply bind_inv in Hb as [(m & t4 & k7 & k8 & Hm & Hb & ->) | (v & Hm & ->)];
      [| discriminate].
    cbn in Hm. injection Hm as <- <- <-.
    rewrite Hst3, Hst1 in Hb. cbn [store manifest with_progress] in Hb.
    fold other in Hb.
    apply bind_inv in Hb as [(u2 & t5 & k9 & k10 & Hl & Hb & ->) | (v & Hl & ->)];
      destruct (Hloop _ _ _ _ _ Hl) as [Hok [rest Hany]].
    2:{ cbn [app device_ops]. split; [| discriminate].
        exists (rest ++ [Switched other]). rewrite Hany. now rewrite app_assoc. }
    destruct u2. specialize (Hok eq_refl).
    apply bind_inv in Hb as [(u3 & t6 & k11 & k12 & Hs & Hb & ->) | (v & Hs & ->)];
      [| discriminate].
    cbn in Hs. injection Hs as _ <- <-.
    apply await_inv in Hb as (_ & _ & ->).
    cbn [app device_ops]. rewrite device_ops_app, Hok. cbn [device_ops].
    split; [exists []; now rewrite app_nil_r | reflexivity]. }
  apply try_catch_inv in Hrun
    as [(a & Hbody & ->) | (v & sb & lb & lh & Hbody & Hh & ->)].
  - apply (Hb _ _ _ Hbody).
  - cbn in Hh. injection Hh as <- <- <-. rewrite app_nil_r.
    split; [apply (Hb _ _ _ Hbody) | discriminate].
Qed.

Lemma calls_app (l1 l2 : list Event) : calls (l1 ++ l2) = calls l1 ++ calls l2.
Proof. apply filter_app. Qed.

Lemma calls_progress (reports : list Q) : calls (map Set_progress reports) = [].
Proof. induction reports as [| q reports IH]; [reflexivity | exact IH]. Qed.

(** How one pass of the loop settles. *)
Lemma flash_image_inv (other : string) (x : ManifestImage) (s s' : Sys World)
      (r : unit + JsVal) (l : list Event) :
  flash_image env other x s = (r, s', l) ->
  exists rg w1,
    getImage env x (world s) = (rg, w1) /\
    match rg with
    | inr v => r = inr v /\ l = [Call_getImage x]
    | inl h =>
        exists rf w2,
          getFile env h w1 = (rf, w2) /\
          match rf with
          | inr v => r = inr v /\ l = [Call_getImage x; Call_getFile]
          | inl blob =>
              exists reports w3,
                flashBlob env (name x ++ "_" ++ other)%string blob w2
                = (reports, (r, w3)) /\
                l = [ Call_getImage x; Call_getFile;
                      Set_message ("Flashing " ++ name x)%string;
                      Call_flashBlob (name x ++ "_" ++ other)%string blob ]
                    ++ map Set_progress reports
          end
    end.
Proof.
  unfold flash_image, bind, await, await_reporting, setMessage, message_set, update.
  cbn [store world].
  destruct (getImage env x (world s)) as [[h | v] w1] eqn:Hg.
  - cbn [store world].
    destruct (getFile env h w1) as [[blob | v] w2] eqn:Hf.
    + cbn [store world].
      destruct (flashBlob env (name x ++ "_" ++ other)%string blob w2)
        as [reports [rb w3]] eqn:Hb.
      intros [= <- <- <-]. exists (inl h), w1. split; [reflexivity |].
      exists (inl blob), w2. split; [exact Hf |].
      exists reports, w3. split; [exact Hb | reflexivity].
    + intros [= <- <- <-]. exists (inl h), w1. split; [reflexivity |].
      exists (inr v), w2. now split.
  - intros [= <- <- <-]. exists (inr v), w1. now split.
Qed.

(** How the flash phase settles once the slot is known to be [a] or [b]:
    on the bootloader erase, in the loop, or on the switch. *)
Lemma flashDevice_shape (s s' : Sys World) (slot : string) (w : World)
      (r : unit + JsVal) (l : list Event) :
  imageWorker (store s) = true ->
  getActiveSlot env (world s) = (inl slot, w) ->
  includes ["a"; "b"] slot = true ->
  flashDevice E env s = (r, s', l) ->
  let other := if String.eqb slot "a" then "b" else "a" in
  let opening :=
    [Set_progress (0 # 1); Call_getActiveSlot; Call_erase ("xbl_" ++ slot)%string] in
  exists re w1,
    erase env ("xbl_" ++ slot)%string w = (re, w1) /\
    match re with
    | inr _ => r = inr (member E "FLASH_FAILED") /\ l = opening
    | inl _ =>
        exists rl sl ll,
          for_await_of (manifest (store s)) (flash_image env other)
                       (Build_Sys (with_progress (0 # 1) (store s)) w1)
          = (rl, sl, ll) /\
          match rl with
          | inr _ => r = inr (member E "FLASH_FAILED") /\ l = opening ++ ll
          | inl _ =>
              exists rs ws,
                setActiveSlot env other (world sl) = (rs, ws) /\
                l = opening ++ ll
                    ++ [ Set_message ("Changing slot to " ++ other)%string;
                         Call_setActiveSlot other ] /\
                r = match rs with
                    | inl _ => inl tt
                    | inr _ => inr (member E "FLASH_FAILED")
                    end
          end
    end.
Proof.
  intros Hw Hslot Hin Hrun other opening.
  unfold flashDevice in Hrun. fold other in Hrun.
  change (fun image : ManifestImage =>
            fileHandle <- await (Call_getImage image) (getImage env image);;
            blob <- await Call_getFile (getFile env fileHandle);;
            setMessage ("Flashing " ++ name image)%string;;
            await_reporting
              (Call_flashBlob (name image ++ "_" ++ other)%string blob)
              (flashBlob env (name image ++ "_" ++ other)%string blob))
    with (flash_image env other) in Hrun.
  apply bind_inv in Hrun as [(a & s1 & l1 & l2 & Hreq & Hrun & ->) | (v & Hreq & ->)];
    rewrite (require_imageWorker_run s Hw) in Hreq; [| discriminate].
  injection Hreq as <- <- <-. cbn [app].
  apply bind_inv in Hrun as [(a' & s1 & l1 & l2' & Hp & Hrun & ->) | (v & Hp & ->)];
    [| discriminate].
  cbn in Hp. injection Hp as <- <- <-.
  match type of Hrun with
  | try_catch ?b _ ?s1 = _ => destruct (b s1) as [[rb sb] lb] eqn:Hb
  end.
  assert (Hr : r = match rb with
                   | inl _ => inl tt
                   | inr _ => inr (member E "FLASH_FAILED")
                   end /\ l2' = lb).
  { unfold try_catch in Hrun. rewrite Hb in Hrun. destruct rb as [[] | v].
    - now injection Hrun as <- _ <-.
    - cbn in Hrun. injection Hrun as <- _ <-. now rewrite app_nil_r. }
  destruct Hr as [-> ->]. clear Hrun.
  apply bind_inv in Hb as [(cur & t1 & k1 & k2 & Hg & Hb & ->) | (v & Hg & ->)];
    apply await_inv in Hg as (Hg & Hst1 & ->); cbn [world] in Hg;
    rewrite Hslot in Hg; [| discriminate].
  injection Hg as <- Hw1.
  apply bind_inv in Hb as [(u & t2 & k3 & k4 & Hc & Hb & ->) | (v & Hc & ->)];
    rewrite Hin in Hc; cbn in Hc; [| discriminate].
  injection Hc as _ <- <-.
  apply bind_inv in Hb as [(u' & t3 & k5 & k6 & He & Hb & ->) | (v & He & ->)];
    apply await_inv in He as (He & Hst3 & ->); rewrite <- Hw1 in He.
  2:{ exists (inr v), (world sb). split; [exact He |]. now split. }
  exists (inl u'), (world t3). split; [exact He |].
  apply bind_inv in Hb as [(m & t4 & k7 & k8 & Hm & Hb & ->) | (v & Hm & ->)];
    [| discriminate].
  cbn in Hm. injection Hm as <- <- <-.
  rewrite Hst3, Hst1 in Hb. cbn [store manifest with_progress] in Hb.
  assert (Ht3 : t3 = Build_Sys (with_progress (0 # 1) (store s)) (world t3)).
  { destruct t3 as [st3 wt3]. cbn [store world] in *. now rewrite Hst3, Hst1. }
  rewrite Ht3 in Hb.
  apply bind_inv in Hb as [(u2 & t5 & k9 & k10 & Hl & Hb & ->) | (v & Hl & ->)].
  2:{ eexists (inr v), sb, _. split; [exact Hl |]. now split. }
  exists (inl u2), t5, k9. split; [exact Hl |].
  apply bind_inv in Hb as [(u3 & t6 & k11 & k12 & Hs & Hb & ->) | (v & Hs & ->)];
    [| discriminate].
  cbn in Hs. injection Hs as _ <- <-.
  apply await_inv in Hb as (Hsw & _ & ->). cbn [world] in Hsw.
  exists rb, (world sb). split; [exact Hsw |]. split; [reflexivity |].
  now destruct rb as [[] | v].
Qed.

(** Whatever the loop writes is the file of one of its images. *)
Lemma flash_loop_writes_files (other : string) (items : list ManifestImage) :
  forall (s s' : Sys World) (r : unit + JsVal) (l : list Event),
    for_await_of items (flash_image env other) s = (r, s', l) ->
    writes_image_files env other items l.
Proof.
  induction items as [| x items IH]; intros s s' r l Hrun p payload Hin.
  - cbn in Hrun. injection Hrun as _ _ <-. contradiction.
  - cbn [for_await_of] in Hrun.
    assert (Hx : forall r0 s0 l0,
               flash_image env other x s = (r0, s0, l0) ->
               In (Call_flashBlob p payload) l0 ->
               exists handle w1 w2 w3,
                 p = (name x ++ "_" ++ other)%string /\
                 getImage env x w1 = (inl handle, w2) /\
                 getFile env handle w2 = (inl payload, w3)).
    { intros r0 s0 l0 H0 Hin0.
      apply flash_image_inv in H0 as (rg & w1 & Hg & H0).
      destruct rg as [h | v].
      2:{ destruct H0 as [_ ->]. destruct Hin0 as [H | []]. discriminate H. }
      destruct H0 as (rf & w2 & Hf & H0). destruct rf as [blob | v].
      2:{ destruct H0 as [_ ->]. destruct Hin0 as [H | [H | []]]; discriminate H. }
      destruct H0 as (reports & w3 & _ & ->).
      apply in_app_or in Hin0 as [Hin0 | Hin0].
      - destruct Hin0 as [H | [H | [H | [H | []]]]]; try discriminate H.
        injection H as <- <-. now exists h, (world s), w1, w2.
      - apply in_map_iff in Hin0 as (q & H & _). discriminate H. }
    apply bind_inv in Hrun
      as [(a & s1 & l1 & l2 & Hb & Hrest & ->) | (v & Hb & ->)].
    + apply in_app_or in Hin as [Hin | Hin].
      * destruct (Hx _ _ _ Hb Hin) as (h & w1 & w2 & w3 & Hp & Hg & Hf).
        exists x, h, w1, w2, w3. cbn. tauto.
      * destruct (IH _ _ _ _ Hrest p payload Hin)
          as (image & h & w1 & w2 & w3 & Hi & Hp & Hg & Hf).
        exists image, h, w1, w2, w3. cbn. tauto.
    + destruct (Hx _ _ _ Hb Hin) as (h & w1 & w2 & w3 & Hp & Hg & Hf).
      exists x, h, w1, w2, w3. cbn. tauto.
Qed.

(** With collaborators that refuse nothing the loop runs to its end. *)
Lemma flash_loop_succeeds (other : string) (handle : ManifestImage -> FileHandle)
      (file : FileHandle -> Blob) :
  flash_collaborators_succeed env handle file ->
  forall (items : list ManifestImage) (s s' : Sys World) (r : unit + JsVal)
         (l : list Event),
    for_await_of items (flash_image env other) s = (r, s', l) ->
    r = inl tt /\
    calls l = flat_map (flash_image_calls other (fun image => file (handle image))) items.
Proof.
  intros (Hgi & Hgf & _ & Hfb & _).
  assert (Hx : forall x s0 r0 s0' l0,
             flash_image env other x s0 = (r0, s0', l0) ->
             r0 = inl tt /\
             calls l0 = flash_image_calls other (fun image => file (handle image)) x).
  { intros x s0 r0 s0' l0 H0.
    apply flash_image_inv in H0 as (rg & w1 & Hg & H0).
    destruct (Hgi x (world s0)) as [w1' Hg']. rewrite Hg' in Hg.
    injection Hg as <- <-.
    destruct H0 as (rf & w2 & Hf & H0).
    destruct (Hgf (handle x) w1') as [w2' Hf']. rewrite Hf' in Hf.
    injection Hf as <- <-.
    destruct H0 as (reports & w3 & Hb & ->).
    destruct (Hfb (name x ++ "_" ++ other)%string (file (handle x)) w2')
      as (reports' & w3' & Hb').
    rewrite Hb' in Hb. injection Hb as <- <- <-.
    split; [reflexivity |].
    rewrite calls_app, calls_progress, app_nil_r. reflexivity. }
  induction items as [| x items IH]; intros s s' r l Hrun.
  - cbn in Hrun. now injection Hrun as <- _ <-.
  - cbn [for_await_of] in Hrun.
    apply bind_inv in Hrun
      as [(a & s1 & l1 & l2 & Hb & Hrest & ->) | (v & Hb & ->)].
    + destruct (Hx _ _ _ _ _ Hb) as [_ Hc].
      destruct (IH _ _ _ _ Hrest) as [-> Hc'].
      split; [reflexivity |].
      rewrite calls_app, Hc, Hc'. reflexivity.
    + destruct (Hx _ _ _ _ _ Hb) as [Hr _]. discriminate Hr.
Qed.

(** The two additions to the plan: where the written bytes come from, and
    that the phase returns when nothing is refused. *)
Lemma flashDevice_writes_files (s : Sys World) (slot : string) (w : World) :
  imageWorker (store s) = true ->
  getActiveSlot env (world s) = (inl slot, w) ->
  includes ["a"; "b"] slot = true ->
  let other := if String.eqb slot "a" then "b" else "a" in
  writes_image_files env other (manifest (store s)) (events (flashDevice E env s)) /\
  (forall handle file,
      flash_collaborators_succeed env handle file ->
      result (flashDevice E env s) = inl tt /\
      calls (events (flashDevice E env s))
      = flash_calls slot other (fun image => file (handle image)) (manifest (store s))).
Proof.
  intros Hw Hslot Hin other.
  destruct (flashDevice E env s) as [[r s'] l] eqn:Hrun.
  unfold result, events. cbn [fst snd].
  pose proof (flashDevice_shape s s' slot w r l Hw Hslot Hin Hrun) as Hshape.
  cbv zeta in Hshape. fold other in Hshape.
  destruct Hshape as (re & w1 & He & Hshape). split.
  - intros p payload Hp.
    destruct re as [u | v].
    2:{ destruct Hshape as [_ ->].
        destruct Hp as [H | [H | [H | []]]]; discriminate H. }
    destruct Hshape as (rl & sl & ll & Hl & Hshape).
    assert (Hll : In (Call_flashBlob p payload) ll).
    { destruct rl as [u2 | v].
      - destruct Hshape as (rs & ws & _ & -> & _). cbn [app] in Hp.
        destruct Hp as [H | [H | [H | Hp]]]; try discriminate H.
        apply in_app_or in Hp as [Hp | [H | [H | []]]]; try discriminate H.
        exact Hp.
      - destruct Hshape as [_ ->]. cbn [app] in Hp.
        destruct Hp as [H | [H | [H | Hp]]]; try discriminate H. exact Hp. }
    exact (flash_loop_writes_files other _ _ _ _ _ Hl p payload Hll).
  - intros handle file Hok.
    pose proof Hok as (_ & _ & Her & _ & Hsw).
    destruct (Her ("xbl_" ++ slot)%string w) as [w1' He']. rewrite He' in He.
    injection He as <- <-.
    destruct Hshape as (rl & sl & ll & Hl & Hshape).
    destruct (flash_loop_succeeds other handle file Hok _ _ _ _ _ Hl) as [-> Hc].
    destruct Hshape as (rs & ws & Hs & -> & ->).
    destruct (Hsw other (world sl)) as [ws' Hs']. rewrite Hs' in Hs.
    injection Hs as <- <-.
    split; [reflexivity |].
    rewrite !calls_app, Hc. reflexivity.
Qed.

(** The flash phase of a session is entered with the image worker set:
    [downloadImages] returns only if it is, and no phase unsets it. *)
Lemma flash_phase_entered_with_worker (s : Sys World) :
  result (downloadImages E env s) = inl tt ->
  imageWorker (store (final (unpackImages E env (final (downloadImages E env s)))))
  = true.
Proof.
  intros Hr.
  assert (Hsafe : phase_safe (fun st => imageWorker st = true)).
  { repeat split; cbn; tauto. }
  assert (Hw : imageWorker (store s) = true).
  { destruct (imageWorker (store s)) eqn:Hw; [reflexivity |].
    assert (Hq : @require_imageWorker World s = (inr not_initialized, s, [])).
    { unfold require_imageWorker, bind, read. rewrite Hw. cbn. now destruct s. }
    unfold downloadImages, bind, result in Hr. rewrite Hq in Hr.
    discriminate Hr. }
  apply (unpackImages_obeys E env _ (fun _ => True) Hsafe (fun _ _ => I)).
  now apply (downloadImages_obeys E env _ (fun _ => True) Hsafe (fun _ _ => I)).
Qed.

End FlashPhase.

(** C1. In the flash phase of a session (image worker set), when the
    driver reports slot [a] the device operations are, in order, a prefix
    of: erase [xbl_a], one write per manifest image in manifest order to
    [<name>_b], switch to [b]; and all of them when the phase returns.
    Each write carries the file the worker handed out for the image of
    that partition.  When neither worker nor driver refuses anything the
    phase does return, and its calls are exactly: the slot query, the
    erase, then for every image in manifest order its handle, its file and
    the write of that file to [<name>_b], then the switch to [b].  With
    [b] reported the same holds with the slots exchanged.  With any other
    slot the phase throws [FLASH_FAILED] having only published progress 0
    and asked for the slot: no erase and no write is issued. *)
Theorem flashDevice_targets_other_slot :
  forall (World FileHandle : Type) (E : ErrorTable) (env : Env World FileHandle)
         (s : Sys World) (currentSlot : string) (w : World),
    imageWorker (store s) = true ->
    getActiveSlot env (world s) = (inl currentSlot, w) ->
    let run := flashDevice E env s in
    let images := manifest (store s) in
    (currentSlot = "a" ->
       (exists rest,
           Erased "xbl_a"
           :: map (fun image => Written (name image ++ "_b")%string) images
           ++ [Switched "b"] = device_ops (events run) ++ rest) /\
       (result run = inl tt ->
        device_ops (events run) =
        Erased "xbl_a"
        :: map (fun image => Written (name image ++ "_b")%string) images
        ++ [Switched "b"]) /\
       writes_image_files env "b" images (events run) /\
       (forall handle file,
           flash_collaborators_succeed env handle file ->
           result run = inl tt /\
           calls (events run)
           = flash_calls "a" "b" (fun image => file (handle image)) images)) /\
    (currentSlot = "b" ->
       (exists rest,
           Erased "xbl_b"
           :: map (fun image => Written (name image ++ "_a")%string) images
           ++ [Switched "a"] = device_ops (events run) ++ rest) /\
       (result run = inl tt ->
        device_ops (events run) =
        Erased "xbl_b"
        :: map (fun image => Written (name image ++ "_a")%string) images
        ++ [Switched "a"]) /\
       writes_image_files env "a" images (events run) /\
       (forall handle file,
           flash_collaborators_succeed env handle file ->
           result run = inl tt /\
           calls (events run)
           = flash_calls "b" "a" (fun image => file (handle image)) images)) /\
    (currentSlot <> "a" -> currentSlot <> "b" ->
       result run = inr (member E "FLASH_FAILED") /\
       events run = [Set_progress (0 # 1); Call_getActiveSlot]).
Proof.
  intros World FileHandle E env s currentSlot w Hw Hslot run images.
  subst run images.
  split; [| split].
  - intros ->.
    destruct (flashDevice_writes_files E env s "a" w Hw Hslot eq_refl) as [Hfiles Hok].
    destruct (flashDevice E env s) as [[r s'] l] eqn:Hrun.
    unfold result, events in *. cbn [fst snd] in *.
    destruct (flashDevice_plan E env s s' "a" w r l Hw Hslot eq_refl Hrun)
      as [Hprefix Hall].
    split; [exact Hprefix | split; [exact Hall | split; [exact Hfiles | exact Hok]]].
  - intros ->.
    destruct (flashDevice_writes_files E env s "b" w Hw Hslot eq_refl) as [Hfiles Hok].
    destruct (flashDevice E env s) as [[r s'] l] eqn:Hrun.
    unfold result, events in *. cbn [fst snd] in *.
    destruct (flashDevice_plan E env s s' "b" w r l Hw Hslot eq_refl Hrun)
      as [Hprefix Hall].
    split; [exact Hprefix | split; [exact Hall | split; [exact Hfiles | exact Hok]]].
  - intros Ha Hb.
    destruct (flashDevice E env s) as [[r s'] l] eqn:Hrun.
    unfold result, events. cbn [fst snd].
    assert (Hin : includes ["a"; "b"] currentSlot = false).
    { destruct (includes ["a"; "b"] currentSlot) eqn:Hi; [| reflexivity].
      apply includes_a_b in Hi. tauto. }
    unfold flashDevice in Hrun.
    unfold bind, try_catch in Hrun.
    rewrite (require_imageWorker_run s Hw) in Hrun.
    unfold progress_set, update, await in Hrun. cbn [store world] in Hrun.
    rewrite Hslot, Hin in Hrun. cbn in Hrun.
    injection Hrun as <- _ <-. split; reflexivity.
Qed.

Lemma flashDevice_targets_other_slot_witness :
  imageWorker (store (Filing.initialized Error Scenario.happy_b)) = true /\
  getActiveSlot (Filing.scripted Scenario.happy_b)
                (world (Filing.initialized Error Scenario.happy_b))
  = (inl "b", 0%nat) /\
  result (flashDevice Error (Filing.scripted Scenario.happy_b)
                      (Filing.initialized Error Scenario.happy_b)) = inl tt /\
  calls (events (flashDevice Error (Filing.scripted Scenario.happy_b)
                             (Filing.initialized Error Scenario.happy_b)))
  = [ Call_getActiveSlot; Call_erase "xbl_b";
      Call_getImage (Scenario.image "boot"); Call_getFile;
      Call_flashBlob "boot_a" (list_byte_of_string "boot");
      Call_getImage (Scenario.image "system"); Call_getFile;
      Call_flashBlob "system_a" (list_byte_of_string "system");
      Call_setActiveSlot "a" ].
Proof.
  split; [reflexivity | split; [reflexivity |]].
  refine (proj2 (proj2 (proj2 (proj1 (proj2
            (flashDevice_targets_other_slot nat string Error
               (Filing.scripted Scenario.happy_b)
               (Filing.initialized Error Scenario.happy_b)
               "b" 0%nat eq_refl eq_refl)) eq_refl)))
            name list_byte_of_string _).
  repeat split; intros; repeat eexists.
Defined.

(** Two more runs of the flash phase: slot [b] active with two images, and
    a driver that reports slot [c]. *)
Example flash_from_slot_b :
  device_ops (events (flashDevice Error (Scenario.scripted Scenario.happy_b)
                                  (Scenario.initialized Error Scenario.happy_b)))
  = [Erased "xbl_b"; Written "boot_a"; Written "system_a"; Switched "a"].
Proof. reflexivity. Qed.

Example flash_from_slot_c :
  flashDevice Error (Scenario.scripted Scenario.odd_slot)
              (Scenario.initialized Error Scenario.odd_slot)
  = (inr (JNum 5),
     Build_Sys (with_progress (0 # 1)
                  (store (Scenario.initialized Error Scenario.odd_slot))) 0%nat,
     [Set_progress (0 # 1); Call_getActiveSlot]).
Proof. reflexivity. Qed.

(** ** The published step *)

(** C4. No run of [startFlashing] ever publishes step [ERASING]: the only
    steps it sets are [CONNECTING], [DOWNLOADING], [UNPACKING], [FLASHING]
    and [DONE].  On the successful one-image session the published steps
    go from [FLASHING] straight to [DONE], and [FLASHING] is the step in
    force both when the user-data wipe and when the reset are issued. *)
Theorem startFlashing_skips_ERASING :
  (forall (World FileHandle : Type) (E : ErrorTable) (env : Env World FileHandle)
          (s : Sys World),
      Forall (fun e => e <> Set_step Step.ERASING) (events (startFlashing E env s))) /\
  (let run := startFlashing Error (Scenario.scripted Scenario.happy)
                            (Scenario.initialized Error Scenario.happy) in
   result run = inl tt /\
   steps_published (events run) =
     [Step.CONNECTING; Step.DOWNLOADING; Step.UNPACKING; Step.FLASHING; Step.DONE] /\
   device_ops (events run) =
     [Erased "xbl_a"; Written "boot_b"; Switched "b"; Written "userdata"] /\
   steps_during wipe_or_reset Step.READY (events run) =
     [Step.FLASHING; Step.FLASHING]).
Proof.
  split.
  - intros World FileHandle E env s.
    exact (proj2 (proj2 (startFlashing_never_erasing E env s I))).
  - repeat split; reflexivity.
Qed.

(** ** Failures of the unpack phase *)

Section UnpackFailure.

Context {World FileHandle : Type}.
Variable E : ErrorTable.
Variable env : Env World FileHandle.

(** What the handler of [unpackImages] throws for a failure that is a
    message. *)
Lemma unpack_rethrow_message (msg : string) (s : Sys World) :
  @unpack_rethrow World E (JStr msg) s =
  (inr (if String.prefix "Checksum mismatch" msg
        then member E "CHECKSUM_MISMATCH"
        else member E "UNPACK_FAILED"), s, []).
Proof. reflexivity. Qed.

(** A loop that throws stopped at the first item whose body threw: the
    items before it all returned, and no event of the loop comes after
    that body's own. *)
Lemma for_await_of_stops {A} (body : A -> M World unit) (items : list A)
      (s : Sys World) (v : JsVal) :
  result (for_await_of items body s) = inr v ->
  exists before x after,
    items = before ++ x :: after /\
    result (for_await_of before body s) = inl tt /\
    result (body x (final (for_await_of before body s))) = inr v /\
    events (for_await_of items body s) =
    events (for_await_of before body s) ++
    events (body x (final (for_await_of before body s))).
Proof.
  revert s. induction items as [| x items IH]; intros s Hr.
  - discriminate Hr.
  - cbn [for_await_of] in Hr.
    destruct (body x s) as [[[[] | v0] s1] l1] eqn:Hx.
    + unfold bind, result in Hr. rewrite Hx in Hr.
      destruct (for_await_of items body s1) as [[r2 s2] l2] eqn:Hrest.
      cbn in Hr. subst r2.
      destruct (IH s1) as (before & y & after & -> & Hb & Hy & He).
      { unfold result. now rewrite Hrest. }
      exists (x :: before), y, after.
      cbn [for_await_of app]. unfold bind, result, final, events in *.
      rewrite Hx. rewrite Hrest in He. cbn [fst snd] in *.
      destruct (for_await_of before body s1) as [[rb sb] lb]. cbn [fst snd] in *.
      subst rb. repeat split; try assumption.
      rewrite Hrest. cbn [snd]. rewrite He. now rewrite app_assoc.
    + unfold bind, result in Hr. rewrite Hx in Hr. cbn in Hr.
      injection Hr as ->.
      exists [], x, items. cbn [for_await_of app].
      unfold bind, result, final, events. cbn. rewrite Hx. cbn.
      repeat split; reflexivity.
Qed.

End UnpackFailure.

(** C5. The failing run: unpacking the first image fails with the message
    "Decompression failed".  With the table of [flash.ts], which has no
    [UNPACK_FAILED] member, the unpack phase throws [undefined], which is
    no error code; [handleError] then throws on reading [code], so the
    session rejects with a [TypeError] and publishes no error at all: the
    error field is still [NONE], progress is not -1 and no retry is
    armed.  With the table of the untyped variant the same run publishes
    [UNPACK_FAILED] = 4.  The second image is never unpacked either way. *)
Theorem unpack_generic_failure_lost :
  let env := Scenario.scripted Scenario.unpack_fails in
  let at_unpack E :=
    final (downloadImages E env (Scenario.initialized E Scenario.unpack_fails)) in
  let session E := startFlashing E env (Scenario.initialized E Scenario.unpack_fails) in
  member Error "UNPACK_FAILED" = JUndefined /\
  result (unpackImages Error env (at_unpack Error)) = inr JUndefined /\
  in_taxonomy Error JUndefined = false /\
  result (session Error) =
    inr (TypeError "Cannot read properties of undefined (reading 'code')") /\
  errors_published (events (session Error)) = [] /\
  error (store (final (session Error))) = member Error "NONE" /\
  progress (store (final (session Error))) = 0 # 1 /\
  onRetry (store (final (session Error))) = None /\
  unpacks_requested (events (session Error)) = ["boot"] /\
  result (unpackImages Error_untyped env (at_unpack Error_untyped)) =
    inr (member Error_untyped "UNPACK_FAILED") /\
  member Error_untyped "UNPACK_FAILED" = JNum 4 /\
  errors_published (events (session Error_untyped)) = [JNum 4].
Proof. cbv zeta. repeat split; reflexivity. Qed.

(** ** The recovery hooks *)

(** What the error path does with a failure that is neither [undefined]
    nor [null]. *)
Lemma handleError_run {World : Type} (err : JsVal) (s : Sys World) :
  err <> JUndefined -> err <> JNull ->
  handleError err s =
  (inl tt,
   Build_Sys
     (with_onRetry (Some (returning reload))
        (with_onContinue None
           (with_progress (-1 # 1)
              (with_error (or_else (get_code err) err) (store s))))) (world s),
   [ Set_error (or_else (get_code err) err); Set_progress (-1 # 1);
     Set_onContinue None; Set_onRetry (Some (returning reload)) ]).
Proof. intros Hu Hn. destruct err; try contradiction; reflexivity. Qed.

(** C6. The failing run: download of image 2 of 5 fails.  The session
    publishes [DOWNLOAD_FAILED], progress -1 and a null [onContinue], and
    stops before unpacking; but the function it publishes as [onRetry] is
    [() => () => window.location.reload()], and invoking it reloads
    nothing: it only returns the function that would. *)
Theorem download_failure_retry_hook :
  let run := startFlashing Error (Scenario.scripted Scenario.download_fails)
                           (Scenario.initialized Error Scenario.download_fails) in
  result run = inl tt /\
  downloads_requested (events run) = ["xbl"; "abl"] /\
  unpacks_requested (events run) = [] /\
  error (store (final run)) = member Error "DOWNLOAD_FAILED" /\
  progress (store (final run)) = -1 # 1 /\
  onContinue (store (final run)) = None /\
  onRetry (store (final run)) = Some (returning reload) /\
  invoke (returning reload) = PageUntouched /\
  invoke reload = PageReloaded.
Proof. cbv zeta. repeat split; reflexivity. Qed.

(** ** What reaches the error field *)

Section ErrorPublication.

Context {World FileHandle : Type}.
Variable E : ErrorTable.
Variable env : Env World FileHandle.

Lemma startFlashing_connect_rejected (s : Sys World) (err : JsVal) (w : World) :
  waitForConnect env (world s) = (inr err, w) ->
  err <> JUndefined -> err <> JNull ->
  startFlashing E env s =
  (inl tt,
   Build_Sys
     (with_onRetry (Some (returning reload))
        (with_onContinue None
           (with_progress (-1 # 1)
              (with_error (or_else (get_code err) err)
                 (with_step Step.CONNECTING (store s)))))) w,
   [ Set_step Step.CONNECTING; Call_waitForConnect;
     Set_error (or_else (get_code err) err); Set_progress (-1 # 1);
     Set_onContinue None; Set_onRetry (Some (returning reload)) ]).
Proof.
  intros Hc Hu Hn.
  unfold startFlashing, bind, try_catch, step_set, update, await.
  cbn [store world]. rewrite Hc.
  destruct err; try contradiction; reflexivity.
Qed.

End ErrorPublication.

(** C7, as the code has it.  Waiting for the connection rejects with a
    plain [Error] that has no [code]: the error field receives that very
    object, which is no member of the taxonomy and is not [UNKNOWN]. *)
Lemma raw_failure_published_verbatim :
  error (store (final
    (startFlashing Error
       (Scenario.scripted (Scenario.connect_rejects (new_Error "No device selected")))
       (Scenario.initialized Error
          (Scenario.connect_rejects (new_Error "No device selected"))))))
  = new_Error "No device selected" /\
  in_taxonomy Error (new_Error "No device selected") = false /\
  JsVal_eqb (new_Error "No device selected") (member Error "UNKNOWN") = false /\
  member Error "UNKNOWN" = JNum (-1).
Proof. repeat split; reflexivity. Qed.

(** ** Reaching [DONE] *)

Lemma obeys_run {World A} (I : Store -> Prop) (R : JsVal -> Prop) (Ev : Event -> Prop)
      (m : M World A) (s s' : Sys World) (r : A + JsVal) (l : list Event) :
  obeys I R Ev m -> m s = (r, s', l) -> I (store s) ->
  I (store s') /\ (forall v, r = inr v -> R v) /\ Forall Ev l.
Proof.
  intros Hm Hrun Hs. specialize (Hm s Hs).
  unfold result, final, events in Hm. now rewrite Hrun in Hm.
Qed.

Section Done.

Context {World FileHandle : Type}.
Variable E : ErrorTable.
Variable env : Env World FileHandle.

Lemma pending_phase_safe (e0 : JsVal) : phase_safe (pending e0).
Proof.
  unfold pending. repeat split; cbn; try tauto; discriminate.
Qed.

Lemma handleError_keeps_step (v : JsVal) (s s' : Sys World) (r : unit + JsVal)
      (l : list Event) :
  handleError v s = (r, s', l) -> step (store s') = step (store s).
Proof.
  destruct v; cbn; intros [= <- <- <-]; reflexivity.
Qed.

Lemma startFlashing_DONE (s : Sys World) :
  step (store (final (startFlashing E env s))) = Step.DONE ->
  result (startFlashing E env s) = inl tt /\
  error (store (final (startFlashing E env s))) = error (store s).
Proof.
  destruct (startFlashing E env s) as [[r s'] l] eqn:Hrun.
  unfold result, final. cbn [fst snd]. intros Hdone.
  unfold startFlashing in Hrun.
  apply bind_inv in Hrun as [(u & s1 & l1 & l2 & Hc & Hrun & ->) | (v & Hc & ->)];
    [| discriminate].
  cbn in Hc. injection Hc as _ <- <-.
  set (e0 := error (store s)).
  set (s1 := Build_Sys (with_step Step.CONNECTING (store s)) (world s)) in *.
  assert (Hs1 : pending e0 (store s1)) by (split; [reflexivity | discriminate]).
  match type of Hrun with
  | try_catch ?b _ _ = _ =>
      assert (Hbody : forall rb sb lb,
                 b s1 = (rb, sb, lb) ->
                 step (store sb) <> Step.DONE \/
                 (rb = inl tt /\ error (store sb) = e0))
  end.
  { intros rb sb lb Hb.
    apply bind_inv in Hb as [(u1 & t1 & k1 & k2 & Hw & Hb & ->) | (v & Hw & ->)];
      apply await_inv in Hw as (_ & Hst & _);
      [| left; rewrite Hst; discriminate].
    apply bind_inv in Hb as [(info & t2 & k3 & k4 & Hi & Hb & ->) | (v & Hi & ->)];
      apply await_inv in Hi as (_ & Hst2 & _);
      [| left; rewrite Hst2, Hst; discriminate].
    assert (Ht2 : pending e0 (store t2)) by (now rewrite Hst2, Hst).
    cbv zeta in Hb. destruct (negb _).
    { cbn in Hb. injection Hb as _ <- _. left. cbn. apply Ht2. }
    apply bind_inv in Hb as [(sr & t3 & k5 & k6 & Hp & Hb & ->) | (v & Hp & ->)];
      [| discriminate].
    cbn in Hp. injection Hp as _ <- _.
    apply bind_inv in Hb as [(u2 & t4 & k7 & k8 & H1 & Hb & ->) | (v & H1 & ->)];
      [| discriminate].
    cbn in H1. injection H1 as _ <- _.
    apply bind_inv in Hb as [(u3 & t5 & k9 & k10 & H2 & Hb & ->) | (v & H2 & ->)];
      [| discriminate].
    cbn in H2. injection H2 as _ <- _.
    apply bind_inv in Hb as [(u4 & t6 & k11 & k12 & H3 & Hb & ->) | (v & H3 & ->)];
      [| discriminate].
    cbn in H3. injection H3 as _ <- _.
    match type of Hb with
    | bind _ _ ?t = _ => assert (Ht : pending e0 (store t))
    end.
    { destruct Ht2 as [He _]. split; [exact He | discriminate]. }
    apply bind_inv in Hb as [(u5 & t7 & k13 & k14 & Hd & Hb & ->) | (v & Hd & ->)];
      apply (obeys_run _ _ (fun _ => True) _ _ _ _ _
               (downloadImages_obeys E env _ _ (pending_phase_safe e0) (fun _ _ => I)))
        in Hd as (Ht7 & _); try exact Ht; [| left; apply Ht7].
    apply bind_inv in Hb as [(u6 & t8 & k15 & k16 & Hu & Hb & ->) | (v & Hu & ->)];
      apply (obeys_run _ _ (fun _ => True) _ _ _ _ _
               (unpackImages_obeys E env _ _ (pending_phase_safe e0) (fun _ _ => I)))
        in Hu as (Ht8 & _); try exact Ht7; [| left; apply Ht8].
    apply bind_inv in Hb as [(u7 & t9 & k17 & k18 & Hf & Hb & ->) | (v & Hf & ->)];
      apply (obeys_run _ _ (fun _ => True) _ _ _ _ _
               (flashDevice_obeys E env _ _ (pending_phase_safe e0) (fun _ _ => I)))
        in Hf as (Ht9 & _); try exact Ht8; [| left; apply Ht9].
    apply bind_inv in Hb as [(u8 & t10 & k19 & k20 & He & Hb & ->) | (v & He & ->)];
      apply (obeys_run _ _ (fun _ => True) _ _ _ _ _
               (eraseDevice_obeys E env _ _ (pending_phase_safe e0) (fun _ _ => I)))
        in He as (Ht10 & _); try exact Ht9; [| left; apply Ht10].
    cbn in Hb. injection Hb as <- <- _. right. split; [reflexivity | apply Ht10]. }
  apply try_catch_inv in Hrun
    as [(a & Hb & ->) | (v & sb & lb & lh & Hb & Hh & ->)].
  - destruct (Hbody _ _ _ Hb) as [Hn | [_ He]]; [contradiction |].
    destruct a. split; [reflexivity | exact He].
  - destruct (Hbody _ _ _ Hb) as [Hn | [Habs _]]; [| discriminate].
    apply handleError_keeps_step in Hh. rewrite Hh in Hdone. contradiction.
Qed.

End Done.

(** C8, as the code has it.  A first device with one slot is rejected
    ([UNRECOGNIZED_DEVICE] is published and nothing else happens); a second
    call to [startFlashing] with a fitting device runs to [DONE] while the
    error field still holds [UNRECOGNIZED_DEVICE].  Likewise after an
    [initialize] that found no [Storage]: the session runs to [DONE] with
    [REQUIREMENTS_NOT_MET] still published. *)
Lemma DONE_with_stale_error :
  error (store (final
    (startFlashing Error (Scenario.scripted Scenario.second_device_fits)
       (Scenario.initialized Error Scenario.second_device_fits))))
  = member Error "UNRECOGNIZED_DEVICE" /\
  step (store (final
    (startFlashing Error (Scenario.scripted Scenario.second_device_fits)
       (final
          (startFlashing Error (Scenario.scripted Scenario.second_device_fits)
             (Scenario.initialized Error Scenario.second_device_fits))))))
  = Step.DONE /\
  error (store (final
    (startFlashing Error (Scenario.scripted Scenario.second_device_fits)
       (final
          (startFlashing Error (Scenario.scripted Scenario.second_device_fits)
             (Scenario.initialized Error Scenario.second_device_fits))))))
  = JNum 1 /\
  member Error "NONE" = JNum 0 /\
  error (store (Scenario.initialized Error Scenario.no_storage))
  = member Error "REQUIREMENTS_NOT_MET" /\
  step (store (final
    (startFlashing Error (Scenario.scripted Scenario.no_storage)
       (Scenario.initialized Error Scenario.no_storage))))
  = Step.DONE /\
  error (store (final
    (startFlashing Error (Scenario.scripted Scenario.no_storage)
       (Scenario.initialized Error Scenario.no_storage))))
  = JNum 7.
Proof. repeat split; reflexivity. Qed.

(** C8, amended.  A call of [startFlashing] that ends with step [DONE]
    returned normally and left the error field as it found it; so when the
    error field was [NONE] at the call, it is [NONE] at [DONE]. *)
Theorem DONE_leaves_error_untouched :
  forall (World FileHandle : Type) (E : ErrorTable) (env : Env World FileHandle)
         (s : Sys World),
    step (store (final (startFlashing E env s))) = Step.DONE ->
    result (startFlashing E env s) = inl tt /\
    error (store (final (startFlashing E env s))) = error (store s) /\
    (error (store s) = member E "NONE" ->
     error (store (final (startFlashing E env s))) = member E "NONE").
Proof.
  intros World FileHandle E env s Hdone.
  destruct (startFlashing_DONE E env s Hdone) as [Hr He].
  split; [exact Hr | split; [exact He |]].
  intros Hnone. now rewrite He.
Qed.

Lemma DONE_leaves_error_untouched_witness :
  step (store (final
    (startFlashing Error (Scenario.scripted Scenario.happy)
       (Scenario.initialized Error Scenario.happy)))) = Step.DONE /\
  error (store (final
    (startFlashing Error (Scenario.scripted Scenario.happy)
       (Scenario.initialized Error Scenario.happy)))) = member Error "NONE".
Proof.
  split; [reflexivity |].
  exact (proj2 (proj2 (DONE_leaves_error_untouched nat unit Error
                         (Scenario.scripted Scenario.happy)
                         (Scenario.initialized Error Scenario.happy) eq_refl))
               eq_refl).
Defined.

(** ** Writing [NONE] back *)

Lemma or_else_code_nonzero (err : JsVal) :
  err <> JNum 0 -> or_else (get_code err) err <> JNum 0.
Proof.
  intros Herr. unfold or_else.
  destruct (truthy (get_code err)) eqn:Ht; [| exact Herr].
  intros Heq. rewrite Heq in Ht. discriminate Ht.
Qed.

Section NoneAgain.

Context {World FileHandle : Type}.
Variable E : ErrorTable.
Variable env : Env World FileHandle.

Hypothesis codes_nonzero : forall k, In k codes_read -> member E k <> JNum 0.
Hypothesis connect_nonzero : forall w, fst (waitForConnect env w) <> inr (JNum 0).
Hypothesis info_nonzero : forall w, fst (getDevicePartitionsInfo env w) <> inr (JNum 0).

Ltac code_read := apply codes_nonzero; cbn; tauto.

Lemma session_raises_nonzero (err : JsVal) :
  session_raises E env err -> err <> JNum 0.
Proof.
  unfold session_raises, unpack_raises.
  intros [-> | [[-> | [-> | [-> | [msg ->]]]] | [-> | [-> | [-> | [[w Hw] | [w Hw]]]]]]];
    try code_read; try discriminate.
  - intros ->. now apply (connect_nonzero w).
  - intros ->. now apply (info_nonzero w).
Qed.

Lemma publishable_nonzero (v : JsVal) : publishable E env v -> v <> JNum 0.
Proof.
  intros [-> | (err & Herr & ->)]; [code_read |].
  apply or_else_code_nonzero. now apply session_raises_nonzero.
Qed.

Lemma startFlashing_no_reset (I : Store -> Prop) :
  session_safe I ->
  (forall v st, v <> JNum 0 -> I st -> I (with_error v st)) ->
  obeys I (fun _ => True) no_reset (startFlashing E env).
Proof.
  intros Hsafe Herr. apply startFlashing_obeys.
  - exact Hsafe.
  - intros e He ->. discriminate He.
  - intros v Hv [= ->]. now apply (publishable_nonzero (JNum 0)).
  - intros v st Hv Hst. apply Herr; [now apply publishable_nonzero | exact Hst].
Qed.

Lemma initialize_no_reset (I : Store -> Prop) :
  session_safe I ->
  (forall v st, I st -> I (with_imageWorker v st)) ->
  (forall v st, I st -> I (with_manifest v st)) ->
  (forall v st, v <> JNum 0 -> I st -> I (with_error v st)) ->
  obeys I (fun _ => True) no_reset (initialize E env).
Proof.
  intros (_ & Hstep & _) Hiw Hmf Herr.
  unfold initialize, error_set, step_set.
  apply obeys_bind; [obeys_step; apply Hiw | intros _].
  do 3 (apply obeys_bind; [apply obeys_peek | intro]).
  destruct (_ || _).
  { obeys_step; [intros [= H]; revert H; code_read |].
    intros st Hst. apply Herr; [code_read | exact Hst]. }
  apply obeys_try_catch with (R' := fun _ => True).
  - apply obeys_bind; [obeys_step; [discriminate | auto] | intros _].
    apply obeys_bind; [obeys_step; [discriminate | auto] | intros m].
    apply obeys_bind; [obeys_step; apply Hmf | intros _].
    apply obeys_bind;
      [destruct (Nat.eqb _ _); [now apply obeys_throw | apply obeys_ret] | intros _].
    obeys_step; [discriminate | apply Hstep].
  - intros v _. obeys_step; [intros [= H]; revert H; code_read |].
    intros st Hst. apply Herr; [code_read | exact Hst].
Qed.

Lemma error_is_set_safe :
  session_safe error_is_set /\
  (forall v st, error_is_set st -> error_is_set (with_imageWorker v st)) /\
  (forall v st, error_is_set st -> error_is_set (with_manifest v st)) /\
  (forall v st, v <> JNum 0 -> error_is_set st -> error_is_set (with_error v st)).
Proof. unfold error_is_set. repeat split; cbn; tauto. Qed.

Lemma run_ops_keeps_error_set (ops : list Op) (s : Sys World) :
  error_is_set (store s) -> error_is_set (store (run_ops E env ops s)).
Proof.
  destruct error_is_set_safe as (Hs & Hiw & Hmf & Herr).
  revert s. induction ops as [| o ops IH]; intros s Hst; [exact Hst |].
  cbn [run_ops fold_left]. apply IH. destruct o; cbn [run_op].
  - exact (proj1 (initialize_no_reset _ Hs Hiw Hmf Herr s Hst)).
  - exact (proj1 (startFlashing_no_reset _ Hs Herr s Hst)).
Qed.

End NoneAgain.

Lemma codes_read_nonzero (E : ErrorTable) :
  E = Error \/ E = Error_untyped ->
  member E "NONE" = JNum 0 /\ forall k, In k codes_read -> member E k <> JNum 0.
Proof.
  intros [-> | ->]; (split; [reflexivity |]); intros k Hk; cbn in Hk;
    repeat (destruct Hk as [<- | Hk]; [discriminate |]); contradiction.
Qed.

(** C9, as the code has it.  [initialize] found no [Storage] and
    published [REQUIREMENTS_NOT_MET]; [startFlashing] is then called and
    the connection wait rejects with the number 0: [handleError] computes
    [err.code || err] = 0 and writes it, so the error field is [NONE]
    again without any restart. *)
Lemma error_reset_by_zero_failure :
  error (store (Scenario.initialized Error Scenario.zero_rejection))
  = member Error "REQUIREMENTS_NOT_MET" /\
  member Error "REQUIREMENTS_NOT_MET" = JNum 7 /\
  errors_published (events
    (startFlashing Error (Scenario.scripted Scenario.zero_rejection)
       (Scenario.initialized Error Scenario.zero_rejection)))
  = [member Error "NONE"] /\
  error (store (final
    (startFlashing Error (Scenario.scripted Scenario.zero_rejection)
       (Scenario.initialized Error Scenario.zero_rejection))))
  = member Error "NONE".
Proof. repeat split; reflexivity. Qed.

(** C9, amended.  With either error table, and collaborators whose
    connection wait and device-info read never reject with the number 0:
    neither [initialize] nor [startFlashing] ever writes [NONE] to the
    error field, and once the field differs from [NONE] it stays so through
    any sequence of calls of the two operations. *)
Theorem error_not_reset_unless_zero_thrown :
  forall (World FileHandle : Type) (E : ErrorTable) (env : Env World FileHandle),
    E = Error \/ E = Error_untyped ->
    (forall w, fst (waitForConnect env w) <> inr (JNum 0)) ->
    (forall w, fst (getDevicePartitionsInfo env w) <> inr (JNum 0)) ->
    (forall s, Forall (fun e => e <> Set_error (member E "NONE"))
                      (events (initialize E env s))) /\
    (forall s, Forall (fun e => e <> Set_error (member E "NONE"))
                      (events (startFlashing E env s))) /\
    (forall ops s,
        error (store s) <> member E "NONE" ->
        error (store (run_ops E env ops s)) <> member E "NONE").
Proof.
  intros World FileHandle E env HE Hc Hi.
  destruct (codes_read_nonzero E HE) as [Hnone Hcodes]. rewrite Hnone.
  split; [| split].
  - intros s.
    refine (proj2 (proj2 (initialize_no_reset E env Hcodes (fun _ => True)
                            session_safe_True _ _ _ s I))); auto.
  - intros s.
    refine (proj2 (proj2 (startFlashing_no_reset E env Hcodes Hc Hi (fun _ => True)
                            session_safe_True _ s I))); auto.
  - intros ops s Hs. now apply (run_ops_keeps_error_set E env Hcodes Hc Hi).
Qed.

Lemma error_not_reset_unless_zero_thrown_witness :
  error (store (Scenario.initialized Error Scenario.no_storage)) = JNum 7 /\
  error (store
    (run_ops Error (Scenario.scripted Scenario.no_storage)
       [op_startFlashing; op_initialize; op_startFlashing]
       (Scenario.initialized Error Scenario.no_storage)))
  <> member Error "NONE".
Proof.
  split; [reflexivity |].
  refine (proj2 (proj2 (error_not_reset_unless_zero_thrown nat unit Error
            (Scenario.scripted Scenario.no_storage) (or_introl eq_refl) _ _))
          [op_startFlashing; op_initialize; op_startFlashing]
          (Scenario.initialized Error Scenario.no_storage) _);
    try (intros w; cbn); discriminate.
Defined.

(** * Further properties of the store *)

(** ** [initialize] *)

Section InitializeFacts.

Context {World FileHandle : Type}.
Variable E : ErrorTable.
Variable env : Env World FileHandle.

(** The three ways [initialize] can go, as whole runs. *)
Lemma initialize_gate_run (s : Sys World) :
  usb_defined env (world s) && Worker_defined env (world s)
    && Storage_defined env (world s) = false ->
  initialize E env s =
  (inl tt,
   Build_Sys (with_error (member E "REQUIREMENTS_NOT_MET")
                (with_imageWorker true (store s))) (world s),
   [Set_error (member E "REQUIREMENTS_NOT_MET")]).
Proof.
  intros Hcaps. unfold initialize, bind, assign, peek, error_set, update.
  cbn [store world].
  destruct (usb_defined env (world s)), (Worker_defined env (world s)),
    (Storage_defined env (world s)); try discriminate Hcaps; reflexivity.
Qed.

Lemma initialize_ready_run (s : Sys World) (w1 w2 : World) (m : list ManifestImage) :
  usb_defined env (world s) && Worker_defined env (world s)
    && Storage_defined env (world s) = true ->
  init env (world s) = (inl tt, w1) ->
  loadManifest env w1 = (inl m, w2) ->
  m <> [] ->
  initialize E env s =
  (inl tt,
   Build_Sys (with_step Step.READY
                (with_manifest m (with_imageWorker true (store s)))) w2,
   [Call_init; Call_loadManifest; Set_step Step.READY]).
Proof.
  intros Hcaps Hinit Hload Hm.
  unfold initialize, bind, try_catch, assign, peek, await, step_set, update.
  cbn [store world].
  destruct (usb_defined env (world s)), (Worker_defined env (world s)),
    (Storage_defined env (world s)); try discriminate Hcaps.
  cbn [negb orb store world]. rewrite Hinit. cbn [store world]. rewrite Hload.
  destruct m as [| i m]; [contradiction | reflexivity].
Qed.

Lemma initialize_failed_run (s : Sys World) :
  usb_defined env (world s) && Worker_defined env (world s)
    && Storage_defined env (world s) = true ->
  (forall w1 m w2,
      init env (world s) = (inl tt, w1) -> loadManifest env w1 = (inl m, w2) -> m = []) ->
  result (initialize E env s) = inl tt /\
  events (initialize E env s) =
    Call_init
    :: match fst (init env (world s)) with
       | inl _ => [Call_loadManifest]
       | inr _ => []
       end ++ [Set_error (member E "UNKNOWN")] /\
  error (store (final (initialize E env s))) = member E "UNKNOWN" /\
  step (store (final (initialize E env s))) = step (store s) /\
  manifest (store (final (initialize E env s))) =
    match fst (init env (world s)) with
    | inl _ =>
        match fst (loadManifest env (snd (init env (world s)))) with
        | inl m => m
        | inr _ => manifest (store s)
        end
    | inr _ => manifest (store s)
    end.
Proof.
  intros Hcaps Hfail.
  unfold initialize, bind, try_catch, assign, peek, await, step_set, error_set,
    update, result, final, events.
  cbn [store world].
  destruct (usb_defined env (world s)), (Worker_defined env (world s)),
    (Storage_defined env (world s)); try discriminate Hcaps.
  cbn [negb orb store world].
  destruct (init env (world s)) as [[[] | v] w1] eqn:Hinit; cbn; [| now repeat split].
  destruct (loadManifest env w1) as [[m | v] w2] eqn:Hload; cbn; [| now repeat split].
  rewrite (Hfail w1 m w2 eq_refl Hload). cbn. now repeat split.
Qed.

End InitializeFacts.

(** X1. [initialize] never rejects, always sets the image-worker variable,
    and publishes exactly one thing: step [READY] (and then the stored
    manifest is not empty), or [REQUIREMENTS_NOT_MET], or [UNKNOWN]. *)
Theorem initialize_publishes_one_outcome :
  forall (World FileHandle : Type) (E : ErrorTable) (env : Env World FileHandle)
         (s : Sys World),
    result (initialize E env s) = inl tt /\
    imageWorker (store (final (initialize E env s))) = true /\
    ((steps_published (events (initialize E env s)) = [Step.READY] /\
      errors_published (events (initialize E env s)) = [] /\
      manifest (store (final (initialize E env s))) <> []) \/
     (steps_published (events (initialize E env s)) = [] /\
      errors_published (events (initialize E env s)) = [member E "REQUIREMENTS_NOT_MET"]) \/
     (steps_published (events (initialize E env s)) = [] /\
      errors_published (events (initialize E env s)) = [member E "UNKNOWN"])).
Proof.
  intros World FileHandle E env s.
  unfold initialize, bind, try_catch, assign, peek, await, step_set, error_set,
    update, result, final, events.
  cbn [store world].
  destruct (usb_defined env (world s)), (Worker_defined env (world s)),
    (Storage_defined env (world s)); cbn [negb orb store world];
    try (cbn; repeat split; right; left; split; reflexivity).
  destruct (init env (world s)) as [[[] | v] w1]; cbn;
    [| repeat split; right; right; split; reflexivity].
  destruct (loadManifest env w1) as [[[| i m] | v] w2]; cbn;
    repeat split; try (right; right; split; reflexivity).
  left. repeat split. discriminate.
Qed.

(** X2. When the browser lacks WebUSB, [Worker] or [Storage], [initialize]
    publishes [REQUIREMENTS_NOT_MET] and does nothing else observable: the
    worker is not initialised and no manifest is fetched; the worker
    reference is kept all the same, step and manifest stay as they were. *)
Theorem initialize_capability_gate :
  forall (World FileHandle : Type) (E : ErrorTable) (env : Env World FileHandle)
         (s : Sys World),
    usb_defined env (world s) && Worker_defined env (world s)
      && Storage_defined env (world s) = false ->
    events (initialize E env s) = [Set_error (member E "REQUIREMENTS_NOT_MET")] /\
    world (final (initialize E env s)) = world s /\
    imageWorker (store (final (initialize E env s))) = true /\
    step (store (final (initialize E env s))) = step (store s) /\
    manifest (store (final (initialize E env s))) = manifest (store s).
Proof.
  intros World FileHandle E env s Hcaps.
  rewrite (initialize_gate_run E env s Hcaps). repeat split.
Qed.

Lemma initialize_capability_gate_witness :
  usb_defined (Scenario.scripted Scenario.no_storage) (world (Scenario.fresh Error))
    && Worker_defined (Scenario.scripted Scenario.no_storage) (world (Scenario.fresh Error))
    && Storage_defined (Scenario.scripted Scenario.no_storage) (world (Scenario.fresh Error))
  = false /\
  events (initialize Error (Scenario.scripted Scenario.no_storage) (Scenario.fresh Error))
  = [Set_error (JNum 7)].
Proof.
  split; [reflexivity |].
  exact (proj1 (initialize_capability_gate nat unit Error
                  (Scenario.scripted Scenario.no_storage) (Scenario.fresh Error)
                  eq_refl)).
Defined.

(** X3. [initialize] publishes step [READY] exactly when the three
    capabilities are present, the worker initialises, and the manifest
    loads and is not empty; and whenever these conditions hold, it ends
    with that manifest stored, the step at [READY] and the error field
    left alone, having done nothing but initialise the worker, load the
    manifest and publish the step. *)
Theorem initialize_ready_iff :
  forall (World FileHandle : Type) (E : ErrorTable) (env : Env World FileHandle)
         (s : Sys World),
    (In (Set_step Step.READY) (events (initialize E env s)) <->
     usb_defined env (world s) && Worker_defined env (world s)
       && Storage_defined env (world s) = true /\
     exists w1 m w2,
       init env (world s) = (inl tt, w1) /\
       loadManifest env w1 = (inl m, w2) /\
       m <> []) /\
    (forall w1 m w2,
       usb_defined env (world s) && Worker_defined env (world s)
         && Storage_defined env (world s) = true ->
       init env (world s) = (inl tt, w1) ->
       loadManifest env w1 = (inl m, w2) ->
       m <> [] ->
       events (initialize E env s) = [Call_init; Call_loadManifest; Set_step Step.READY] /\
       manifest (store (final (initialize E env s))) = m /\
       step (store (final (initialize E env s))) = Step.READY /\
       error (store (final (initialize E env s))) = error (store s) /\
       world (final (initialize E env s)) = w2).
Proof.
  intros World FileHandle E env s. split; [split |].
  - destruct (usb_defined env (world s) && Worker_defined env (world s)
                && Storage_defined env (world s)) eqn:Hcaps.
    2:{ rewrite (initialize_gate_run E env s Hcaps). cbn.
        intros [H | []]. discriminate H. }
    destruct (init env (world s)) as [[[] | v] w1] eqn:Hinit.
    + destruct (loadManifest env w1) as [[m | v] w2] eqn:Hload.
      * destruct m as [| i m].
        -- destruct (initialize_failed_run E env s Hcaps) as (_ & Hev & _).
           { intros w1' m' w2' H1 H2. rewrite Hinit in H1. injection H1 as <-.
             rewrite Hload in H2. now injection H2 as <- _. }
           rewrite Hev, Hinit. cbn. intros [H | [H | [H | []]]]; discriminate H.
        -- intros _. split; [reflexivity |]. exists w1, (i :: m), w2.
           split; [reflexivity | split; [exact Hload | discriminate]].
      * destruct (initialize_failed_run E env s Hcaps) as (_ & Hev & _).
        { intros w1' m' w2' H1 H2. rewrite Hinit in H1. injection H1 as <-.
          rewrite Hload in H2. discriminate H2. }
        rewrite Hev, Hinit. cbn. intros [H | [H | [H | []]]]; discriminate H.
    + destruct (initialize_failed_run E env s Hcaps) as (_ & Hev & _).
      { intros w1' m' w2' H1 H2. rewrite Hinit in H1. discriminate H1. }
      rewrite Hev, Hinit. cbn. intros [H | [H | []]]; discriminate H.
  - intros (Hcaps & w1 & m & w2 & Hinit & Hload & Hm).
    rewrite (initialize_ready_run E env s w1 w2 m Hcaps Hinit Hload Hm).
    cbn. tauto.
  - intros w1 m w2 Hcaps Hinit Hload Hm.
    rewrite (initialize_ready_run E env s w1 w2 m Hcaps Hinit Hload Hm).
    repeat split.
Qed.

(** X4. An empty manifest is stored before it is refused: when the
    manifest loads as the empty list, [initialize] publishes [UNKNOWN],
    leaves the step alone, and the manifest held by the store is now empty
    whatever it held before. *)
Theorem initialize_empty_manifest_is_stored :
  forall (World FileHandle : Type) (E : ErrorTable) (env : Env World FileHandle)
         (s : Sys World) (w1 w2 : World),
    usb_defined env (world s) && Worker_defined env (world s)
      && Storage_defined env (world s) = true ->
    init env (world s) = (inl tt, w1) ->
    loadManifest env w1 = (inl [], w2) ->
    manifest (store (final (initialize E env s))) = [] /\
    error (store (final (initialize E env s))) = member E "UNKNOWN" /\
    step (store (final (initialize E env s))) = step (store s) /\
    events (initialize E env s) =
      [Call_init; Call_loadManifest; Set_error (member E "UNKNOWN")].
Proof.
  intros World FileHandle E env s w1 w2 Hcaps Hinit Hload.
  destruct (initialize_failed_run E env s Hcaps) as (_ & Hev & He & Hs & Hm).
  { intros w1' m' w2' H1 H2. rewrite Hinit in H1. injection H1 as <-.
    rewrite Hload in H2. now injection H2 as <- _. }
  rewrite Hm, Hev, Hinit. cbn [fst snd]. rewrite Hload. cbn.
  repeat split; assumption.
Qed.

Lemma initialize_empty_manifest_is_stored_witness :
  loadManifest (Scenario.scripted Faulty.no_images) 0%nat = (inl [], 0%nat) /\
  manifest (store (final
    (initialize Error (Scenario.scripted Faulty.no_images)
       (Scenario.initialized Error Scenario.happy)))) = [] /\
  manifest (store (Scenario.initialized Error Scenario.happy))
  = [Scenario.image "boot"].
Proof.
  split; [reflexivity |]. split; [| reflexivity].
  exact (proj1 (initialize_empty_manifest_is_stored nat unit Error
                  (Scenario.scripted Faulty.no_images)
                  (Scenario.initialized Error Scenario.happy)
                  0%nat 0%nat eq_refl eq_refl eq_refl)).
Defined.

(** ** [isRecognizedDevice] *)

(** X5. Recognition only looks at which names occur: a device whose
    partition names all occur in the list of a recognised device is
    recognised too, so any sub-list, reordering or repetition of a
    recognised list passes. *)
Theorem isRecognizedDevice_subset :
  forall (slotCount : Z) (partitions fewer : list string),
    (forall p, In p fewer -> In p partitions) ->
    isRecognizedDevice slotCount partitions = true ->
    isRecognizedDevice slotCount fewer = true.
Proof.
  intros slotCount partitions fewer Hsub. unfold isRecognizedDevice, every.
  destruct (negb (slotCount =? 2)); [discriminate |].
  destruct (forallb _ partitions) eqn:Hall; [intros _ | discriminate].
  rewrite forallb_forall in Hall.
  assert (Hf : forallb (fun partition => includes expectedPartitions partition) fewer
               = true).
  { apply forallb_forall. intros p Hp. apply Hall. now apply Hsub. }
  now rewrite Hf.
Qed.

Lemma isRecognizedDevice_subset_witness :
  isRecognizedDevice 2 ["xbl"; "boot"; "system"] = true /\
  isRecognizedDevice 2 ["system"; "system"; "xbl"] = true.
Proof.
  split; [reflexivity |].
  apply (isRecognizedDevice_subset 2 ["xbl"; "boot"; "system"] ["system"; "system"; "xbl"]);
    [| reflexivity].
  intros p Hp. cbn in *. tauto.
Defined.

(** ** What each phase is confined to *)

Section PhaseEvents.

Context {World FileHandle : Type}.
Variable E : ErrorTable.
Variable env : Env World FileHandle.

(** A store predicate that survives progress and message updates. *)
Variable I : Store -> Prop.
Hypothesis I_progress : forall q st, I st -> I (with_progress q st).
Hypothesis I_message : forall m st, I st -> I (with_message m st).

Ltac confined :=
  repeat (obeys_step; try reflexivity; try (intro; reflexivity);
          try apply I_progress; try apply I_message).

Lemma require_imageWorker_silent (Ev : Event -> Prop) :
  obeys I (fun _ => True) Ev (@require_imageWorker World).
Proof.
  unfold require_imageWorker. apply obeys_bind; [apply obeys_read | intros w].
  destruct (negb w); [now apply obeys_throw | apply obeys_ret].
Qed.

Lemma downloadImages_confined :
  (forall st, I st -> I (with_step Step.UNPACKING st)) ->
  obeys I (fun _ => True) (fun e => download_event e = true) (downloadImages E env).
Proof.
  intros Hstep.
  unfold downloadImages, setMessage, message_set, progress_set, step_set.
  apply obeys_bind; [apply require_imageWorker_silent | intros _].
  apply obeys_bind; [confined | intros _].
  apply obeys_try_catch with (R' := fun _ => True);
    [| intros v _; now apply obeys_throw].
  confined; auto.
Qed.

Lemma unpackImages_confined :
  (forall st, I st -> I (with_step Step.FLASHING st)) ->
  obeys I (fun _ => True) (fun e => unpack_event e = true) (unpackImages E env).
Proof.
  intros Hstep.
  unfold unpackImages, setMessage, message_set, progress_set, step_set.
  apply obeys_bind; [apply require_imageWorker_silent | intros _].
  apply obeys_bind; [confined | intros _].
  apply obeys_try_catch with (R' := fun _ => True).
  - confined; auto.
  - intros v _. unfold unpack_rethrow.
    destruct v as [| | z | msg | l c]; now apply obeys_throw.
Qed.

Lemma prefix_xbl (slot : string) : String.prefix "xbl_" ("xbl_" ++ slot)%string = true.
Proof. apply String.prefix_correct. cbn. now destruct slot. Qed.

Lemma flashDevice_confined :
  obeys I (fun _ => True) (fun e => flash_event e = true) (flashDevice E env).
Proof.
  unfold flashDevice, setMessage, message_set, progress_set.
  apply obeys_bind; [apply require_imageWorker_silent | intros _].
  apply obeys_bind; [confined | intros _].
  apply obeys_try_catch with (R' := fun _ => True);
    [| intros v _; now apply obeys_throw].
  apply obeys_bind; [confined; auto | intros currentSlot].
  apply obeys_bind;
    [destruct (negb _); [now apply obeys_throw | apply obeys_ret] | intros _].
  confined; auto.
  cbn [flash_event]. apply prefix_xbl.
Qed.

Lemma eraseDevice_confined :
  (forall st, I st -> I (with_connected false st)) ->
  obeys I (fun _ => True) (fun e => erase_event e = true) (eraseDevice E env).
Proof.
  intros Hconn.
  unfold eraseDevice, setMessage, message_set, progress_set, connected_set.
  apply obeys_bind; [confined | intros _].
  apply obeys_try_catch with (R' := fun _ => True);
    [| intros v _; now apply obeys_throw].
  confined; auto.
Qed.

End PhaseEvents.

(** X6. The download and unpack phases talk to the image worker only:
    every event of [downloadImages] is a progress or message update, a
    [downloadImage] call or the publication of step [UNPACKING], and
    likewise for [unpackImages] with [unpackImage] and [FLASHING].  Neither
    calls the device driver or touches error, connected, serial or the
    hooks. *)
Theorem worker_phases_confined :
  forall (World FileHandle : Type) (E : ErrorTable) (env : Env World FileHandle)
         (s : Sys World),
    Forall (fun e => download_event e = true) (events (downloadImages E env s)) /\
    Forall (fun e => unpack_event e = true) (events (unpackImages E env s)) /\
    device_ops (events (downloadImages E env s)) = [] /\
    device_ops (events (unpackImages E env s)) = [].
Proof.
  intros World FileHandle E env s.
  pose proof (proj2 (proj2 (downloadImages_confined E env (fun _ => True)
                              (fun _ _ _ => I) (fun _ _ _ => I) (fun _ _ => I) s I))) as Hd.
  pose proof (proj2 (proj2 (unpackImages_confined E env (fun _ => True)
                              (fun _ _ _ => I) (fun _ _ _ => I) (fun _ _ => I) s I))) as Hu.
  split; [exact Hd | split; [exact Hu | split]].
  - induction Hd as [| e l He _ IH]; [reflexivity |].
    destruct e; try discriminate He; exact IH.
  - induction Hu as [| e l He _ IH]; [reflexivity |].
    destruct e; try discriminate He; exact IH.
Qed.

(** X7. The flash and erase phases publish nothing but progress and
    messages, except that the erase phase may publish connected [false]:
    neither publishes a step or an error.  The only partition the flash
    phase erases is an [xbl_] one, and the only partition the erase phase
    writes is [userdata]. *)
Theorem device_phases_confined :
  forall (World FileHandle : Type) (E : ErrorTable) (env : Env World FileHandle)
         (s : Sys World),
    Forall (fun e => flash_event e = true) (events (flashDevice E env s)) /\
    Forall (fun e => erase_event e = true) (events (eraseDevice E env s)) /\
    steps_published (events (flashDevice E env s)) = [] /\
    steps_published (events (eraseDevice E env s)) = [] /\
    errors_published (events (flashDevice E env s)) = [] /\
    errors_published (events (eraseDevice E env s)) = [].
Proof.
  intros World FileHandle E env s.
  pose proof (proj2 (proj2 (flashDevice_confined E env (fun _ => True)
                              (fun _ _ _ => I) (fun _ _ _ => I) s I))) as Hf.
  pose proof (proj2 (proj2 (eraseDevice_confined E env (fun _ => True)
                              (fun _ _ _ => I) (fun _ _ _ => I) (fun _ _ => I) s I))) as He.
  split; [exact Hf | split; [exact He |]].
  repeat split.
  - induction Hf as [| e l H _ IH]; [reflexivity |].
    destruct e; try discriminate H; exact IH.
  - induction He as [| e l H _ IH]; [reflexivity |].
    destruct e; try discriminate H; exact IH.
  - induction Hf as [| e l H _ IH]; [reflexivity |].
    destruct e; try discriminate H; exact IH.
  - induction He as [| e l H _ IH]; [reflexivity |].
    destruct e; try discriminate H; exact IH.
Qed.

(** ** The download and unpack phases, image by image *)

Lemma downloads_requested_app (l1 l2 : list Event) :
  downloads_requested (l1 ++ l2) = downloads_requested l1 ++ downloads_requested l2.
Proof.
  induction l1 as [| e l1 IH]; [reflexivity |].
  destruct e; cbn; now rewrite ?IH.
Qed.

Lemma unpacks_requested_app (l1 l2 : list Event) :
  unpacks_requested (l1 ++ l2) = unpacks_requested l1 ++ unpacks_requested l2.
Proof.
  induction l1 as [| e l1 IH]; [reflexivity |].
  destruct e; cbn; now rewrite ?IH.
Qed.

Lemma steps_published_app (l1 l2 : list Event) :
  steps_published (l1 ++ l2) = steps_published l1 ++ steps_published l2.
Proof.
  induction l1 as [| e l1 IH]; [reflexivity |].
  destruct e; cbn; now rewrite ?IH.
Qed.

Section Loops.

Context {World : Type}.

(** A loop whose body always leaves exactly the trace [W x] under a view
    [proj] of the events leaves the trace of an initial segment of the
    items, and of all of them when it returns. *)
Lemma for_await_of_collects {A B} (proj : list Event -> list B) (W : A -> B)
      (body : A -> M World unit) :
  (forall l1 l2, proj (l1 ++ l2) = proj l1 ++ proj l2) ->
  proj [] = [] ->
  (forall x s r s' l, body x s = (r, s', l) -> proj l = [W x]) ->
  forall items s r s' l,
    for_await_of items body s = (r, s', l) ->
    initial_segment (proj l) (map W items) /\
    (r = inl tt -> proj l = map W items).
Proof.
  intros Happ Hnil Hbody. induction items as [| x items IH]; intros s r s' l Hrun.
  - cbn in Hrun. injection Hrun as <- <- <-. rewrite Hnil. cbn.
    split; [now exists [] | reflexivity].
  - cbn [for_await_of] in Hrun. cbn [map].
    apply bind_inv in Hrun
      as [(a & s1 & l1 & l2 & Hx & Hrest & ->) | (v & Hx & ->)].
    + rewrite Happ, (Hbody _ _ _ _ _ Hx). cbn [app].
      destruct (IH _ _ _ _ Hrest) as [[rest Hseg] Hall]. split.
      * exists rest. now rewrite Hseg.
      * intros Hr. now rewrite (Hall Hr).
    + rewrite (Hbody _ _ _ _ _ Hx). split; [now exists (map W items) | discriminate].
Qed.

End Loops.

Section WorkerPhases.

Context {World FileHandle : Type}.
Variable E : ErrorTable.
Variable env : Env World FileHandle.

(** The loop of a worker phase publishes no step and leaves the step
    field alone. *)
Lemma worker_loop_keeps_step (z : Z) (ev : ManifestImage -> Event)
      (call : ManifestImage -> World -> Reporting World unit)
      (label : string) (items : list ManifestImage) :
  (forall i, steps_published [ev i] = []) ->
  obeys (fun st => step st = z) (fun _ => True) (fun e => steps_published [e] = [])
        (for_await_of items (fun image =>
           setMessage (label ++ name image)%string ;;
           await_reporting (ev image) (call image))).
Proof.
  intros Hev. apply obeys_for_await_of. intros image.
  unfold setMessage, message_set.
  repeat (obeys_step; try reflexivity; try (intros; assumption); try (intro; reflexivity));
    auto.
Qed.

Lemma quiet_events_no_step (l : list Event) :
  Forall (fun e => steps_published [e] = []) l -> steps_published l = [].
Proof.
  induction 1 as [| e l He _ IH]; [reflexivity |].
  change (e :: l) with ([e] ++ l). now rewrite steps_published_app, He, IH.
Qed.

(** A worker loop that throws threw what the worker rejected with, on the
    image it stopped at; the images requested are those up to that one. *)
Lemma worker_loop_failure {B} (proj : list Event -> list B) (W : ManifestImage -> B)
      (ev : ManifestImage -> Event)
      (call : ManifestImage -> World -> Reporting World unit) (label : string) :
  (forall l1 l2, proj (l1 ++ l2) = proj l1 ++ proj l2) ->
  (forall i msg reports,
      proj (Set_message msg :: ev i :: map Set_progress reports) = [W i]) ->
  forall items s v s' l,
    for_await_of items (fun image =>
      setMessage (label ++ name image)%string ;;
      await_reporting (ev image) (call image)) s = (inr v, s', l) ->
    exists before image after w reports,
      items = before ++ image :: after /\
      call image w = (reports, (inr v, world s')) /\
      proj l = map W (before ++ [image]).
Proof.
  intros Happ Hone. induction items as [| x items IH]; intros s v s' l Hrun.
  - discriminate Hrun.
  - cbn [for_await_of] in Hrun.
    apply bind_inv in Hrun
      as [(a & s1 & l1 & l2 & Hx & Hrest & ->) | (v' & Hx & Hr)].
    + destruct (IH _ _ _ _ Hrest) as (before & image & after & w & reports & -> & Hc & Hp).
      exists (x :: before), image, after, w, reports.
      repeat split; [exact Hc |].
      apply bind_inv in Hx as [(u & t1 & k1 & k2 & Hm & Hx & ->) | (v' & Hm & Hr)];
        [| discriminate Hm].
      cbn in Hm. injection Hm as _ _ <-.
      apply await_reporting_inv in Hx as (reports' & _ & _ & ->).
      rewrite Happ. cbn [app]. rewrite Hone, Hp. reflexivity.
    + injection Hr as <-.
      apply bind_inv in Hx as [(u & t1 & k1 & k2 & Hm & Hx & ->) | (v' & Hm & Hr)];
        [| discriminate Hm].
      cbn in Hm. injection Hm as _ <- <-.
      apply await_reporting_inv in Hx as (reports & Hc & _ & ->).
      exists [], x, items, (world s), reports. cbn [app].
      repeat split; [exact Hc | apply Hone].
Qed.

Lemma downloads_requested_call (i : ManifestImage) (msg : string) (reports : list Q) :
  downloads_requested (Set_message msg :: Call_downloadImage i :: map Set_progress reports)
  = [name i].
Proof. cbn. f_equal. induction reports; [reflexivity | assumption]. Qed.

Lemma unpacks_requested_call (i : ManifestImage) (msg : string) (reports : list Q) :
  unpacks_requested (Set_message msg :: Call_unpackImage i :: map Set_progress reports)
  = [name i].
Proof. cbn. f_equal. induction reports; [reflexivity | assumption]. Qed.

Lemma downloadImages_shape (s s' : Sys World) (r : unit + JsVal) (l : list Event) :
  imageWorker (store s) = true ->
  downloadImages E env s = (r, s', l) ->
  initial_segment (downloads_requested l) (map name (manifest (store s))) /\
  ((r = inl tt /\
    downloads_requested l = map name (manifest (store s)) /\
    steps_published l = [Step.UNPACKING] /\
    step (store s') = Step.UNPACKING) \/
   (r = inr (member E "DOWNLOAD_FAILED") /\
    steps_published l = [] /\
    step (store s') = step (store s) /\
    exists before image after w reports failure,
      manifest (store s) = before ++ image :: after /\
      downloadImage env image w = (reports, (inr failure, world s')) /\
      downloads_requested l = map name (before ++ [image]))).
Proof.
  intros Hw Hrun. unfold downloadImages in Hrun.
  apply bind_inv in Hrun as [(a & s1 & l1 & l2 & Hreq & Hrun & ->) | (v & Hreq & ->)];
    rewrite (require_imageWorker_run s Hw) in Hreq; [| discriminate].
  injection Hreq as <- <- <-. cbn [app].
  apply bind_inv in Hrun as [(a' & s1 & l1 & l2' & Hp & Hrun & ->) | (v & Hp & ->)];
    [| discriminate].
  cbn in Hp. injection Hp as <- <- <-.
  assert (Hbody : forall rb sb lb,
             for_await_of (manifest (store s))
               (fun image =>
                  setMessage ("Downloading " ++ name image)%string ;;
                  await_reporting (Call_downloadImage image) (downloadImage env image))
               (Build_Sys (with_progress (0 # 1) (store s)) (world s)) = (rb, sb, lb) ->
             initial_segment (downloads_requested lb) (map name (manifest (store s))) /\
             (rb = inl tt -> downloads_requested lb = map name (manifest (store s))) /\
             steps_published lb = [] /\ step (store sb) = step (store s)).
  { intros rb sb lb Hl.
    destruct (for_await_of_collects downloads_requested name _
                downloads_requested_app eq_refl
                (fun x t rx tx lx (Hx : (setMessage ("Downloading " ++ name x)%string ;;
                                         await_reporting (Call_downloadImage x)
                                                         (downloadImage env x)) t
                                        = (rx, tx, lx)) =>
                   ltac:(apply bind_inv in Hx
                           as [(u & t1 & k1 & k2 & Hm & Hx & ->) | (v & Hm & ->)];
                           [| discriminate];
                         cbn in Hm; injection Hm as _ _ <-;
                         apply await_reporting_inv in Hx as (reports & _ & _ & ->);
                         cbn; clear; induction reports; [reflexivity | assumption]))
                _ _ _ _ _ Hl) as [Hseg Hall].
    destruct (obeys_run _ _ _ _ _ _ _ _
                (worker_loop_keeps_step (step (store s)) Call_downloadImage
                   (downloadImage env) "Downloading " (manifest (store s))
                   (fun _ => eq_refl))
                Hl eq_refl) as (Hst & _ & Hev).
    repeat split; [exact Hseg | exact Hall | now apply quiet_events_no_step | exact Hst]. }
  apply try_catch_inv in Hrun
    as [(a & Hb & ->) | (v & sb & lb & lh & Hb & Hh & ->)].
  - apply bind_inv in Hb as [(m & t1 & k1 & k2 & Hm & Hb & ->) | (v & Hm & ->)];
      [| discriminate].
    cbn in Hm. injection Hm as <- <- <-.
    apply bind_inv in Hb as [(u & t2 & k3 & k4 & Hl & Hb & ->) | (v & Hl & Hr)];
      [| discriminate Hr].
    destruct (Hbody _ _ _ Hl) as (Hseg & Hall & Hns & Hst). destruct u.
    cbn in Hb. injection Hb as <- <- <-. cbn [app downloads_requested steps_published].
    rewrite downloads_requested_app, steps_published_app, Hns, (Hall eq_refl).
    cbn. rewrite app_nil_r.
    split; [exists []; now rewrite app_nil_r |]. left. now repeat split.
  - cbn in Hh. injection Hh as <- <- <-. rewrite app_nil_r. cbn [app].
    apply bind_inv in Hb as [(m & t1 & k1 & k2 & Hm & Hb & ->) | (v' & Hm & Hr)];
      [| discriminate Hm].
    cbn in Hm. injection Hm as <- <- <-.
    apply bind_inv in Hb as [(u & t2 & k3 & k4 & Hl & Hb & ->) | (v' & Hl & Hr)];
      [discriminate Hb |].
    destruct (Hbody _ _ _ Hl) as (Hseg & Hall & Hns & Hst).
    destruct (worker_loop_failure downloads_requested name Call_downloadImage
                (downloadImage env) "Downloading " downloads_requested_app
                downloads_requested_call _ _ _ _ _ Hl)
      as (before & image & after & w & reports & Hsplit & Hc & Hp).
    cbn. split; [exact Hseg |]. right.
    split; [reflexivity | split; [exact Hns | split; [exact Hst |]]].
    now exists before, image, after, w, reports, v'.
Qed.

Lemma unpackImages_shape (s s' : Sys World) (r : unit + JsVal) (l : list Event) :
  imageWorker (store s) = true ->
  unpackImages E env s = (r, s', l) ->
  initial_segment (unpacks_requested l) (map name (manifest (store s))) /\
  ((r = inl tt /\
    unpacks_requested l = map name (manifest (store s)) /\
    steps_published l = [Step.FLASHING] /\
    step (store s') = Step.FLASHING) \/
   (steps_published l = [] /\
    step (store s') = step (store s) /\
    exists before image after w reports failure,
      manifest (store s) = before ++ image :: after /\
      unpackImage env image w = (reports, (inr failure, world s')) /\
      unpacks_requested l = map name (before ++ [image]) /\
      unpack_rethrow E failure s' = (r, s', []))).
Proof.
  intros Hw Hrun. unfold unpackImages in Hrun.
  apply bind_inv in Hrun as [(a & s1 & l1 & l2 & Hreq & Hrun & ->) | (v & Hreq & ->)];
    rewrite (require_imageWorker_run s Hw) in Hreq; [| discriminate].
  injection Hreq as <- <- <-. cbn [app].
  apply bind_inv in Hrun as [(a' & s1 & l1 & l2' & Hp & Hrun & ->) | (v & Hp & ->)];
    [| discriminate].
  cbn in Hp. injection Hp as <- <- <-.
  assert (Hbody : forall rb sb lb,
             for_await_of (manifest (store s))
               (fun image =>
                  setMessage ("Unpacking " ++ name image)%string ;;
                  await_reporting (Call_unpackImage image) (unpackImage env image))
               (Build_Sys (with_progress (0 # 1) (store s)) (world s)) = (rb, sb, lb) ->
             initial_segment (unpacks_requested lb) (map name (manifest (store s))) /\
             (rb = inl tt -> unpacks_requested lb = map name (manifest (store s))) /\
             steps_published lb = [] /\ step (store sb) = step (store s)).
  { intros rb sb lb Hl.
    destruct (for_await_of_collects unpacks_requested name _
                unpacks_requested_app eq_refl
                (fun x t rx tx lx (Hx : (setMessage ("Unpacking " ++ name x)%string ;;
                                         await_reporting (Call_unpackImage x)
                                                         (unpackImage env x)) t
                                        = (rx, tx, lx)) =>
                   ltac:(apply bind_inv in Hx
                           as [(u & t1 & k1 & k2 & Hm & Hx & ->) | (v & Hm & ->)];
                           [| discriminate];
                         cbn in Hm; injection Hm as _ _ <-;
                         apply await_reporting_inv in Hx as (reports & _ & _ & ->);
                         cbn; clear; induction reports; [reflexivity | assumption]))
                _ _ _ _ _ Hl) as [Hseg Hall].
    destruct (obeys_run _ _ _ _ _ _ _ _
                (worker_loop_keeps_step (step (store s)) Call_unpackImage
                   (unpackImage env) "Unpacking " (manifest (store s))
                   (fun _ => eq_refl))
                Hl eq_refl) as (Hst & _ & Hev).
    repeat split; [exact Hseg | exact Hall | now apply quiet_events_no_step | exact Hst]. }
  apply try_catch_inv in Hrun
    as [(a & Hb & ->) | (v & sb & lb & lh & Hb & Hh & ->)].
  - apply bind_inv in Hb as [(m & t1 & k1 & k2 & Hm & Hb & ->) | (v & Hm & ->)];
      [| discriminate].
    cbn in Hm. injection Hm as <- <- <-.
    apply bind_inv in Hb as [(u & t2 & k3 & k4 & Hl & Hb & ->) | (v & Hl & Hr)];
      [| discriminate Hr].
    destruct (Hbody _ _ _ Hl) as (Hseg & Hall & Hns & Hst). destruct u.
    cbn in Hb. injection Hb as <- <- <-. cbn [app unpacks_requested steps_published].
    rewrite unpacks_requested_app, steps_published_app, Hns, (Hall eq_refl).
    cbn. rewrite app_nil_r.
    split; [exists []; now rewrite app_nil_r |]. left. now repeat split.
  - assert (Hthrow : unpack_rethrow E v sb = (r, s', lh) ->
                     unpack_rethrow E v sb = (r, sb, []) /\ s' = sb /\ lh = []).
    { destruct v; cbn; intros [= <- <- <-]; repeat split. }
    destruct (Hthrow Hh) as (Hh' & -> & ->). clear Hthrow Hh.
    rewrite app_nil_r. cbn [app].
    apply bind_inv in Hb as [(m & t1 & k1 & k2 & Hm & Hb & ->) | (v' & Hm & Hr)];
      [| discriminate Hm].
    cbn in Hm. injection Hm as <- <- <-.
    apply bind_inv in Hb as [(u & t2 & k3 & k4 & Hl & Hb & ->) | (v' & Hl & Hr)];
      [discriminate Hb |].
    destruct (Hbody _ _ _ Hl) as (Hseg & Hall & Hns & Hst).
    destruct (worker_loop_failure unpacks_requested name Call_unpackImage
                (unpackImage env) "Unpacking " unpacks_requested_app
                unpacks_requested_call _ _ _ _ _ Hl)
      as (before & image & after & w & reports & Hsplit & Hc & Hp).
    injection Hr as <-.
    cbn. split; [exact Hseg |]. right.
    split; [exact Hns | split; [exact Hst |]].
    now exists before, image, after, w, reports, v.
Qed.

End WorkerPhases.

(** X8. With the image worker set, [downloadImages] asks for the manifest
    images in manifest order.  When it returns, every image was asked for
    and step [UNPACKING] is the one step it published.  When it throws, it
    throws [DOWNLOAD_FAILED], publishes no step and leaves the step field
    alone; the worker rejected the download of some image of the manifest,
    and the images asked for are exactly those up to and including that
    one. *)
Theorem downloadImages_in_manifest_order :
  forall (World FileHandle : Type) (E : ErrorTable) (env : Env World FileHandle)
         (s : Sys World),
    imageWorker (store s) = true ->
    (result (downloadImages E env s) = inl tt ->
     downloads_requested (events (downloadImages E env s))
       = map name (manifest (store s)) /\
     steps_published (events (downloadImages E env s)) = [Step.UNPACKING]) /\
    (forall v, result (downloadImages E env s) = inr v ->
       v = member E "DOWNLOAD_FAILED" /\
       steps_published (events (downloadImages E env s)) = [] /\
       step (store (final (downloadImages E env s))) = step (store s) /\
       exists before image after,
         manifest (store s) = before ++ image :: after /\
         downloads_requested (events (downloadImages E env s))
           = map name (before ++ [image]) /\
         exists w reports failure w',
           downloadImage env image w = (reports, (inr failure, w'))).
Proof.
  intros World FileHandle E env s Hw.
  destruct (downloadImages E env s) as [[r s'] l] eqn:Hrun.
  destruct (downloadImages_shape E env s s' r l Hw Hrun)
    as [_ [(-> & Hall & Hst & _) | (-> & Hns & Hstep & Hfail)]];
    unfold result, final, events; cbn [fst snd]; split.
  - intros _. now split.
  - discriminate.
  - discriminate.
  - intros v [= <-].
    destruct Hfail as (before & image & after & w & reports & failure & Hm & Hc & Hp).
    repeat split; try assumption.
    exists before, image, after. repeat split; try assumption.
    now exists w, reports, failure, (world s').
Qed.

Lemma downloadImages_in_manifest_order_witness :
  imageWorker (store (Scenario.initialized Error Scenario.download_fails)) = true /\
  steps_published (events
    (downloadImages Error (Scenario.scripted Scenario.download_fails)
       (Scenario.initialized Error Scenario.download_fails))) = [].
Proof.
  split; [reflexivity |].
  exact (proj1 (proj2 (proj2 (downloadImages_in_manifest_order nat unit Error
                  (Scenario.scripted Scenario.download_fails)
                  (Scenario.initialized Error Scenario.download_fails)
                  eq_refl) (JNum 3) eq_refl))).
Defined.

(** X9. With the image worker set, [unpackImages] asks for the manifest
    images in manifest order.  When it returns, every image was asked for
    and step [FLASHING] is the one step it published.  When it throws, the
    worker rejected the unpacking of some image of the manifest, nothing
    after that image was asked for, no step was published, and for a
    rejection with a message the value thrown is [CHECKSUM_MISMATCH] when
    the message starts with "Checksum mismatch" and the table's
    [UNPACK_FAILED] entry otherwise. *)
Theorem unpackImages_in_manifest_order :
  forall (World FileHandle : Type) (E : ErrorTable) (env : Env World FileHandle)
         (s : Sys World),
    imageWorker (store s) = true ->
    (result (unpackImages E env s) = inl tt ->
     unpacks_requested (events (unpackImages E env s))
       = map name (manifest (store s)) /\
     steps_published (events (unpackImages E env s)) = [Step.FLASHING]) /\
    (forall v, result (unpackImages E env s) = inr v ->
       steps_published (events (unpackImages E env s)) = [] /\
       step (store (final (unpackImages E env s))) = step (store s) /\
       exists before image after failure,
         manifest (store s) = before ++ image :: after /\
         unpacks_requested (events (unpackImages E env s))
           = map name (before ++ [image]) /\
         (exists w reports w',
             unpackImage env image w = (reports, (inr failure, w'))) /\
         (forall msg, failure = JStr msg ->
            v = if String.prefix "Checksum mismatch" msg
                then member E "CHECKSUM_MISMATCH"
                else member E "UNPACK_FAILED")).
Proof.
  intros World FileHandle E env s Hw.
  destruct (unpackImages E env s) as [[r s'] l] eqn:Hrun.
  destruct (unpackImages_shape E env s s' r l Hw Hrun)
    as [_ [(-> & Hall & Hst & _) | (Hns & Hstep & Hfail)]];
    unfold result, final, events; cbn [fst snd]; split.
  - intros _. now split.
  - discriminate.
  - intros ->.
    destruct Hfail as (before & image & after & w & reports & failure & _ & _ & _ & Hr).
    destruct failure; discriminate Hr.
  - intros v ->.
    destruct Hfail
      as (before & image & after & w & reports & failure & Hm & Hc & Hp & Hr).
    repeat split; try assumption.
    exists before, image, after, failure. repeat split; try assumption.
    + now exists w, reports, (world s').
    + intros msg ->. cbn in Hr. now injection Hr as <-.
Qed.

Lemma unpackImages_in_manifest_order_witness :
  imageWorker (store (final
    (downloadImages Error (Scenario.scripted Faulty.checksum_fails)
       (Scenario.initialized Error Faulty.checksum_fails)))) = true /\
  unpacks_requested (events
    (unpackImages Error (Scenario.scripted Faulty.checksum_fails)
       (final (downloadImages Error (Scenario.scripted Faulty.checksum_fails)
                 (Scenario.initialized Error Faulty.checksum_fails)))))
  = ["boot"; "system"] /\
  result
    (unpackImages Error (Scenario.scripted Faulty.checksum_fails)
       (final (downloadImages Error (Scenario.scripted Faulty.checksum_fails)
                 (Scenario.initialized Error Faulty.checksum_fails))))
  = inr (JNum 4).
Proof.
  split; [reflexivity |]. split; [| vm_compute; reflexivity].
  destruct (proj2 (unpackImages_in_manifest_order nat unit Error
              (Scenario.scripted Faulty.checksum_fails)
              (final (downloadImages Error (Scenario.scripted Faulty.checksum_fails)
                        (Scenario.initialized Error Faulty.checksum_fails)))
              eq_refl) (JNum 4))
    as (_ & _ & before & image & after & failure & _ & Hp & _).
  - vm_compute. reflexivity.
  - vm_compute. reflexivity.
Defined.

(** ** The erase phase when the device fails *)

Section EraseCases.

Context {World FileHandle : Type}.
Variable E : ErrorTable.
Variable env : Env World FileHandle.

(** The three runs of [eraseDevice], by what the device answers. *)
Lemma eraseDevice_cases (s : Sys World) :
  let wiped := with_message "Erasing userdata" (with_progress (0 # 1) (store s)) in
  let start := [ Set_progress (0 # 1); Set_message "Erasing userdata";
                 Call_flashBlob "userdata" erase_payload ] in
  match snd (flashBlob env "userdata" erase_payload (world s)) with
  | (inr _, w1) =>
      eraseDevice E env s =
      (inr (member E "ERASE_FAILED"), Build_Sys wiped w1, start)
  | (inl _, w1) =>
      let rebooting := with_message "Rebooting" (with_progress (9 # 10) wiped) in
      let upto := start ++ [Set_progress (9 # 10); Set_message "Rebooting"; Call_reset] in
      match reset env w1 with
      | (inr _, w2) =>
          eraseDevice E env s =
          (inr (member E "ERASE_FAILED"), Build_Sys rebooting w2, upto)
      | (inl _, w2) =>
          eraseDevice E env s =
          (inl tt,
           Build_Sys (with_connected false (with_progress (1 # 1) rebooting)) w2,
           upto ++ [Set_progress (1 # 1); Set_connected false])
      end
  end.
Proof.
  unfold eraseDevice, try_catch, bind, setMessage, message_set, progress_set,
    connected_set, update, await, throw.
  cbn [store world fst snd].
  destruct (flashBlob env "userdata" erase_payload (world s)) as [reports [[[] | v] w1]];
    cbn [store world fst snd]; [| reflexivity].
  destruct (reset env w1) as [[[] | v] w2]; reflexivity.
Qed.

End EraseCases.

(** X10. The reset is issued exactly when the device accepted the
    user-data wipe.  When [eraseDevice] throws it throws [ERASE_FAILED],
    never publishes connected, and leaves progress at 0.9 when the reset
    was issued and at 0 when it was not; when it returns, connected is
    [false] and progress is 1. *)
Theorem eraseDevice_reset_only_after_wipe :
  forall (World FileHandle : Type) (E : ErrorTable) (env : Env World FileHandle)
         (s : Sys World),
    (In Call_reset (events (eraseDevice E env s)) <->
     exists w1, snd (flashBlob env "userdata" erase_payload (world s)) = (inl tt, w1)) /\
    (forall v, result (eraseDevice E env s) = inr v ->
       v = member E "ERASE_FAILED" /\
       connected_published (events (eraseDevice E env s)) = [] /\
       connected (store (final (eraseDevice E env s))) = connected (store s) /\
       ((In Call_reset (events (eraseDevice E env s)) /\
         progress (store (final (eraseDevice E env s))) = 9 # 10) \/
        (~ In Call_reset (events (eraseDevice E env s)) /\
         progress (store (final (eraseDevice E env s))) = 0 # 1))) /\
    (result (eraseDevice E env s) = inl tt ->
     connected (store (final (eraseDevice E env s))) = false /\
     progress (store (final (eraseDevice E env s))) = 1 # 1).
Proof.
  intros World FileHandle E env s.
  pose proof (eraseDevice_cases E env s) as H. cbv zeta in H.
  destruct (snd (flashBlob env "userdata" erase_payload (world s)))
    as [[[] | v] w1] eqn:Hwipe.
  - destruct (reset env w1) as [[[] | v] w2]; rewrite H;
      unfold result, final, events; cbn [fst snd].
    + split; [split; [intros _; now exists w1 | intros _; cbn; tauto] |].
      split; [discriminate | intros _; split; reflexivity].
    + split; [split; [intros _; now exists w1 | intros _; cbn; tauto] |].
      split; [| discriminate].
      intros v' [= <-]. repeat split. left. split; [cbn; tauto | reflexivity].
  - rewrite H. unfold result, final, events. cbn [fst snd].
    assert (Hno : ~ In Call_reset
                    [Set_progress (0 # 1); Set_message "Erasing userdata";
                     Call_flashBlob "userdata" erase_payload]).
    { intros [Hx | [Hx | [Hx | []]]]; discriminate Hx. }
    split; [split; [intros Hx; contradiction | intros [w1' Hx]; discriminate Hx] |].
    split; [| discriminate].
    intros v' [= <-]. repeat split. right. split; [exact Hno | reflexivity].
Qed.

(** ** The slot switch *)

Lemma switch_closes_the_plan (ops rest before : list DeviceOp) (x other : string) :
  In (Switched x) ops ->
  (forall y, ~ In (Switched y) before) ->
  before ++ [Switched other] = ops ++ rest ->
  rest = [] /\ x = other.
Proof.
  revert ops. induction before as [| a before IH]; intros ops Hin Hno Heq.
  - destruct ops as [| b ops]; [contradiction |].
    cbn in Heq. injection Heq as <- Hnil.
    symmetry in Hnil. apply app_eq_nil in Hnil as [-> ->].
    destruct Hin as [[= ->] | []]. now split.
  - destruct ops as [| b ops]; [contradiction |].
    cbn in Heq. injection Heq as <- Heq.
    destruct Hin as [Ha | Hin].
    + exfalso. apply (Hno x). left. now symmetry.
    + apply (IH ops Hin); [| exact Heq].
      intros y Hy. apply (Hno y). now right.
Qed.

(** X11. The flash phase switches the active slot last and only once
    everything before went through: whenever [setActiveSlot] is called,
    the bootloader erase and the write of every manifest image, in
    manifest order, were issued before it, and the slot switched to is the
    other one. *)
Theorem flashDevice_switch_is_last :
  forall (World FileHandle : Type) (E : ErrorTable) (env : Env World FileHandle)
         (s : Sys World) (currentSlot x : string) (w : World),
    imageWorker (store s) = true ->
    getActiveSlot env (world s) = (inl currentSlot, w) ->
    In (Switched x) (device_ops (events (flashDevice E env s))) ->
    (currentSlot = "a" /\ x = "b" \/ currentSlot = "b" /\ x = "a") /\
    device_ops (events (flashDevice E env s)) =
      Erased ("xbl_" ++ currentSlot)%string
      :: map (fun image => Written (name image ++ "_" ++ x)%string) (manifest (store s))
      ++ [Switched x].
Proof.
  intros World FileHandle E env s currentSlot x w Hw Hslot.
  destruct (flashDevice E env s) as [[r s'] l] eqn:Hrun.
  unfold events. cbn [snd]. intros Hin.
  destruct (includes ["a"; "b"] currentSlot) eqn:Hinc.
  - destruct (flashDevice_plan E env s s' currentSlot w r l Hw Hslot Hinc Hrun)
      as [[rest Hplan] _].
    unfold flash_plan in Hplan.
    destruct (device_ops l) as [| o ops] eqn:Hops; [contradiction |].
    cbn [app] in Hplan. injection Hplan as <- Hplan.
    destruct Hin as [Hx | Hin]; [discriminate Hx |].
    assert (Hno : forall y,
               ~ In (Switched y)
                    (map (fun image : ManifestImage =>
                            Written (name image ++ "_" ++
                                     (if String.eqb currentSlot "a" then "b" else "a"))%string)
                         (manifest (store s)))).
    { intros y Hy. apply in_map_iff in Hy as (i & Hi & _). discriminate Hi. }
    destruct (switch_closes_the_plan ops rest _ x _ Hin Hno Hplan) as [-> ->].
    rewrite app_nil_r in Hplan. rewrite <- Hplan. split; [| reflexivity].
    apply includes_a_b in Hinc as [-> | ->]; cbn; tauto.
  - exfalso. unfold flashDevice, bind, try_catch in Hrun.
    rewrite (require_imageWorker_run s Hw) in Hrun.
    unfold progress_set, update, await in Hrun. cbn [store world] in Hrun.
    rewrite Hslot, Hinc in Hrun. cbn in Hrun.
    injection Hrun as _ _ <-. cbn in Hin. exact Hin.
Qed.

Lemma flashDevice_switch_is_last_witness :
  imageWorker (store (Scenario.initialized Error Scenario.happy_b)) = true /\
  device_ops (events (flashDevice Error (Scenario.scripted Scenario.happy_b)
                                  (Scenario.initialized Error Scenario.happy_b)))
  = [Erased "xbl_b"; Written "boot_a"; Written "system_a"; Switched "a"].
Proof.
  split; [reflexivity |].
  refine (proj2 (flashDevice_switch_is_last nat unit Error
                   (Scenario.scripted Scenario.happy_b)
                   (Scenario.initialized Error Scenario.happy_b)
                   "b" "a" 0%nat eq_refl eq_refl _)).
  cbn. tauto.
Defined.

(** X12. With an empty manifest the flash phase still erases the
    bootloader of the current slot and, when that and the switch succeed,
    makes the other slot active although nothing was written to it: from
    slot [a] it erases [xbl_a] and switches to [b], from slot [b] it erases
    [xbl_b] and switches to [a], and it returns. *)
Theorem flashDevice_empty_manifest :
  forall (World FileHandle : Type) (E : ErrorTable) (env : Env World FileHandle)
         (s : Sys World) (currentSlot otherSlot : string) (w w1 w2 : World),
    imageWorker (store s) = true ->
    manifest (store s) = [] ->
    currentSlot = "a" /\ otherSlot = "b" \/ currentSlot = "b" /\ otherSlot = "a" ->
    getActiveSlot env (world s) = (inl currentSlot, w) ->
    erase env ("xbl_" ++ currentSlot)%string w = (inl tt, w1) ->
    setActiveSlot env otherSlot w1 = (inl tt, w2) ->
    result (flashDevice E env s) = inl tt /\
    events (flashDevice E env s) =
      [ Set_progress (0 # 1); Call_getActiveSlot;
        Call_erase ("xbl_" ++ currentSlot)%string;
        Set_message ("Changing slot to " ++ otherSlot)%string;
        Call_setActiveSlot otherSlot ] /\
    world (final (flashDevice E env s)) = w2.
Proof.
  intros World FileHandle E env s currentSlot otherSlot w w1 w2
         Hw Hm Hslots Hslot Herase Hswitch.
  unfold flashDevice, bind, try_catch.
  rewrite (require_imageWorker_run s Hw).
  unfold progress_set, setMessage, message_set, update, await, read, ret.
  cbn [store world]. rewrite Hslot.
  destruct Hslots as [[-> ->] | [-> ->]];
    cbn [includes existsb String.eqb Ascii.eqb Bool.eqb orb negb store world];
    cbn; cbn in Herase; rewrite Herase; cbn; rewrite Hm; cbn; rewrite Hswitch;
    repeat split.
Qed.

Lemma flashDevice_empty_manifest_witness :
  manifest (store (Scenario.initialized Error Scenario.no_storage)) = [] /\
  device_ops (events (flashDevice Error (Scenario.scripted Scenario.no_storage)
                                  (Scenario.initialized Error Scenario.no_storage)))
  = [Erased "xbl_a"; Switched "b"] /\
  device_ops (events (flashDevice Error (Scenario.scripted Faulty.no_images_b)
                                  (Scenario.initialized Error Faulty.no_images_b)))
  = [Erased "xbl_b"; Switched "a"].
Proof.
  split; [reflexivity |]. split.
  - rewrite (proj1 (proj2 (flashDevice_empty_manifest nat unit Error
               (Scenario.scripted Scenario.no_storage)
               (Scenario.initialized Error Scenario.no_storage)
               "a" "b" 0%nat 0%nat 0%nat eq_refl eq_refl
               (or_introl (conj eq_refl eq_refl)) eq_refl eq_refl eq_refl))).
    reflexivity.
  - rewrite (proj1 (proj2 (flashDevice_empty_manifest nat unit Error
               (Scenario.scripted Faulty.no_images_b)
               (Scenario.initialized Error Faulty.no_images_b)
               "b" "a" 0%nat 0%nat 0%nat eq_refl eq_refl
               (or_intror (conj eq_refl eq_refl)) eq_refl eq_refl eq_refl))).
    reflexivity.
Defined.

(** ** A session, piece by piece *)

Section SessionRuns.

Context {World FileHandle : Type}.
Variable E : ErrorTable.
Variable env : Env World FileHandle.

(** How the phases settle one after the other. *)
Lemma session_phases_inv (s s' : Sys World) (r : unit + JsVal) (l : list Event) :
  session_phases E env s = (r, s', l) ->
  (exists v, downloadImages E env s = (inr v, s', l) /\ r = inr v) \/
  (exists s1 l1,
      downloadImages E env s = (inl tt, s1, l1) /\
      ((exists v l2, unpackImages E env s1 = (inr v, s', l2) /\ r = inr v /\ l = l1 ++ l2) \/
       (exists s2 l2,
           unpackImages E env s1 = (inl tt, s2, l2) /\
           ((exists v l3,
                flashDevice E env s2 = (inr v, s', l3) /\ r = inr v /\
                l = l1 ++ l2 ++ l3) \/
            (exists s3 l3,
                flashDevice E env s2 = (inl tt, s3, l3) /\
                ((exists v l4,
                     eraseDevice E env s3 = (inr v, s', l4) /\ r = inr v /\
                     l = l1 ++ l2 ++ l3 ++ l4) \/
                 (exists s4 l4,
                     eraseDevice E env s3 = (inl tt, s4, l4) /\ r = inl tt /\
                     s' = Build_Sys (with_step Step.DONE (store s4)) (world s4) /\
                     l = l1 ++ l2 ++ l3 ++ l4 ++ [Set_step Step.DONE]))))))).
Proof.
  unfold session_phases. intros Hrun.
  apply bind_inv in Hrun as [([] & s1 & l1 & k1 & Hd & Hrun & ->) | (v & Hd & Hr)];
    [| left; now exists v].
  right. exists s1, l1. split; [exact Hd |].
  apply bind_inv in Hrun as [([] & s2 & l2 & k2 & Hu & Hrun & ->) | (v & Hu & Hr)];
    [| left; now exists v, k1].
  right. exists s2, l2. split; [exact Hu |].
  apply bind_inv in Hrun as [([] & s3 & l3 & k3 & Hf & Hrun & ->) | (v & Hf & Hr)];
    [| left; now exists v, k2].
  right. exists s3, l3. split; [exact Hf |].
  apply bind_inv in Hrun as [([] & s4 & l4 & k4 & He & Hrun & ->) | (v & He & Hr)];
    [| left; now exists v, k3].
  right. exists s4, l4. split; [exact He |].
  cbn in Hrun. injection Hrun as <- <- <-. repeat split.
Qed.

(** How [startFlashing] settles: the connection wait or the device-info
    read rejects, the device is not recognised, or the phases run. *)
Lemma startFlashing_inv (s s' : Sys World) (r : unit + JsVal) (l : list Event) :
  startFlashing E env s = (r, s', l) ->
  let connecting := with_step Step.CONNECTING (store s) in
  (exists v w lh,
      waitForConnect env (world s) = (inr v, w) /\
      handleError v (Build_Sys connecting w) = (r, s', lh) /\
      l = [Set_step Step.CONNECTING; Call_waitForConnect] ++ lh) \/
  (exists w1 v w2 lh,
      waitForConnect env (world s) = (inl tt, w1) /\
      getDevicePartitionsInfo env w1 = (inr v, w2) /\
      handleError v (Build_Sys connecting w2) = (r, s', lh) /\
      l = [Set_step Step.CONNECTING; Call_waitForConnect;
           Call_getDevicePartitionsInfo] ++ lh) \/
  (exists w1 info w2,
      waitForConnect env (world s) = (inl tt, w1) /\
      getDevicePartitionsInfo env w1 = (inl info, w2) /\
      isRecognizedDevice (fst info) (snd info) = false /\
      r = inl tt /\
      s' = Build_Sys (with_error (member E "UNRECOGNIZED_DEVICE") connecting) w2 /\
      l = [Set_step Step.CONNECTING; Call_waitForConnect;
           Call_getDevicePartitionsInfo;
           Set_error (member E "UNRECOGNIZED_DEVICE")]) \/
  (exists w1 info w2 rp sp lp,
      waitForConnect env (world s) = (inl tt, w1) /\
      getDevicePartitionsInfo env w1 = (inl info, w2) /\
      isRecognizedDevice (fst info) (snd info) = true /\
      session_phases E env (recognised_state s (sahara_serial env w2) w2)
        = (rp, sp, lp) /\
      ((rp = inl tt /\ r = inl tt /\ s' = sp /\
        l = recognised_events (sahara_serial env w2) ++ lp) \/
       (exists v lh,
           rp = inr v /\ handleError v sp = (r, s', lh) /\
           l = recognised_events (sahara_serial env w2) ++ lp ++ lh))).
Proof.
  intros Hrun connecting. unfold startFlashing in Hrun.
  change (downloadImages E env ;; unpackImages E env ;; flashDevice E env ;;
          eraseDevice E env ;; step_set Step.DONE)
    with (session_phases E env) in Hrun.
  apply bind_inv in Hrun as [(u & s1 & l1 & l2 & Hc & Hrun & ->) | (v & Hc & Hr)];
    [| discriminate Hc].
  cbn in Hc. injection Hc as _ <- <-. fold connecting in Hrun.
  apply try_catch_inv in Hrun
    as [(a & Hb & ->) | (v & sb & lb & lh & Hb & Hh & ->)].
  - (* the body returned *)
    apply bind_inv in Hb as [([] & t1 & k1 & k2 & Hw & Hb & ->) | (v & Hw & Hr)];
      [| discriminate Hr].
    apply await_inv in Hw as (Hw & Hst1 & ->). cbn [store world] in Hw, Hst1.
    apply bind_inv in Hb as [(info & t2 & k3 & k4 & Hi & Hb & ->) | (v & Hi & Hr)];
      [| discriminate Hr].
    apply await_inv in Hi as (Hi & Hst2 & ->).
    cbv zeta in Hb.
    destruct (isRecognizedDevice (fst info) (snd info)) eqn:Hrec; cbn [negb] in Hb.
    + do 3 right. 
      apply bind_inv in Hb as [(sr & t3 & k5 & k6 & Hp & Hb & ->) | (v & Hp & Hr)];
        [| discriminate Hr].
      cbn in Hp. injection Hp as <- <- <-.
      apply bind_inv in Hb as [(u2 & t4 & k7 & k8 & H1 & Hb & ->) | (v & H1 & Hr)];
        [| discriminate Hr].
      cbn in H1. injection H1 as _ <- <-.
      apply bind_inv in Hb as [(u3 & t5 & k9 & k10 & H2 & Hb & ->) | (v & H2 & Hr)];
        [| discriminate Hr].
      cbn in H2. injection H2 as _ <- <-.
      apply bind_inv in Hb as [(u4 & t6 & k11 & k12 & H3 & Hb & ->) | (v & H3 & Hr)];
        [| discriminate Hr].
      cbn in H3. injection H3 as _ <- <-.
      exists (world t1), info, (world t2), (inl a), s', k12.
      rewrite Hst2, Hst1 in Hb. destruct t1 as [st1 wt1], t2 as [st2 wt2].
      cbn [store world] in *. subst st1 st2.
      split; [exact Hw | split; [exact Hi | split; [exact Hrec |]]].
      split; [exact Hb |]. left. destruct a. repeat split.
    + do 2 right. left.
      cbn in Hb. injection Hb as _ <- <-.
      exists (world t1), info, (world t2).
      destruct t1 as [st1 wt1], t2 as [st2 wt2]. cbn [store world] in *. subst st1 st2.
      destruct a. repeat split; assumption.
  - (* the body threw *)
    apply bind_inv in Hb as [([] & t1 & k1 & k2 & Hw & Hb & ->) | (v' & Hw & Hr)].
    2:{ injection Hr as <-. apply await_inv in Hw as (Hw & Hst1 & ->).
        left. exists v, (world sb), lh. destruct sb as [stb wb].
        cbn [store world] in *. subst stb. now repeat split. }
    apply await_inv in Hw as (Hw & Hst1 & ->). cbn [store world] in Hw, Hst1.
    apply bind_inv in Hb as [(info & t2 & k3 & k4 & Hi & Hb & ->) | (v' & Hi & Hr)].
    2:{ injection Hr as <-. apply await_inv in Hi as (Hi & Hst2 & ->).
        right. left. exists (world t1), v, (world sb), lh.
        destruct sb as [stb wb], t1 as [st1 wt1]. cbn [store world] in *.
        subst stb st1. now repeat split. }
    apply await_inv in Hi as (Hi & Hst2 & ->).
    cbv zeta in Hb.
    destruct (isRecognizedDevice (fst info) (snd info)) eqn:Hrec; cbn [negb] in Hb;
      [| discriminate Hb].
    do 3 right.
    apply bind_inv in Hb as [(sr & t3 & k5 & k6 & Hp & Hb & ->) | (v' & Hp & Hr)];
      [| discriminate Hp].
    cbn in Hp. injection Hp as <- <- <-.
    apply bind_inv in Hb as [(u2 & t4 & k7 & k8 & H1 & Hb & ->) | (v' & H1 & Hr)];
      [| discriminate H1].
    cbn in H1. injection H1 as _ <- <-.
    apply bind_inv in Hb as [(u3 & t5 & k9 & k10 & H2 & Hb & ->) | (v' & H2 & Hr)];
      [| discriminate H2].
    cbn in H2. injection H2 as _ <- <-.
    apply bind_inv in Hb as [(u4 & t6 & k11 & k12 & H3 & Hb & ->) | (v' & H3 & Hr)];
      [| discriminate H3].
    cbn in H3. injection H3 as _ <- <-.
    exists (world t1), info, (world t2), (inr v), sb, k12.
    rewrite Hst2, Hst1 in Hb. destruct t1 as [st1 wt1], t2 as [st2 wt2].
    cbn [store world] in *. subst st1 st2.
    split; [exact Hw | split; [exact Hi | split; [exact Hrec |]]].
    split; [exact Hb |]. right. exists v, lh.
    split; [reflexivity | split; [exact Hh |]].
    unfold recognised_events, serial_or_unknown. cbn [app]. reflexivity.
Qed.

End SessionRuns.

(** ** Sessions that stop early *)

(** X13. When the device is not recognised, [startFlashing] returns
    normally having published step [CONNECTING] and the error
    [UNRECOGNIZED_DEVICE] and nothing else: progress is not set to -1, no
    retry hook is armed, connected and serial stay as they were, and no
    phase starts. *)
Theorem startFlashing_unrecognised_device :
  forall (World FileHandle : Type) (E : ErrorTable) (env : Env World FileHandle)
         (s : Sys World) (w1 w2 : World) (info : Z * list string),
    waitForConnect env (world s) = (inl tt, w1) ->
    getDevicePartitionsInfo env w1 = (inl info, w2) ->
    isRecognizedDevice (fst info) (snd info) = false ->
    result (startFlashing E env s) = inl tt /\
    events (startFlashing E env s) =
      [ Set_step Step.CONNECTING; Call_waitForConnect; Call_getDevicePartitionsInfo;
        Set_error (member E "UNRECOGNIZED_DEVICE") ] /\
    store (final (startFlashing E env s)) =
      with_error (member E "UNRECOGNIZED_DEVICE")
                 (with_step Step.CONNECTING (store s)).
Proof.
  intros World FileHandle E env s w1 w2 info Hwait Hinfo Hrec.
  unfold startFlashing, bind, try_catch, step_set, error_set, update, await.
  cbn [store world]. rewrite Hwait. cbn [store world]. rewrite Hinfo.
  cbv zeta. rewrite Hrec. repeat split.
Qed.

Lemma startFlashing_unrecognised_device_witness :
  isRecognizedDevice 3 ["boot"; "system"] = false /\
  onRetry (store (final
    (startFlashing Error (Scenario.scripted Faulty.three_slots)
       (Scenario.initialized Error Faulty.three_slots)))) = None /\
  progress (store (final
    (startFlashing Error (Scenario.scripted Faulty.three_slots)
       (Scenario.initialized Error Faulty.three_slots)))) = 0 # 1.
Proof.
  split; [reflexivity |].
  rewrite (proj2 (proj2 (startFlashing_unrecognised_device nat unit Error
             (Scenario.scripted Faulty.three_slots)
             (Scenario.initialized Error Faulty.three_slots)
             1%nat 1%nat (3, ["boot"; "system"]) eq_refl eq_refl eq_refl))).
  split; reflexivity.
Defined.

(** X14. [startFlashing] before any [initialize], in the typed module: once
    a recognised device is connected, the download phase finds no image
    worker and its guard throws.  What it throws is not an error saying
    that the worker is missing: [new Error(...)] is applied to the module's
    own [Error] table and throws the [TypeError] "Error is not a
    constructor".  The session publishes that object as the error (not a
    code), sets progress to -1 and arms the hook, leaves connected at
    [true] and the step at [DOWNLOADING], and calls neither the worker nor
    the device. *)
Theorem startFlashing_without_worker :
  forall (World FileHandle : Type) (E : ErrorTable) (env : Env World FileHandle)
         (s : Sys World) (w1 w2 : World) (info : Z * list string),
    imageWorker (store s) = false ->
    waitForConnect env (world s) = (inl tt, w1) ->
    getDevicePartitionsInfo env w1 = (inl info, w2) ->
    isRecognizedDevice (fst info) (snd info) = true ->
    result (startFlashing E env s) = inl tt /\
    events (startFlashing E env s) =
      recognised_events (sahara_serial env w2) ++
      [ Set_error (TypeError "Error is not a constructor"); Set_progress (-1 # 1);
        Set_onContinue None; Set_onRetry (Some (returning reload)) ] /\
    error (store (final (startFlashing E env s)))
      = TypeError "Error is not a constructor" /\
    connected (store (final (startFlashing E env s))) = true /\
    step (store (final (startFlashing E env s))) = Step.DOWNLOADING.
Proof.
  intros World FileHandle E env s w1 w2 info Hw Hwait Hinfo Hrec.
  unfold startFlashing, bind, try_catch, step_set, serial_set, connected_set,
    update, await, peek.
  cbn [store world]. rewrite Hwait. cbn [store world]. rewrite Hinfo.
  cbv zeta. rewrite Hrec. cbn [negb store world].
  unfold downloadImages, require_imageWorker, read. unfold bind.
  cbn [store world imageWorker with_step with_connected with_serial].
  rewrite Hw. cbn. repeat split.
Qed.

Lemma startFlashing_without_worker_witness :
  imageWorker (store (Scenario.fresh Error)) = false /\
  error (store (final
    (startFlashing Error (Scenario.scripted Scenario.happy) (Scenario.fresh Error))))
  = JObj "TypeError: Error is not a constructor" JUndefined /\
  device_ops (events
    (startFlashing Error (Scenario.scripted Scenario.happy) (Scenario.fresh Error)))
  = [].
Proof.
  split; [reflexivity |].
  destruct (startFlashing_without_worker nat unit Error
              (Scenario.scripted Scenario.happy) (Scenario.fresh Error)
              1%nat 1%nat Scenario.two_slots eq_refl eq_refl eq_refl eq_refl)
    as (_ & Hev & Herr & _).
  split; [exact Herr |]. rewrite Hev. reflexivity.
Defined.

(** ** What the views of the events see of each piece *)

Lemma connected_published_app (l1 l2 : list Event) :
  connected_published (l1 ++ l2) = connected_published l1 ++ connected_published l2.
Proof.
  induction l1 as [| e l1 IH]; [reflexivity |].
  destruct e; cbn; now rewrite ?IH.
Qed.

(** Events of one class are invisible to a view that skips that class. *)
Ltac invisible H :=
  induction H as [| e l He _ IH]; [reflexivity |];
  destruct e; try discriminate He; exact IH.

Lemma download_events_views (l : list Event) :
  Forall (fun e => download_event e = true) l ->
  device_ops l = [] /\ unpacks_requested l = [] /\ connected_published l = [].
Proof. intros H. repeat split; invisible H. Qed.

Lemma unpack_events_views (l : list Event) :
  Forall (fun e => unpack_event e = true) l ->
  device_ops l = [] /\ downloads_requested l = [] /\ connected_published l = [].
Proof. intros H. repeat split; invisible H. Qed.

Lemma flash_events_views (l : list Event) :
  Forall (fun e => flash_event e = true) l ->
  steps_published l = [] /\ downloads_requested l = [] /\
  unpacks_requested l = [] /\ connected_published l = [].
Proof. intros H. repeat split; invisible H. Qed.

Lemma erase_events_views (l : list Event) :
  Forall (fun e => erase_event e = true) l ->
  steps_published l = [] /\ downloads_requested l = [] /\ unpacks_requested l = [].
Proof. intros H. repeat split; invisible H. Qed.

Lemma handleError_views {World : Type} (v : JsVal) (s s' : Sys World)
      (r : unit + JsVal) (l : list Event) :
  handleError v s = (r, s', l) ->
  (r = inl tt \/
   r = inr (TypeError "Cannot read properties of undefined (reading 'code')") /\
   (v = JUndefined \/ v = JNull) /\ l = [] /\ s' = s) /\
  steps_published l = [] /\ device_ops l = [] /\ downloads_requested l = [] /\
  unpacks_requested l = [] /\ connected_published l = [] /\
  step (store s') = step (store s) /\ connected (store s') = connected (store s).
Proof.
  destruct v; cbn; intros [= <- <- <-]; repeat split; try (now left);
    right; repeat split; tauto.
Qed.

Section PhaseSummaries.

Context {World FileHandle : Type}.
Variable E : ErrorTable.
Variable env : Env World FileHandle.

Lemma downloadImages_summary (s s' : Sys World) (r : unit + JsVal) (l : list Event) :
  downloadImages E env s = (r, s', l) ->
  connected (store s') = connected (store s) /\
  manifest (store s') = manifest (store s) /\
  device_ops l = [] /\ unpacks_requested l = [] /\ connected_published l = [] /\
  ((r = inl tt /\ imageWorker (store s') = true /\
    downloads_requested l = map name (manifest (store s)) /\
    steps_published l = [Step.UNPACKING]) \/
   ((exists v, r = inr v) /\ steps_published l = [])).
Proof.
  intros Hrun.
  destruct (obeys_run _ _ _ _ _ _ _ _
              (downloadImages_confined E env
                 (kept (connected (store s)) (manifest (store s)) (imageWorker (store s)))
                 (fun _ _ H => H) (fun _ _ H => H) (fun _ H => H))
              Hrun (conj eq_refl (conj eq_refl eq_refl)))
    as ((Hc & Hm & Hw) & _ & Hev).
  destruct (download_events_views l Hev) as (Hd & Hu & Hp).
  repeat split; try assumption.
  destruct (imageWorker (store s)) eqn:Hiw.
  - destruct (downloadImages_shape E env s s' r l Hiw Hrun)
      as [_ [(-> & Hall & Hst & _) | (-> & Hns & _)]].
    + left. now repeat split.
    + right. split; [eexists; reflexivity | exact Hns].
  - right.
    assert (Hq : @require_imageWorker World s = (inr not_initialized, s, [])).
    { unfold require_imageWorker, bind, read. rewrite Hiw. cbn. now destruct s. }
    unfold downloadImages, bind in Hrun. rewrite Hq in Hrun.
    injection Hrun as <- _ <-.
    split; [eexists; reflexivity | reflexivity].
Qed.

Lemma unpackImages_summary (s s' : Sys World) (r : unit + JsVal) (l : list Event) :
  imageWorker (store s) = true ->
  unpackImages E env s = (r, s', l) ->
  connected (store s') = connected (store s) /\
  manifest (store s') = manifest (store s) /\
  imageWorker (store s') = true /\
  device_ops l = [] /\ downloads_requested l = [] /\ connected_published l = [] /\
  ((r = inl tt /\
    unpacks_requested l = map name (manifest (store s)) /\
    steps_published l = [Step.FLASHING]) \/
   ((exists v, r = inr v) /\ steps_published l = [])).
Proof.
  intros Hiw Hrun.
  destruct (obeys_run _ _ _ _ _ _ _ _
              (unpackImages_confined E env
                 (kept (connected (store s)) (manifest (store s)) true)
                 (fun _ _ H => H) (fun _ _ H => H) (fun _ H => H))
              Hrun (conj eq_refl (conj eq_refl Hiw)))
    as ((Hc & Hm & Hw) & _ & Hev).
  destruct (unpack_events_views l Hev) as (Hd & Hu & Hp).
  repeat split; try assumption.
  destruct (unpackImages_shape E env s s' r l Hiw Hrun)
    as [_ [(-> & Hall & Hst & _) | (Hns & _ & Hfail)]].
  - left. now repeat split.
  - right. split; [| exact Hns].
    destruct Hfail as (_ & _ & _ & _ & _ & failure & _ & _ & _ & Hr).
    destruct failure; cbn in Hr; injection Hr as <-; eexists; reflexivity.
Qed.

Lemma flashDevice_summary (s s' : Sys World) (r : unit + JsVal) (l : list Event) :
  flashDevice E env s = (r, s', l) ->
  connected (store s') = connected (store s) /\
  step (store s') = step (store s) /\
  steps_published l = [] /\ downloads_requested l = [] /\
  unpacks_requested l = [] /\ connected_published l = [].
Proof.
  intros Hrun.
  destruct (obeys_run _ _ _ _ _ _ _ _
              (flashDevice_confined E env
                 (fun st => connected st = connected (store s) /\
                            step st = step (store s))
                 (fun _ _ H => H) (fun _ _ H => H))
              Hrun (conj eq_refl eq_refl))
    as ((Hc & Hs) & _ & Hev).
  destruct (flash_events_views l Hev) as (H1 & H2 & H3 & H4).
  now repeat split.
Qed.

Lemma eraseDevice_summary (s s' : Sys World) (r : unit + JsVal) (l : list Event) :
  eraseDevice E env s = (r, s', l) ->
  step (store s') = step (store s) /\
  steps_published l = [] /\ downloads_requested l = [] /\ unpacks_requested l = [] /\
  ((r = inl tt /\ connected_published l = [false] /\
    connected (store s') = false /\ progress (store s') = 1 # 1) \/
   ((exists v, r = inr v) /\ connected_published l = [] /\
    connected (store s') = connected (store s))).
Proof.
  intros Hrun.
  destruct (obeys_run _ _ _ _ _ _ _ _
              (eraseDevice_confined E env (fun st => step st = step (store s))
                 (fun _ _ H => H) (fun _ _ H => H) (fun _ H => H))
              Hrun eq_refl)
    as (Hs & _ & Hev).
  destruct (erase_events_views l Hev) as (H1 & H2 & H3).
  repeat split; try assumption.
  pose proof (eraseDevice_cases E env s) as H. cbv zeta in H.
  destruct (snd (flashBlob env "userdata" erase_payload (world s)))
    as [[[] | v] w1].
  - destruct (reset env w1) as [[[] | v] w2]; rewrite H in Hrun;
      injection Hrun as <- <- <-.
    + left. repeat split.
    + right. split; [eexists; reflexivity | split; reflexivity].
  - rewrite H in Hrun. injection Hrun as <- <- <-.
    right. split; [eexists; reflexivity | split; reflexivity].
Qed.

End PhaseSummaries.

Section SessionSummary.

Context {World FileHandle : Type}.
Variable E : ErrorTable.
Variable env : Env World FileHandle.

Lemma device_ops_nil_app (l1 l2 : list Event) :
  device_ops l1 = [] -> device_ops (l1 ++ l2) = device_ops l2.
Proof. intros H. now rewrite device_ops_app, H. Qed.

(** The phases taken together, under every view. *)
Lemma session_phases_summary (s s' : Sys World) (r : unit + JsVal) (l : list Event) :
  session_phases E env s = (r, s', l) ->
  initial_segment (steps_published l) [Step.UNPACKING; Step.FLASHING; Step.DONE] /\
  step (store s') = last (steps_published l) (step (store s)) /\
  (device_ops l <> [] ->
   downloads_requested l = map name (manifest (store s)) /\
   unpacks_requested l = map name (manifest (store s))) /\
  ((r = inl tt /\ steps_published l = [Step.UNPACKING; Step.FLASHING; Step.DONE] /\
    connected_published l = [false] /\ connected (store s') = false /\
    progress (store s') = 1 # 1) \/
   ((exists v, r = inr v) /\ ~ In Step.DONE (steps_published l) /\
    connected_published l = [] /\ connected (store s') = connected (store s))).
Proof.
  intros Hrun.
  apply session_phases_inv in Hrun
    as [(v & Hd & ->) | (s1 & l1 & Hd & Hrun)].
  { destruct (downloadImages_summary E env _ _ _ _ Hd)
      as (Hc & Hm & Hops & Hu & Hp & [(Hr & _) | (_ & Hns)]); [discriminate Hr |].
    destruct (imageWorker (store s)) eqn:Hiw.
    - destruct (downloadImages_shape E env s s' _ l Hiw Hd)
        as [_ [(Hr & _) | (_ & _ & Hst & _)]]; [discriminate Hr |].
      rewrite Hns. cbn. split; [now eexists |]. split; [exact Hst |].
      split; [intros Hx; now elim Hx |]. right.
      split; [now eexists | split; [tauto | now split]].
    - assert (Hq : @require_imageWorker World s = (inr not_initialized, s, [])).
      { unfold require_imageWorker, bind, read. rewrite Hiw. cbn. now destruct s. }
      unfold downloadImages, bind in Hd. rewrite Hq in Hd.
      injection Hd as _ <- <-. cbn. split; [now eexists |]. split; [reflexivity |].
      split; [intros Hx; now elim Hx |]. right.
      split; [now eexists | split; [tauto | now split]]. }
  destruct (downloadImages_summary E env _ _ _ _ Hd)
    as (Hc1 & Hm1 & Hops1 & Hu1 & Hp1 & [(_ & Hw1 & Hdl1 & Hst1) | ([v Hr] & _)]);
    [| discriminate Hr].
  destruct Hrun as [(v & l2 & Hu & -> & ->) | (s2 & l2 & Hu & Hrun)].
  { destruct (unpackImages_summary E env _ _ _ _ Hw1 Hu)
      as (Hc & Hm & Hw & Hops & Hdl & Hp & [(Hr & _) | (_ & Hns)]); [discriminate Hr |].
    destruct (unpackImages_shape E env _ _ _ _ Hw1 Hu)
      as [_ [(Hr & _) | (_ & Hst & _)]]; [discriminate Hr |].
    destruct (downloadImages_shape E env s s1 _ l1
                ltac:(destruct (imageWorker (store s)) eqn:Hiw; [reflexivity |];
                      exfalso;
                      assert (Hq : @require_imageWorker World s
                                   = (inr not_initialized, s, []))
                        by (unfold require_imageWorker, bind, read; rewrite Hiw;
                            cbn; now destruct s);
                      unfold downloadImages, bind in Hd; rewrite Hq in Hd;
                      discriminate Hd)
                Hd) as [_ [(_ & _ & _ & Hstep1) | (Hr & _)]]; [| discriminate Hr].
    rewrite steps_published_app, connected_published_app, device_ops_app,
      Hst1, Hns, Hp1, Hp, Hops1, Hops.
    cbn. split; [now eexists |]. split; [now rewrite Hst |].
    split; [intros Hx; now elim Hx |]. right.
    split; [now eexists |].
    split; [intros [Hx | []]; discriminate Hx | split; [reflexivity | congruence]]. }
  destruct (unpackImages_summary E env _ _ _ _ Hw1 Hu)
    as (Hc2 & Hm2 & Hw2 & Hops2 & Hdl2 & Hp2 & [(_ & Hup2 & Hst2) | ([v Hr] & _)]);
    [| discriminate Hr].
  assert (Hnames : forall l3,
             downloads_requested l3 = [] -> unpacks_requested l3 = [] ->
             downloads_requested (l1 ++ l2 ++ l3) = map name (manifest (store s)) /\
             unpacks_requested (l1 ++ l2 ++ l3) = map name (manifest (store s))).
  { intros l3 Hd3 Hu3.
    rewrite !downloads_requested_app, !unpacks_requested_app, Hdl1, Hdl2, Hu1, Hup2,
      Hd3, Hu3, Hm1.
    cbn. now rewrite !app_nil_r. }
  destruct (unpackImages_shape E env _ _ _ _ Hw1 Hu)
    as [_ [(_ & _ & _ & Hstep2) | (_ & _ & Hf)]].
  2:{ destruct Hf as (_ & _ & _ & _ & _ & failure & _ & _ & _ & Hr).
      destruct failure; discriminate Hr. }
  destruct Hrun as [(v & l3 & Hf & -> & ->) | (s3 & l3 & Hf & Hrun)].
  { destruct (flashDevice_summary E env _ _ _ _ Hf) as (Hc & Hs & Hns & Hd3 & Hu3 & Hp).
    rewrite !steps_published_app, !connected_published_app, Hst1, Hst2, Hns, Hp1, Hp2, Hp.
    cbn. split; [now eexists |]. split; [congruence |].
    split; [intros _; now apply Hnames |]. right.
    split; [now eexists |].
    split; [intros [Hx | [Hx | []]]; discriminate Hx | split; [reflexivity | congruence]]. }
  destruct (flashDevice_summary E env _ _ _ _ Hf) as (Hc3 & Hs3 & Hns3 & Hd3 & Hu3 & Hp3).
  destruct Hrun as [(v & l4 & He & -> & ->) | (s4 & l4 & He & -> & -> & ->)].
  { destruct (eraseDevice_summary E env _ _ _ _ He)
      as (Hs & Hns & Hd4 & Hu4 & [(Hr & _) | (_ & Hp & Hc)]); [discriminate Hr |].
    rewrite !steps_published_app, !connected_published_app, Hst1, Hst2, Hns3, Hns,
      Hp1, Hp2, Hp3, Hp.
    cbn. split; [now eexists |]. split; [congruence |].
    split.
    { intros _. rewrite (app_assoc l2 l3 l4).
      rewrite !downloads_requested_app, !unpacks_requested_app, Hdl1, Hdl2, Hu1, Hup2,
        Hd3, Hu3, Hd4, Hu4, Hm1. cbn. now rewrite !app_nil_r. }
    right. split; [now eexists |].
    split; [intros [Hx | [Hx | []]]; discriminate Hx | split; [reflexivity | congruence]]. }
  destruct (eraseDevice_summary E env _ _ _ _ He)
    as (Hs & Hns & Hd4 & Hu4 & [(_ & Hp & Hc & Hpr) | ([v Hr] & _)]); [| discriminate Hr].
  rewrite !steps_published_app, !connected_published_app, Hst1, Hst2, Hns3, Hns,
    Hp1, Hp2, Hp3, Hp.
  cbn. split; [exists []; reflexivity |]. split; [reflexivity |].
  split.
  { intros _.
    rewrite !downloads_requested_app, !unpacks_requested_app, Hdl1, Hdl2, Hu1, Hup2,
      Hd3, Hu3, Hd4, Hu4, Hm1. cbn. now rewrite !app_nil_r. }
  left. now repeat split.
Qed.

End SessionSummary.

(** ** Whole sessions *)

Section WholeSessions.

Context {World FileHandle : Type}.
Variable E : ErrorTable.
Variable env : Env World FileHandle.

(** Every way [startFlashing] can settle, under the views of its events. *)
Lemma startFlashing_summary (s s' : Sys World) (r : unit + JsVal) (l : list Event) :
  startFlashing E env s = (r, s', l) ->
  (* before the phases *)
  (steps_published l = [Step.CONNECTING] /\ device_ops l = [] /\
   connected_published l = [] /\ step (store s') = Step.CONNECTING /\
   connected (store s') = connected (store s)) \/
  (* the phases ran *)
  (exists tail,
      initial_segment tail [Step.UNPACKING; Step.FLASHING; Step.DONE] /\
      steps_published l = Step.CONNECTING :: Step.DOWNLOADING :: tail /\
      step (store s') = last tail Step.DOWNLOADING /\
      (device_ops l <> [] ->
       downloads_requested l = map name (manifest (store s)) /\
       unpacks_requested l = map name (manifest (store s))) /\
      ((r = inl tt /\ tail = [Step.UNPACKING; Step.FLASHING; Step.DONE] /\
        connected_published l = [true; false] /\ connected (store s') = false /\
        progress (store s') = 1 # 1) \/
       (~ In Step.DONE tail /\ connected_published l = [true] /\
        connected (store s') = true))).
Proof.
  intros Hrun. apply startFlashing_inv in Hrun. cbv zeta in Hrun.
  destruct Hrun
    as [(v & w & lh & _ & Hh & ->)
       | [(w1 & v & w2 & lh & _ & _ & Hh & ->)
         | [(w1 & info & w2 & _ & _ & _ & -> & -> & ->)
           | (w1 & info & w2 & rp & sp & lp & _ & _ & _ & Hp & Hend)]]].
  - left. destruct (handleError_views _ _ _ _ _ Hh)
      as (_ & Hs & Hd & _ & _ & Hc & Hst & Hcn).
    rewrite steps_published_app, device_ops_app, connected_published_app, Hs, Hd, Hc,
      Hst, Hcn. now repeat split.
  - left. destruct (handleError_views _ _ _ _ _ Hh)
      as (_ & Hs & Hd & _ & _ & Hc & Hst & Hcn).
    rewrite steps_published_app, device_ops_app, connected_published_app, Hs, Hd, Hc,
      Hst, Hcn. now repeat split.
  - left. now repeat split.
  - right.
    destruct (session_phases_summary E env _ _ _ _ Hp) as (Hseg & Hstep & Hdev & Hout).
    cbn [recognised_state store manifest with_step with_connected with_serial step
         connected] in Hstep, Hdev, Hout.
    exists (steps_published lp). split; [exact Hseg |].
    destruct Hend as [(-> & -> & -> & ->) | (v & lh & -> & Hh & ->)].
    + rewrite steps_published_app, device_ops_app, connected_published_app,
        downloads_requested_app, unpacks_requested_app.
      cbn [recognised_events steps_published device_ops connected_published
           downloads_requested unpacks_requested app].
      split; [reflexivity |]. split; [exact Hstep |]. split; [exact Hdev |].
      destruct Hout as [(_ & Hs & Hc & Hcn & Hpr) | ([v Hr] & _)]; [| discriminate Hr].
      left. rewrite Hc. now repeat split.
    + destruct (handleError_views _ _ _ _ _ Hh)
        as (_ & Hs & Hd & Hdl & Hu & Hc & Hst & Hcn).
      rewrite !steps_published_app, !device_ops_app, !connected_published_app,
        !downloads_requested_app, !unpacks_requested_app, Hs, Hd, Hdl, Hu, Hc, Hst, Hcn.
      cbn [recognised_events steps_published device_ops connected_published
           downloads_requested unpacks_requested app].
      rewrite !app_nil_r.
      split; [reflexivity |]. split; [exact Hstep |]. split; [exact Hdev |].
      destruct Hout as [(Hr & _) | (_ & Hno & Hcp & Hcs)]; [discriminate Hr |].
      right. rewrite Hcp. now repeat split.
Qed.

End WholeSessions.

(** X15. The device is left alone until every image is there:
    whenever a run of [startFlashing] issues an erase, a write or a slot
    switch, every manifest image was downloaded and then unpacked first, in
    manifest order. *)
Theorem device_untouched_until_unpacked :
  forall (World FileHandle : Type) (E : ErrorTable) (env : Env World FileHandle)
         (s : Sys World),
    device_ops (events (startFlashing E env s)) <> [] ->
    downloads_requested (events (startFlashing E env s))
      = map name (manifest (store s)) /\
    unpacks_requested (events (startFlashing E env s))
      = map name (manifest (store s)).
Proof.
  intros World FileHandle E env s.
  destruct (startFlashing E env s) as [[r s'] l] eqn:Hrun.
  unfold events. cbn [snd]. intros Hdev.
  destruct (startFlashing_summary E env s s' r l Hrun)
    as [(_ & Hnone & _) | (tail & _ & _ & _ & Hall & _)].
  - contradiction.
  - now apply Hall.
Qed.

Lemma device_untouched_until_unpacked_witness :
  device_ops (events
    (startFlashing Error (Faulty.scripted Faulty.system_write_fails Scenario.happy_b)
       (Scenario.initialized Error Scenario.happy_b)))
  = [Erased "xbl_b"; Written "boot_a"; Written "system_a"] /\
  unpacks_requested (events
    (startFlashing Error (Faulty.scripted Faulty.system_write_fails Scenario.happy_b)
       (Scenario.initialized Error Scenario.happy_b)))
  = ["boot"; "system"].
Proof.
  split; [vm_compute; reflexivity |].
  refine (proj2 (device_untouched_until_unpacked nat unit Error
                   (Faulty.scripted Faulty.system_write_fails Scenario.happy_b)
                   (Scenario.initialized Error Scenario.happy_b) _)).
  vm_compute. discriminate.
Defined.

Lemma last_of_nonempty {A} (l : list A) (a d d' : A) :
  last (a :: l) d = last (a :: l) d'.
Proof.
  revert a. induction l as [| b l IH]; intros a; [reflexivity |].
  change (last (b :: l) d = last (b :: l) d'). apply IH.
Qed.

(** X16. The steps a run of [startFlashing] publishes are an initial
    segment of [CONNECTING], [DOWNLOADING], [UNPACKING], [FLASHING], [DONE],
    starting with [CONNECTING], and the step field ends at the last one
    published: the step only moves forward and stays where the session
    stopped. *)
Theorem startFlashing_steps_ascend :
  forall (World FileHandle : Type) (E : ErrorTable) (env : Env World FileHandle)
         (s : Sys World),
    initial_segment (steps_published (events (startFlashing E env s)))
      [Step.CONNECTING; Step.DOWNLOADING; Step.UNPACKING; Step.FLASHING; Step.DONE] /\
    (exists later,
        steps_published (events (startFlashing E env s)) = Step.CONNECTING :: later /\
        step (store (final (startFlashing E env s))) = last later Step.CONNECTING).
Proof.
  intros World FileHandle E env s.
  destruct (startFlashing E env s) as [[r s'] l] eqn:Hrun.
  unfold events, final. cbn [fst snd].
  destruct (startFlashing_summary E env s s' r l Hrun)
    as [(Hs & _ & _ & Hst & _) | (tail & [rest Hseg] & Hs & Hst & _)].
  - rewrite Hs. split; [now eexists |]. exists []. now split.
  - rewrite Hs. split.
    + exists rest. cbn. now rewrite Hseg.
    + exists (Step.DOWNLOADING :: tail). split; [reflexivity |].
      rewrite Hst. destruct tail as [| z tail]; [reflexivity |].
      change (last (z :: tail) Step.DOWNLOADING = last (z :: tail) Step.CONNECTING).
      apply last_of_nonempty.
Qed.

(** X17. Once [startFlashing] has published connected [true], the store
    ends either at step [DONE] with connected [false] and progress 1, or
    short of [DONE] with connected still [true]: a failed session keeps
    reporting the device as connected. *)
Theorem connected_cleared_only_at_DONE :
  forall (World FileHandle : Type) (E : ErrorTable) (env : Env World FileHandle)
         (s : Sys World),
    In true (connected_published (events (startFlashing E env s))) ->
    (step (store (final (startFlashing E env s))) = Step.DONE /\
     connected (store (final (startFlashing E env s))) = false /\
     progress (store (final (startFlashing E env s))) = 1 # 1 /\
     result (startFlashing E env s) = inl tt) \/
    (step (store (final (startFlashing E env s))) <> Step.DONE /\
     connected (store (final (startFlashing E env s))) = true).
Proof.
  intros World FileHandle E env s.
  destruct (startFlashing E env s) as [[r s'] l] eqn:Hrun.
  unfold events, final, result. cbn [fst snd]. intros Hin.
  destruct (startFlashing_summary E env s s' r l Hrun)
    as [(_ & _ & Hc & _) | (tail & [rest Hseg] & _ & Hst & _ & Hout)].
  - rewrite Hc in Hin. contradiction.
  - destruct Hout as [(-> & -> & _ & Hcn & Hpr) | (Hno & _ & Hcn)].
    + left. rewrite Hst. now repeat split.
    + right. split; [| exact Hcn]. rewrite Hst.
      destruct tail as [| a [| b [| c tail]]]; cbn in *.
      * discriminate.
      * injection Hseg as <- _. discriminate.
      * injection Hseg as <- <- _. discriminate.
      * injection Hseg as <- <- <- Hn. symmetry in Hn.
        apply app_eq_nil in Hn as [-> _]. tauto.
Qed.

Lemma connected_cleared_only_at_DONE_witness :
  In true (connected_published (events
    (startFlashing Error (Faulty.scripted Faulty.reboot_fails Scenario.happy)
       (Scenario.initialized Error Scenario.happy)))) /\
  connected (store (final
    (startFlashing Error (Faulty.scripted Faulty.reboot_fails Scenario.happy)
       (Scenario.initialized Error Scenario.happy)))) = true /\
  error (store (final
    (startFlashing Error (Faulty.scripted Faulty.reboot_fails Scenario.happy)
       (Scenario.initialized Error Scenario.happy)))) = JNum 6.
Proof.
  split; [vm_compute; tauto |]. split; [| vm_compute; reflexivity].
  destruct (connected_cleared_only_at_DONE nat unit Error
              (Faulty.scripted Faulty.reboot_fails Scenario.happy)
              (Scenario.initialized Error Scenario.happy))
    as [(Hd & _) | (_ & Hc)].
  - vm_compute. tauto.
  - vm_compute in Hd. discriminate Hd.
  - exact Hc.
Defined.

(** ** When [startFlashing] rejects *)

Section Rejections.

Context {World FileHandle : Type}.
Variable E : ErrorTable.
Variable env : Env World FileHandle.

(** The phases publish no error and leave the error field and the retry
    hook alone. *)
Lemma session_phases_publish_no_error (e0 : JsVal) (h0 : option Callback) :
  obeys (fun st => error st = e0 /\ onRetry st = h0) (fun _ => True)
        (fun e => errors_published [e] = []) (session_phases E env).
Proof.
  unfold session_phases.
  apply obeys_bind; [| intros _].
  { eapply obeys_weaken; [apply downloadImages_confined; auto | auto |].
    intros e He. destruct e; try discriminate He; reflexivity. }
  apply obeys_bind; [| intros _].
  { eapply obeys_weaken; [apply unpackImages_confined; auto | auto |].
    intros e He. destruct e; try discriminate He; reflexivity. }
  apply obeys_bind; [| intros _].
  { eapply obeys_weaken; [apply flashDevice_confined; auto | auto |].
    intros e He. destruct e; try discriminate He; reflexivity. }
  apply obeys_bind; [| intros _].
  { eapply obeys_weaken; [apply eraseDevice_confined; auto | auto |].
    intros e He. destruct e; try discriminate He; reflexivity. }
  unfold step_set. apply obeys_update; [reflexivity | auto].
Qed.

Lemma errors_published_app (l1 l2 : list Event) :
  errors_published (l1 ++ l2) = errors_published l1 ++ errors_published l2.
Proof.
  induction l1 as [| e l1 IH]; [reflexivity |].
  destruct e; cbn; now rewrite ?IH.
Qed.

Lemma no_error_events (l : list Event) :
  Forall (fun e => errors_published [e] = []) l -> errors_published l = [].
Proof.
  induction 1 as [| e l He _ IH]; [reflexivity |].
  change (e :: l) with ([e] ++ l). now rewrite errors_published_app, He, IH.
Qed.

(** What the phases can throw. *)
Lemma session_phases_raise (s s' : Sys World) (v : JsVal) (l : list Event) :
  session_phases E env s = (inr v, s', l) ->
  v = member E "DOWNLOAD_FAILED" \/ unpack_raises E v \/
  v = member E "FLASH_FAILED" \/ v = member E "ERASE_FAILED" \/ v = not_initialized.
Proof.
  intros Hrun.
  assert (Hsafe := phase_safe_True).
  apply session_phases_inv in Hrun
    as [(v' & Hd & [= <-])
       | (s1 & l1 & _ &
          [(v' & l2 & Hu & [= <-] & _)
          | (s2 & l2 & _ &
             [(v' & l3 & Hf & [= <-] & _)
             | (s3 & l3 & _ &
                [(v' & l4 & He & [= <-] & _) | (s4 & l4 & _ & Hr & _)])])])].
  - destruct (obeys_run _ _ _ _ _ _ _ _
                (downloadImages_obeys E env _ (fun _ => True) Hsafe (fun _ _ => I))
                Hd I) as (_ & Hv & _).
    destruct (Hv v eq_refl) as [-> | ->]; tauto.
  - destruct (obeys_run _ _ _ _ _ _ _ _
                (unpackImages_obeys E env _ (fun _ => True) Hsafe (fun _ _ => I))
                Hu I) as (_ & Hv & _).
    right. left. now apply Hv.
  - destruct (obeys_run _ _ _ _ _ _ _ _
                (flashDevice_obeys E env _ (fun _ => True) Hsafe (fun _ _ => I))
                Hf I) as (_ & Hv & _).
    destruct (Hv v eq_refl) as [-> | ->]; tauto.
  - destruct (obeys_run _ _ _ _ _ _ _ _
                (eraseDevice_obeys E env _ (fun _ => True) Hsafe (fun _ _ => I))
                He I) as (_ & Hv & _).
    rewrite (Hv v eq_refl). tauto.
  - discriminate Hr.
Qed.

End Rejections.

(** X18. The promise of [startFlashing] rejects in one way only: with the
    [TypeError] raised when [handleError] reads [code] of [undefined] or
    [null].  In that case the session has published no error, and the error
    field and the retry hook are what they were before the call. *)
Theorem startFlashing_rejects_silently :
  forall (World FileHandle : Type) (E : ErrorTable) (env : Env World FileHandle)
         (s : Sys World) (v : JsVal),
    result (startFlashing E env s) = inr v ->
    (exists msg, v = TypeError msg) /\
    errors_published (events (startFlashing E env s)) = [] /\
    error (store (final (startFlashing E env s))) = error (store s) /\
    onRetry (store (final (startFlashing E env s))) = onRetry (store s).
Proof.
  intros World FileHandle E env s v.
  destruct (startFlashing E env s) as [[r s'] l] eqn:Hrun.
  unfold result, events, final. cbn [fst snd]. intros ->.
  apply startFlashing_inv in Hrun. cbv zeta in Hrun.
  destruct Hrun
    as [(v' & w & lh & _ & Hh & ->)
       | [(w1 & v' & w2 & lh & _ & _ & Hh & ->)
         | [(w1 & info & w2 & _ & _ & _ & Hr & _)
           | (w1 & info & w2 & rp & sp & lp & _ & _ & _ & Hp & Hend)]]].
  - destruct (handleError_views _ _ _ _ _ Hh) as ([Hr | (Hr & _ & -> & ->)] & _);
      [discriminate Hr |].
    injection Hr as ->. split; [now eexists | now repeat split].
  - destruct (handleError_views _ _ _ _ _ Hh) as ([Hr | (Hr & _ & -> & ->)] & _);
      [discriminate Hr |].
    injection Hr as ->. split; [now eexists | now repeat split].
  - discriminate Hr.
  - destruct Hend as [(_ & Hr & _) | (v' & lh & -> & Hh & ->)]; [discriminate Hr |].
    destruct (handleError_views _ _ _ _ _ Hh) as ([Hr | (Hr & _ & -> & ->)] & _);
      [discriminate Hr |].
    injection Hr as ->.
    destruct (obeys_run _ _ _ _ _ _ _ _
                (session_phases_publish_no_error E env (error (store s))
                   (onRetry (store s))) Hp (conj eq_refl eq_refl))
      as ((He & Ho) & _ & Hev).
    rewrite app_nil_r, errors_published_app, (no_error_events lp Hev).
    split; [now eexists | now repeat split].
Qed.

Lemma startFlashing_rejects_silently_witness :
  errors_published (events
    (startFlashing Error (Scenario.scripted (Scenario.connect_rejects JUndefined))
       (Scenario.initialized Error (Scenario.connect_rejects JUndefined))))
  = [] /\
  error (store (final
    (startFlashing Error (Scenario.scripted (Scenario.connect_rejects JUndefined))
       (Scenario.initialized Error (Scenario.connect_rejects JUndefined)))))
  = JNum 0.
Proof.
  destruct (startFlashing_rejects_silently nat unit Error
              (Scenario.scripted (Scenario.connect_rejects JUndefined))
              (Scenario.initialized Error (Scenario.connect_rejects JUndefined))
              _ eq_refl) as (_ & Hquiet & Herror & _).
  split; [exact Hquiet | exact Herror].
Defined.

(** X19. With an error table that defines every code the store reads (the
    untyped table does, the typed one lacks [UNPACK_FAILED]) and
    collaborators whose connection wait and device-info read never reject
    with [undefined] or [null], [startFlashing] never rejects: every
    failure ends in the error path. *)
Theorem startFlashing_always_settles :
  forall (World FileHandle : Type) (E : ErrorTable) (env : Env World FileHandle),
    (forall k, In k codes_read -> exists z, member E k = JNum z) ->
    (forall w v, fst (waitForConnect env w) = inr v -> v <> JUndefined /\ v <> JNull) ->
    (forall w v, fst (getDevicePartitionsInfo env w) = inr v ->
                 v <> JUndefined /\ v <> JNull) ->
    forall s, result (startFlashing E env s) = inl tt.
Proof.
  intros World FileHandle E env Hcodes Hwait Hinfo s.
  destruct (startFlashing E env s) as [[r s'] l] eqn:Hrun.
  unfold result. cbn [fst].
  apply startFlashing_inv in Hrun. cbv zeta in Hrun.
  assert (Hcode : forall k, In k codes_read ->
                            member E k <> JUndefined /\ member E k <> JNull).
  { intros k Hk. destruct (Hcodes k Hk) as [z ->]. split; discriminate. }
  destruct Hrun
    as [(v & w & lh & Hw & Hh & _)
       | [(w1 & v & w2 & lh & _ & Hi & Hh & _)
         | [(w1 & info & w2 & _ & _ & _ & Hr & _)
           | (w1 & info & w2 & rp & sp & lp & _ & _ & _ & Hp & Hend)]]].
  - destruct (handleError_views _ _ _ _ _ Hh) as ([Hr | (_ & Hn & _)] & _);
      [exact Hr |].
    destruct (Hwait (world s) v) as [Hu Hnn]; [now rewrite Hw |].
    destruct Hn; contradiction.
  - destruct (handleError_views _ _ _ _ _ Hh) as ([Hr | (_ & Hn & _)] & _);
      [exact Hr |].
    destruct (Hinfo w1 v) as [Hu Hnn]; [now rewrite Hi |].
    destruct Hn; contradiction.
  - exact Hr.
  - destruct Hend as [(_ & Hr & _) | (v & lh & -> & Hh & _)]; [exact Hr |].
    destruct (handleError_views _ _ _ _ _ Hh) as ([Hr | (_ & Hn & _)] & _);
      [exact Hr |].
    exfalso.
    assert (Hv : v <> JUndefined /\ v <> JNull).
    { destruct (session_phases_raise E env _ _ _ _ Hp)
        as [-> | [[-> | [-> | [-> | [msg ->]]]] | [-> | [-> | ->]]]];
        try (apply Hcode; cbn; tauto); split; discriminate. }
    destruct Hn; tauto.
Qed.

Lemma startFlashing_always_settles_witness :
  result
    (startFlashing Error_untyped (Scenario.scripted Scenario.unpack_fails)
       (Scenario.initialized Error_untyped Scenario.unpack_fails))
  = inl tt.
Proof.
  apply (startFlashing_always_settles nat unit Error_untyped
           (Scenario.scripted Scenario.unpack_fails)).
  - intros k Hk. cbn in Hk.
    repeat (destruct Hk as [<- | Hk]; [eexists; reflexivity |]). contradiction.
  - intros w v Hv. cbn in Hv. discriminate Hv.
  - intros w v Hv. cbn in Hv. discriminate Hv.
Defined.

(** ** What each failure publishes *)

Section FailurePublished.

Context {World FileHandle : Type}.
Variable E : ErrorTable.
Variable env : Env World FileHandle.

Lemma bind_run_inl {A B} (m : M World A) (k : A -> M World B) (s s1 s2 : Sys World)
      (a : A) (r : B + JsVal) (l1 l2 : list Event) :
  m s = (inl a, s1, l1) -> k a s1 = (r, s2, l2) -> bind m k s = (r, s2, l1 ++ l2).
Proof. intros Hm Hk. unfold bind. now rewrite Hm, Hk. Qed.

Lemma bind_run_inr {A B} (m : M World A) (k : A -> M World B) (s s1 : Sys World)
      (v : JsVal) (l1 : list Event) :
  m s = (inr v, s1, l1) -> bind m k s = (inr v, s1, l1).
Proof. intros Hm. unfold bind. now rewrite Hm. Qed.

(** The error path, after events that published no error. *)
Lemma handleError_surfaces (v : JsVal) (sp s' : Sys World) (r : unit + JsVal)
      (before lh : list Event) :
  handleError v sp = (r, s', lh) ->
  errors_published before = [] ->
  surfaces v (r, s', before ++ lh).
Proof.
  intros Hh Hbefore.
  assert (Hgen : v <> JUndefined -> v <> JNull ->
                 published_as (or_else (get_code v) v) (r, s', before ++ lh)).
  { intros Hu Hn. rewrite (handleError_run v sp Hu Hn) in Hh.
    injection Hh as <- <- <-.
    unfold published_as, result, final, events. cbn [fst snd].
    split; [reflexivity |]. split; [| reflexivity].
    rewrite errors_published_app, Hbefore. reflexivity. }
  split; [exact Hgen |].
  intros c ->. apply Hgen; discriminate.
Qed.

(** A failure of the device-info read. *)
Lemma info_failure_surfaces (s : Sys World) (w1 w2 : World) (err : JsVal) :
  waitForConnect env (world s) = (inl tt, w1) ->
  getDevicePartitionsInfo env w1 = (inr err, w2) ->
  surfaces err (startFlashing E env s).
Proof.
  intros Hwait Hinfo.
  destruct (startFlashing E env s) as [[r s'] l] eqn:Hrun.
  apply startFlashing_inv in Hrun. cbv zeta in Hrun.
  destruct Hrun
    as [(v & w & lh & Hw & _)
       | [(w1' & v & w2' & lh & Hw & Hi & Hh & ->)
         | [(w1' & info & w2' & Hw & Hi & _)
           | (w1' & info & w2' & rp & sp & lp & Hw & Hi & _)]]];
    rewrite Hwait in Hw; try discriminate Hw; injection Hw as <-;
    rewrite Hinfo in Hi; try discriminate Hi.
  injection Hi as <- <-.
  apply (handleError_surfaces _ _ _ _ _ _ Hh). reflexivity.
Qed.

(** A failure of the phases. *)
Lemma phases_failure_surfaces (s sp : Sys World) (w1 w2 : World)
      (info : Z * list string) (v : JsVal) (lp : list Event) :
  waitForConnect env (world s) = (inl tt, w1) ->
  getDevicePartitionsInfo env w1 = (inl info, w2) ->
  isRecognizedDevice (fst info) (snd info) = true ->
  session_phases E env (recognised_state s (sahara_serial env w2) w2) = (inr v, sp, lp) ->
  surfaces v (startFlashing E env s).
Proof.
  intros Hwait Hinfo Hrec Hp.
  destruct (startFlashing E env s) as [[r s'] l] eqn:Hrun.
  apply startFlashing_inv in Hrun. cbv zeta in Hrun.
  destruct Hrun
    as [(v' & w & lh & Hw & _)
       | [(w1' & v' & w2' & lh & Hw & Hi & _)
         | [(w1' & info' & w2' & Hw & Hi & Hn & _)
           | (w1' & info' & w2' & rp & sp' & lp' & Hw & Hi & _ & Hp' & Hend)]]];
    rewrite Hwait in Hw; try discriminate Hw; injection Hw as <-;
    rewrite Hinfo in Hi; try discriminate Hi; injection Hi as <- <-.
  - rewrite Hrec in Hn. discriminate Hn.
  - rewrite Hp in Hp'. injection Hp' as <- <- <-.
    destruct Hend as [(Hr & _) | (v' & lh & Hr & Hh & ->)]; [discriminate Hr |].
    injection Hr as <-. rewrite app_assoc.
    apply (handleError_surfaces _ _ _ _ _ _ Hh).
    destruct (obeys_run _ _ _ _ _ _ _ _
                (session_phases_publish_no_error E env (error (store s))
                   (onRetry (store s))) Hp (conj eq_refl eq_refl))
      as (_ & _ & Hev).
    rewrite errors_published_app, (no_error_events lp Hev). reflexivity.
Qed.

(** With the image worker set, the flash phase throws its own code only. *)
Lemma flashDevice_throws (s s' : Sys World) (v : JsVal) (l : list Event) :
  imageWorker (store s) = true ->
  flashDevice E env s = (inr v, s', l) ->
  v = member E "FLASH_FAILED".
Proof.
  intros Hw Hrun. unfold flashDevice in Hrun.
  apply bind_inv in Hrun as [(a & s1 & l1 & l2 & Hreq & Hrun & _) | (v' & Hreq & _)];
    rewrite (require_imageWorker_run s Hw) in Hreq; [| discriminate Hreq].
  apply bind_inv in Hrun as [(a' & s2 & l3 & l4 & _ & Hrun & _) | (v' & Hp & _)];
    [| discriminate Hp].
  apply try_catch_inv in Hrun
    as [(a'' & _ & Hr) | (v' & sb & lb & lh & _ & Hh & _)]; [discriminate Hr |].
  cbn in Hh. now injection Hh as <- _ _.
Qed.

(** The phases of a session, one failing after the others returned. *)
Lemma phase_failures_surface (s : Sys World) (w1 w2 : World) (info : Z * list string) :
  waitForConnect env (world s) = (inl tt, w1) ->
  getDevicePartitionsInfo env w1 = (inl info, w2) ->
  isRecognizedDevice (fst info) (snd info) = true ->
  let run := startFlashing E env s in
  let s0 := recognised_state s (sahara_serial env w2) w2 in
  let s1 := final (downloadImages E env s0) in
  let s2 := final (unpackImages E env s1) in
  let s3 := final (flashDevice E env s2) in
  (forall v, result (downloadImages E env s0) = inr v ->
     (imageWorker (store s) = true -> v = member E "DOWNLOAD_FAILED") /\
     surfaces v run) /\
  (result (downloadImages E env s0) = inl tt ->
   forall v, result (unpackImages E env s1) = inr v ->
     surfaces v run /\
     exists image failure,
       In image (manifest (store s)) /\
       (exists w reports w', unpackImage env image w = (reports, (inr failure, w'))) /\
       (forall msg, failure = JStr msg ->
          v = if String.prefix "Checksum mismatch" msg
              then member E "CHECKSUM_MISMATCH"
              else member E "UNPACK_FAILED")) /\
  (result (downloadImages E env s0) = inl tt ->
   result (unpackImages E env s1) = inl tt ->
   forall v, result (flashDevice E env s2) = inr v ->
     v = member E "FLASH_FAILED" /\ surfaces v run) /\
  (result (downloadImages E env s0) = inl tt ->
   result (unpackImages E env s1) = inl tt ->
   result (flashDevice E env s2) = inl tt ->
   forall v, result (eraseDevice E env s3) = inr v ->
     v = member E "ERASE_FAILED" /\ surfaces v run).
Proof.
  intros Hwait Hinfo Hrec run s0 s1 s2 s3. subst run s1 s2 s3.
  pose proof (phases_failure_surfaces s) as Hsurf.
  specialize (fun sp v lp => Hsurf sp w1 w2 info v lp Hwait Hinfo Hrec).
  fold s0 in Hsurf.
  assert (Hm0 : manifest (store s0) = manifest (store s)) by reflexivity.
  assert (Hw0 : imageWorker (store s0) = imageWorker (store s)) by reflexivity.
  destruct (downloadImages E env s0) as [[rd sd] ld] eqn:Hd.
  unfold result, final. cbn [fst snd].
  pose proof (downloadImages_summary E env _ _ _ _ Hd) as (_ & Hmd & _ & _ & _ & Hdcase).
  split; [| split; [| split]].
  - intros v ->. split.
    + intros Hw. rewrite <- Hw0 in Hw.
      destruct (downloadImages_shape E env _ _ _ _ Hw Hd)
        as [_ [(Hr & _) | (Hr & _)]]; [discriminate Hr | now injection Hr as ->].
    + apply (Hsurf sd v ld). unfold session_phases. now apply bind_run_inr.
  - intros -> v Hu.
    destruct Hdcase as [(_ & Hwd & _) | ((v' & Hr) & _)]; [| discriminate Hr].
    destruct (unpackImages E env sd) as [[ru su] lu] eqn:Hup.
    cbn [fst snd] in Hu. subst ru. split.
    + apply (Hsurf su v (ld ++ lu)). unfold session_phases.
      apply (bind_run_inl _ _ _ _ _ _ _ _ _ Hd). now apply bind_run_inr.
    + destruct (unpackImages_shape E env _ _ _ _ Hwd Hup)
        as [_ [(Hr & _) | (_ & _ & before & image & after & w & reports & failure
                              & Hman & Hcall & _ & Hre)]];
        [discriminate Hr |].
      exists image, failure. split; [| split].
      * rewrite <- Hm0, <- Hmd, Hman. apply in_or_app. right. now left.
      * now exists w, reports, (world su).
      * intros msg ->. cbn in Hre. now injection Hre as <-.
  - intros -> Hu v Hf.
    destruct Hdcase as [(_ & Hwd & _) | ((v' & Hr) & _)]; [| discriminate Hr].
    destruct (unpackImages E env sd) as [[ru su] lu] eqn:Hup.
    cbn [fst snd] in Hu, Hf. subst ru.
    destruct (flashDevice E env su) as [[rf sf] lf] eqn:Hfl.
    cbn [fst snd] in Hf. subst rf.
    assert (Hwu : imageWorker (store su) = true).
    { pose proof (flash_phase_entered_with_worker E env s0) as Hen.
      rewrite Hd in Hen. unfold result, final in Hen. cbn [fst snd] in Hen.
      rewrite Hup in Hen. cbn [fst snd] in Hen. now apply Hen. }
    split; [exact (flashDevice_throws _ _ _ _ Hwu Hfl) |].
    apply (Hsurf sf v (ld ++ lu ++ lf)). unfold session_phases.
    apply (bind_run_inl _ _ _ _ _ _ _ _ _ Hd).
    apply (bind_run_inl _ _ _ _ _ _ _ _ _ Hup). now apply bind_run_inr.
  - intros -> Hu Hf v He.
    destruct (unpackImages E env sd) as [[ru su] lu] eqn:Hup.
    cbn [fst snd] in Hu, Hf, He. subst ru.
    destruct (flashDevice E env su) as [[rf sf] lf] eqn:Hfl.
    cbn [fst snd] in Hf, He. subst rf.
    destruct (eraseDevice E env sf) as [[re se] le] eqn:Her.
    cbn [fst snd] in He. subst re.
    split.
    + destruct (obeys_run _ _ _ _ _ _ _ _
                  (eraseDevice_obeys E env _ (fun _ => True) phase_safe_True
                     (fun _ _ => I)) Her I) as (_ & Hv & _).
      now apply Hv.
    + apply (Hsurf se v (ld ++ lu ++ lf ++ le)). unfold session_phases.
      apply (bind_run_inl _ _ _ _ _ _ _ _ _ Hd).
      apply (bind_run_inl _ _ _ _ _ _ _ _ _ Hup).
      apply (bind_run_inl _ _ _ _ _ _ _ _ _ Hfl). now apply bind_run_inr.
Qed.

End FailurePublished.

(** C7, amended.  Every value a session publishes to the error field is
    the code of an unrecognised device or [err.code || err] for a value
    [err] thrown inside the session, and every failure is published that
    way.  A raw failure of the connection wait or of the device-info read
    that is neither [undefined] nor [null] is published as its [code] when
    that is truthy and as the raw value itself otherwise.  A phase that
    fails after the phases before it returned throws its own coarse code
    ([DOWNLOAD_FAILED]; [CHECKSUM_MISMATCH] or the table's [UNPACK_FAILED]
    entry by the message of the worker's rejection; [FLASH_FAILED];
    [ERASE_FAILED]), and the session publishes the value thrown: a number
    as that number. *)
Theorem error_field_gets_code_or_value :
  forall (World FileHandle : Type) (E : ErrorTable) (env : Env World FileHandle)
         (s : Sys World),
    let run := startFlashing E env s in
    (forall v, In (Set_error v) (events run) -> publishable E env v) /\
    (forall c, c <> 0 -> or_else (get_code (JNum c)) (JNum c) = JNum c) /\
    (forall err w,
        waitForConnect env (world s) = (inr err, w) ->
        err <> JUndefined -> err <> JNull ->
        error (store (final run)) = or_else (get_code err) err /\
        errors_published (events run) = [or_else (get_code err) err] /\
        (truthy (get_code err) = false -> error (store (final run)) = err)) /\
    (forall w1 err w2,
        waitForConnect env (world s) = (inl tt, w1) ->
        getDevicePartitionsInfo env w1 = (inr err, w2) ->
        surfaces err run) /\
    (forall w1 info w2,
        waitForConnect env (world s) = (inl tt, w1) ->
        getDevicePartitionsInfo env w1 = (inl info, w2) ->
        isRecognizedDevice (fst info) (snd info) = true ->
        let s0 := recognised_state s (sahara_serial env w2) w2 in
        let s1 := final (downloadImages E env s0) in
        let s2 := final (unpackImages E env s1) in
        let s3 := final (flashDevice E env s2) in
        (forall v, result (downloadImages E env s0) = inr v ->
           (imageWorker (store s) = true -> v = member E "DOWNLOAD_FAILED") /\
           surfaces v run) /\
        (result (downloadImages E env s0) = inl tt ->
         forall v, result (unpackImages E env s1) = inr v ->
           surfaces v run /\
           exists image failure,
             In image (manifest (store s)) /\
             (exists w reports w',
                 unpackImage env image w = (reports, (inr failure, w'))) /\
             (forall msg, failure = JStr msg ->
                v = if String.prefix "Checksum mismatch" msg
                    then member E "CHECKSUM_MISMATCH"
                    else member E "UNPACK_FAILED")) /\
        (result (downloadImages E env s0) = inl tt ->
         result (unpackImages E env s1) = inl tt ->
         forall v, result (flashDevice E env s2) = inr v ->
           v = member E "FLASH_FAILED" /\ surfaces v run) /\
        (result (downloadImages E env s0) = inl tt ->
         result (unpackImages E env s1) = inl tt ->
         result (flashDevice E env s2) = inl tt ->
         forall v, result (eraseDevice E env s3) = inr v ->
           v = member E "ERASE_FAILED" /\ surfaces v run)).
Proof.
  intros World FileHandle E env s run. subst run.
  split; [| split; [| split; [| split]]].
  - intros v Hin.
    destruct (startFlashing_published E env s I) as (_ & _ & Hev).
    rewrite Forall_forall in Hev. now apply (Hev _ Hin).
  - intros c Hc. reflexivity.
  - intros err w Hc Hu Hn.
    rewrite (startFlashing_connect_rejected E env s err w Hc Hu Hn).
    cbn. repeat split. intros Hf. unfold or_else. now rewrite Hf.
  - intros w1 err w2. apply info_failure_surfaces.
  - intros w1 info w2. apply phase_failures_surface.
Qed.

Lemma error_field_gets_code_or_value_witness :
  waitForConnect
    (Scenario.scripted (Scenario.connect_rejects (JObj "NetworkError" (JNum 19))))
    (world (Scenario.fresh Error))
  = (inr (JObj "NetworkError" (JNum 19)), 1%nat) /\
  error (store (final
    (startFlashing Error
       (Scenario.scripted (Scenario.connect_rejects (JObj "NetworkError" (JNum 19))))
       (Scenario.fresh Error))))
  = JNum 19 /\
  published_as (JNum 5)
    (startFlashing Error (Faulty.scripted Faulty.system_write_fails Scenario.happy_b)
       (Scenario.initialized Error Scenario.happy_b)).
Proof.
  split; [reflexivity |]. split.
  - refine (proj1 (proj1 (proj2 (proj2 (error_field_gets_code_or_value nat unit Error
              (Scenario.scripted (Scenario.connect_rejects (JObj "NetworkError" (JNum 19))))
              (Scenario.fresh Error))))
            (JObj "NetworkError" (JNum 19)) 1%nat eq_refl _ _)); discriminate.
  - refine (proj2 (proj2 (proj1 (proj2 (proj2
              (proj2 (proj2 (proj2 (proj2 (error_field_gets_code_or_value nat unit Error
                 (Faulty.scripted Faulty.system_write_fails Scenario.happy_b)
                 (Scenario.initialized Error Scenario.happy_b)))))
               1%nat Scenario.two_slots 1%nat eq_refl eq_refl eq_refl)))
             _ _ (JNum 5) _)) 5 eq_refl);
      vm_compute; reflexivity.
Defined.
